(** * Sprout: worktree, session and agent orchestration

    A shallow embedding of the orchestration engine of sprout
    ([apps/sprout/internal/sprout/manager.go] and the agent-status
    classifier of [ui.go]) together with the properties its specification
    states about it.

    Go strings are byte sequences; they are modelled as lists of
    [ascii] (one [ascii] per byte).  Functions of the Go standard library
    that the program calls are modelled at that byte level, next to a short
    account of why the byte-level reading agrees with the rune-level one. *)

From Stdlib Require Import Ascii String List ZArith Lia Bool.
Import ListNotations.

Local Open Scope Z_scope.

(** ** Byte strings *)

Definition str := list ascii.

(** A Go string literal. *)
Definition lit (s : string) : str := list_ascii_of_string s.

(** A string given by its bytes (used for the non-ASCII literals). *)
Definition bytes (l : list Z) : str :=
  map (fun n => ascii_of_N (Z.to_N n)) l.

Definition code (c : ascii) : Z := Z.of_N (N_of_ascii c).

Definition chr (n : Z) : ascii := ascii_of_N (Z.to_N n).

Definition between (lo hi : Z) (c : ascii) : bool :=
  (lo <=? code c) && (code c <=? hi).

Definition isb (n : Z) (c : ascii) : bool := code c =? n.

Definition str_eqb (a b : str) : bool :=
  if list_eq_dec ascii_dec a b then true else false.

(** [len(s)] *)
Definition len (s : str) : Z := Z.of_nat (length s).

(** [s[:n]] for [0 <= n <= len(s)] *)
Definition slice_to (n : Z) (s : str) : str := firstn (Z.to_nat n) s.

(** ** The [strings] package *)

Module Strings.

(** [strings.HasPrefix(s, prefix)] *)
Fixpoint HasPrefix (s prefix : str) {struct prefix} : bool :=
  match prefix, s with
  | [], _ => true
  | p :: ps, c :: cs => if ascii_dec p c then HasPrefix cs ps else false
  | _ :: _, [] => false
  end.

(** [strings.HasSuffix(s, suffix)] *)
Definition HasSuffix (s suffix : str) : bool :=
  HasPrefix (rev s) (rev suffix).

(** [strings.TrimPrefix(s, prefix)] *)
Definition TrimPrefix (s prefix : str) : str :=
  if HasPrefix s prefix then skipn (length prefix) s else s.

(** [strings.TrimSuffix(s, suffix)] *)
Definition TrimSuffix (s suffix : str) : str :=
  if HasSuffix s suffix then firstn (length s - length suffix) s else s.

(** [strings.Contains(s, substr)] *)
Fixpoint Contains (s substr : str) : bool :=
  HasPrefix s substr ||
  match s with
  | [] => false
  | _ :: cs => Contains cs substr
  end.

(** [strings.ReplaceAll(s, old, new)] for a one-byte [old] and [new]. *)
Definition ReplaceAllByte (s : str) (old new : ascii) : str :=
  map (fun c => if ascii_dec c old then new else c) s.

(** [strings.Trim(s, cutset)] for an ASCII cutset: leading and trailing
    bytes of the cutset are dropped. *)
Fixpoint TrimLeftIn (cut : ascii -> bool) (s : str) : str :=
  match s with
  | [] => []
  | c :: cs => if cut c then TrimLeftIn cut cs else s
  end.

Definition TrimRightIn (cut : ascii -> bool) (s : str) : str :=
  rev (TrimLeftIn cut (rev s)).

Definition TrimIn (cut : ascii -> bool) (s : str) : str :=
  TrimRightIn cut (TrimLeftIn cut s).

(** The code points with the Unicode White_Space property, as the byte
    sequences that encode them in UTF-8: the six ASCII ones, U+0085,
    U+00A0, U+1680, U+2000..U+200A, U+2028, U+2029, U+202F, U+205F and
    U+3000.  Every one of them is a complete, valid encoding that starts
    with a lead byte, so a rune decoded at a position is a space exactly
    when one of these sequences is a prefix there, and the last rune is a
    space exactly when one of them is a suffix. *)
Definition asciiSpace (c : ascii) : bool :=
  isb 9 c || isb 10 c || isb 11 c || isb 12 c || isb 13 c || isb 32 c.

Definition space2 (a b : ascii) : bool :=
  isb 194 a && (isb 133 b || isb 160 b).

Definition space3 (a b c : ascii) : bool :=
  (isb 225 a && isb 154 b && isb 128 c)
  || (isb 226 a && isb 128 b
      && (between 128 138 c || isb 168 c || isb 169 c || isb 175 c))
  || (isb 226 a && isb 129 b && isb 159 c)
  || (isb 227 a && isb 128 b && isb 128 c).

(** The length of the space rune encoded at the head of [s], or [0]. *)
Definition spaceAtHead (s : str) : nat :=
  match s with
  | a :: t1 =>
      if asciiSpace a then 1%nat else
      match t1 with
      | b :: t2 =>
          if space2 a b then 2%nat else
          match t2 with
          | c :: _ => if space3 a b c then 3%nat else 0%nat
          | [] => 0%nat
          end
      | [] => 0%nat
      end
  | [] => 0%nat
  end.

(** The length of the space rune encoded at the end of the string whose
    reversal is [r], or [0]. *)
Definition spaceAtTail (r : str) : nat :=
  match r with
  | a :: t1 =>
      if asciiSpace a then 1%nat else
      match t1 with
      | b :: t2 =>
          if space2 b a then 2%nat else
          match t2 with
          | c :: _ => if space3 c b a then 3%nat else 0%nat
          | [] => 0%nat
          end
      | [] => 0%nat
      end
  | [] => 0%nat
  end.

Fixpoint dropSpaces (at_end : bool) (fuel : nat) (s : str) : str :=
  match fuel with
  | O => s
  | S fuel' =>
      match (if at_end then spaceAtTail s else spaceAtHead s) with
      | O => s
      | n => dropSpaces at_end fuel' (skipn n s)
      end
  end.

(** [strings.TrimSpace(s)] *)
Definition TrimSpace (s : str) : str :=
  let l := dropSpaces false (length s) s in
  rev (dropSpaces true (length l) (rev l)).

(** [strings.TrimRight(s, "\n")] and friends. *)
Definition TrimRight (s : str) (cut : ascii -> bool) : str :=
  TrimRightIn cut s.

(** [strings.Split(s, sep)] for a one-byte separator: always at least
    one field. *)
Fixpoint SplitByte (sep : ascii) (s : str) : list str :=
  match s with
  | [] => [[]]
  | c :: cs =>
      if ascii_dec c sep then [] :: SplitByte sep cs
      else match SplitByte sep cs with
           | f :: fs => (c :: f) :: fs
           | [] => [[c]]
           end
  end.

(** [strings.Join(elems, sep)] *)
Fixpoint Join (elems : list str) (sep : str) : str :=
  match elems with
  | [] => []
  | [e] => e
  | e :: es => e ++ sep ++ Join es sep
  end.

(** [strings.Fields(s)]: the maximal runs of bytes between white space. *)
Fixpoint fieldsAux (fuel : nat) (cur : str) (s : str) : list str :=
  let flush := match cur with [] => [] | _ => [rev cur] end in
  match fuel with
  | O => flush
  | S fuel' =>
      match s with
      | [] => flush
      | c :: cs =>
          match spaceAtHead s with
          | O => fieldsAux fuel' (c :: cur) cs
          | n => flush ++ fieldsAux fuel' [] (skipn n s)
          end
      end
  end.

Definition Fields (s : str) : list str := fieldsAux (S (length s)) [] s.

Definition isASCII (c : ascii) : bool := code c <? 128.

Definition lowerASCII (c : ascii) : ascii :=
  if between 65 90 c then chr (code c + 32) else c.

Section Lower.
(** [strings.ToLower] maps [A-Z] to [a-z] when the string is pure
    ASCII; otherwise it maps every rune through the Unicode case
    tables ([strings.Map(unicode.ToLower, s)]).  These tables are not
    part of the program: the second case is a parameter. *)
Variable unicodeLower : str -> str.

Definition ToLower (s : str) : str :=
  if forallb isASCII s then map lowerASCII s else unicodeLower s.
End Lower.

End Strings.

(** ** The [strconv] package *)

Module Strconv.

Definition isDigit (c : ascii) : bool := between 48 57 c.

Fixpoint digitsValue (acc : Z) (s : str) : option Z :=
  match s with
  | [] => Some acc
  | c :: cs =>
      if isDigit c then digitsValue (acc * 10 + (code c - 48)) cs else None
  end.

(** [strconv.Atoi(s)] on a 64-bit platform: an optional sign, then one
    or more decimal digits, and the value must fit in an [int]; any
    other input is an error ([None]). *)
Definition Atoi (s : str) : option Z :=
  let '(neg, ds) :=
    match s with
    | c :: cs => if isb 45 c then (true, cs)
                 else if isb 43 c then (false, cs) else (false, s)
    | [] => (false, s)
    end in
  match ds with
  | [] => None
  | _ =>
      match digitsValue 0 ds with
      | None => None
      | Some v =>
          let n := if neg then - v else v in
          if (- 2 ^ 63 <=? n) && (n <=? 2 ^ 63 - 1) then Some n else None
      end
  end.

Fixpoint natDigits (fuel : nat) (n : Z) (acc : str) : str :=
  match fuel with
  | O => acc
  | S fuel' =>
      let acc' := chr (48 + n mod 10) :: acc in
      if n <? 10 then acc' else natDigits fuel' (n / 10) acc'
  end.

(** [strconv.Itoa(n)], also the [%d] verb of [fmt]. *)
Definition Itoa (n : Z) : str :=
  if n <? 0 then chr 45 :: natDigits (Z.to_nat (Z.log2 (- n)) + 1) (- n) []
  else natDigits (Z.to_nat (Z.log2 n) + 1) n [].

End Strconv.

(** ** The [regexp] package, as far as the program uses it *)

Module Regexp.

(** [re.ReplaceAllString(s, repl)] for a pattern of the shape [[class]+]:
    every maximal run of bytes of the class is replaced by [repl].
    [inrun] tells whether the byte before the head of [s] was of the
    class.

    The classes of the program are [[^a-z0-9/-]], [[^A-Za-z0-9._-]], [/]
    and [-].  The regexp engine works on runes, decoding an invalid byte
    as a one-byte U+FFFD; every byte of a multi-byte or invalid rune is
    at least [0x80] and so lies in the two negated classes and outside
    the two one-byte ones, which makes the maximal runs of runes and the
    maximal runs of bytes the same. *)
Fixpoint replaceRuns (cls : ascii -> bool) (repl : str) (inrun : bool)
         (s : str) : str :=
  match s with
  | [] => []
  | c :: cs =>
      if cls c then
        (if inrun then replaceRuns cls repl true cs
         else repl ++ replaceRuns cls repl true cs)
      else c :: replaceRuns cls repl false cs
  end.

Definition ReplaceAllRuns (cls : ascii -> bool) (s repl : str) : str :=
  replaceRuns cls repl false s.

End Regexp.

(** ** Errors *)

(** A Go [(T, error)] result; an error is represented by its message. *)
Inductive result (A : Type) : Type :=
| Ok (a : A)
| Err (msg : str).
Arguments Ok {A} a.
Arguments Err {A} msg.

(** ** More of the standard library: general replacement, ordering, paths *)

Module Lib.
Import Strings.

(** [strings.ReplaceAll(s, old, new)] for a non-empty [old]: the
    non-overlapping occurrences of [old], leftmost first.  [skip] counts
    the bytes of a matched occurrence still to be dropped. *)
Fixpoint replaceAllAux (old new : str) (skip : nat) (s : str) : str :=
  match s with
  | [] => []
  | c :: cs =>
      match skip with
      | S k => replaceAllAux old new k cs
      | O =>
          if HasPrefix s old
          then new ++ replaceAllAux old new (length old - 1) cs
          else c :: replaceAllAux old new 0 cs
      end
  end.

Definition ReplaceAll (s old new : str) : str := replaceAllAux old new 0 s.

(** The order [<] of Go strings: lexicographic on bytes. *)
Fixpoint str_ltb (a b : str) : bool :=
  match a, b with
  | [], [] => false
  | [], _ :: _ => true
  | _ :: _, [] => false
  | x :: a', y :: b' =>
      if code x <? code y then true
      else if code y <? code x then false
      else str_ltb a' b'
  end.

Fixpoint insertString (x : str) (l : list str) : list str :=
  match l with
  | [] => [x]
  | y :: ys =>
      if str_eqb x y then l
      else if str_ltb x y then x :: l
      else y :: insertString x ys
  end.

(** The keys of a [map[string]struct{}] filled with the elements of
    [l], once [sort.Strings] has ordered them: the distinct elements in
    increasing order. *)
Definition sortedSet (l : list str) : list str :=
  fold_left (fun acc x => insertString x acc) l [].

Definition isSlash (c : ascii) : bool := isb 47 c.

(** [filepath.IsAbs(path)] on Unix *)
Definition filepath_IsAbs (path : str) : bool := HasPrefix path (lit "/").

(** One step of the lexical clean-up: [stack] holds the elements kept
    so far, innermost first. *)
Definition cleanStep (rooted : bool) (stack : list str) (elem : str)
  : list str :=
  if str_eqb elem [] || str_eqb elem (lit ".") then stack
  else if str_eqb elem (lit "..") then
    match stack with
    | top :: rest =>
        if str_eqb top (lit "..") then elem :: stack else rest
    | [] => if rooted then [] else [elem]
    end
  else elem :: stack.

(** [filepath.Clean(path)] on Unix: the shortest path equivalent to
    [path] by purely lexical processing. *)
Definition filepath_Clean (path : str) : str :=
  if str_eqb path [] then lit "." else
  let rooted := filepath_IsAbs path in
  let stack := fold_left (cleanStep rooted) (SplitByte "/"%char path) [] in
  let body := Join (rev stack) (lit "/") in
  if rooted then lit "/" ++ body
  else if str_eqb body [] then lit "." else body.

(** [filepath.Join(elem...)] on Unix *)
Fixpoint filepath_Join (elem : list str) : str :=
  match elem with
  | [] => []
  | e :: es =>
      if str_eqb e [] then filepath_Join es
      else filepath_Clean (Join elem (lit "/"))
  end.

Fixpoint fromLastSlash (r : str) : str :=
  match r with
  | [] => []
  | c :: cs => if isSlash c then r else fromLastSlash cs
  end.

(** [filepath.Dir(path)] on Unix: all but the last element. *)
Definition filepath_Dir (path : str) : str :=
  filepath_Clean (rev (fromLastSlash (rev path))).

Fixpoint untilSlash (s : str) : str :=
  match s with
  | [] => []
  | c :: cs => if isSlash c then [] else c :: untilSlash cs
  end.

(** [filepath.Base(path)] on Unix: the last element of the path, after
    trailing slashes are dropped. *)
Definition filepath_Base (path : str) : str :=
  if str_eqb path [] then lit "." else
  let p := TrimRightIn isSlash path in
  let last := rev (untilSlash (rev p)) in
  if str_eqb last [] then lit "/" else last.

(** [time.Duration.String()] for a whole, non-negative number of
    seconds. *)
Definition durationString (seconds : Z) : str :=
  let h := seconds / 3600 in
  let m := (seconds / 60) mod 60 in
  let s := seconds mod 60 in
  if 0 <? h then
    Strconv.Itoa h ++ lit "h" ++ Strconv.Itoa m ++ lit "m"
    ++ Strconv.Itoa s ++ lit "s"
  else if 0 <? m then Strconv.Itoa m ++ lit "m" ++ Strconv.Itoa s ++ lit "s"
  else Strconv.Itoa s ++ lit "s".

End Lib.

(** ** Branch names and multiplexer names *)

Module Naming.
Import Strings Regexp.

(** [slugBadRe = `[^a-z0-9/-]+`] *)
Definition slugChar (c : ascii) : bool :=
  between 97 122 c || between 48 57 c || isb 47 c || isb 45 c.
Definition slugBad (c : ascii) : bool := negb (slugChar c).

(** [slashRe = `/+`], [dashRe = `-+`] *)
Definition isSlash (c : ascii) : bool := isb 47 c.
Definition isDash (c : ascii) : bool := isb 45 c.

(** [safeNameRe = `[^A-Za-z0-9._-]+`] *)
Definition safeChar (c : ascii) : bool :=
  between 65 90 c || between 97 122 c || between 48 57 c
  || isb 46 c || isb 95 c || isb 45 c.
Definition safeBad (c : ascii) : bool := negb (safeChar c).

(** The cutset ["-/"] of [strings.Trim]. *)
Definition dashOrSlash (c : ascii) : bool := isDash c || isSlash c.

Definition emptySlugError : str := lit "feature name resolves to empty slug".

Section Slug.
Variable unicodeLower : str -> str.

(** The string [Slugify] tests for emptiness. *)
Definition normalize (input : str) : str :=
  let slug := ToLower unicodeLower input in
  let slug := ReplaceAllByte slug "_"%char "-"%char in
  let slug := ReplaceAllByte slug " "%char "-"%char in
  let slug := ReplaceAllRuns slugBad slug (lit "-") in
  let slug := ReplaceAllRuns isSlash slug (lit "/") in
  let slug := ReplaceAllRuns isDash slug (lit "-") in
  TrimIn dashOrSlash slug.

(** [func (m *Manager) Slugify(input string) (string, error)] *)
Definition Slugify (input : str) : result str :=
  let slug := normalize input in
  if str_eqb slug [] then Err emptySlugError else Ok slug.

(** [typeRe = `^(feat|fix|chore|docs|refactor|test)$`]; [$] also
    matches before a final newline only under the [m] flag, which the
    pattern does not set. *)
Definition typeRe_Match (s : str) : bool :=
  existsb (str_eqb s)
    [lit "feat"; lit "fix"; lit "chore"; lit "docs"; lit "refactor";
     lit "test"].

(** [func (m *Manager) MakeBranchName(branchType, name string)] *)
Definition MakeBranchName (branchType name : str) : result str :=
  if negb (typeRe_Match branchType) then
    Err (lit "invalid type '" ++ branchType
         ++ lit "' (expected: feat|fix|chore|docs|refactor|test)")
  else
    match Slugify name with
    | Err e => Err e
    | Ok slug => Ok (branchType ++ lit "/" ++ slug)
    end.
End Slug.

(** [func safeName(value string) string] *)
Definition safeName (value : str) : str :=
  let s := ReplaceAllRuns safeBad value (lit "-") in
  let s := ReplaceAllRuns isDash s (lit "-") in
  let s := TrimIn isDash s in
  if str_eqb s [] then lit "default" else s.

(** [func (m *Manager) tmuxSessionName(repoRoot string) string], with
    the repository name that [m.RepoName(repoRoot)] returned and the
    configured [SessionPrefix]. *)
Definition tmuxSessionNameOf (sessionPrefix repoName : str) : str :=
  let repo := safeName repoName in
  let prefix := safeName sessionPrefix in
  if str_eqb prefix [] then repo
  else prefix ++ lit "-" ++ repo.

(** [func (m *Manager) tmuxWorktreeSessionNameFrom(repoRoot, branch,
    worktreePath string) string], with the value [base] of
    [m.tmuxSessionName(repoRoot)]. *)
Definition tmuxWorktreeSessionNameFromBase (base branch worktreePath : str)
  : str :=
  let token := TrimSpace branch in
  let token := if str_eqb token [] then Lib.filepath_Base worktreePath
               else token in
  let suffix := safeName token in
  if str_eqb suffix [] then base
  else
    let name := base ++ lit "-" ++ suffix in
    if len name >? 100 then slice_to 100 name else name.

Definition tmuxWorktreeSessionNameOf
           (sessionPrefix repoName branch worktreePath : str) : str :=
  tmuxWorktreeSessionNameFromBase
    (tmuxSessionNameOf sessionPrefix repoName) branch worktreePath.

End Naming.

(** ** The outside world

    The program talks to [git], [tmux] and the file system.  Each such
    request is a [Call]; a program is a tree of calls whose continuation
    receives the answer ([Prog]), and a run of it against a world records
    the calls it made together with their answers.

    The lines that [debugLogf] appends to the debug log are left out: the
    function returns nothing and no branch of the program depends on
    it.  A trace here is therefore the trace of the program without the
    requests of the log, which reads [SPROUT_DEBUG_LOG], creates the
    directory of the log and appends to the file. *)

Module Sys.

(** What [exec.CommandContext(ctx, ...).CombinedOutput()] gives back:
    the combined output, the error text if the command failed, and
    whether the context's deadline had passed. *)
Record ProcResult : Type := {
  pr_out : str;
  pr_err : option str;
  pr_deadline : bool
}.

(** The three outcomes of [os.Stat] that the program tells apart. *)
Inductive StatResult : Type :=
| StatOk (isDir : bool)
| StatNotExist (msg : str)
| StatFail (msg : str).

Inductive FileKind : Type := KSymlink | KDir | KFile.

Inductive LstatResult : Type :=
| LstatOk (kind : FileKind) (perm : Z)
| LstatNotExist (msg : str)
| LstatFail (msg : str).

Inductive Call : Type -> Type :=
(** [exec.CommandContext] with working directory [dir]; [timeout] is in
    seconds, [0] for none. *)
| Exec (dir : str) (timeout : Z) (name : str) (args : list str)
  : Call ProcResult
| Stat (path : str) : Call StatResult
| Lstat (path : str) : Call LstatResult
| MkdirAll (path : str) (perm : Z) : Call (option str)
| Getenv (key : str) : Call str
| Getwd : Call (result str)
| LookPath (file : str) : Call bool
(** The three leaf copies of the tree copier, [copyFile], [copySymlink]
    and [copyTree]; each answers with its error, if any. *)
| CopyFile (src dst : str) : Call (option str)
| CopySymlink (src dst : str) : Call (option str)
| CopyTree (src dst : str) : Call (option str)
(** The session coordinator's [LaunchOrFocus], which builds and focuses
    the multiplexer session of a working copy. *)
| LaunchOrFocus (repoRoot branch worktreePath : str) (attachOutside : bool)
  : Call (option str).

Inductive Prog (A : Type) : Type :=
| Ret (a : A)
| Do {X : Type} (c : Call X) (k : X -> Prog A).
Arguments Ret {A} a.
Arguments Do {A X} c k.

Fixpoint pbind {A B : Type} (p : Prog A) (f : A -> Prog B) : Prog B :=
  match p with
  | Ret a => f a
  | Do c k => Do c (fun x => pbind (k x) f)
  end.

Definition ret {A : Type} (a : A) : Prog A := Ret a.

Definition call {X : Type} (c : Call X) : Prog X := Do c Ret.

(** A call together with the answer it got. *)
Inductive Event : Type :=
| Ev {X : Type} (c : Call X) (answer : X).

(** A world of type [W] answers every call and moves on. *)
Definition World (W : Type) : Type := forall X : Type, Call X -> W -> X * W.

Fixpoint run {W A : Type} (world : World W) (p : Prog A) (w : W)
  : A * W * list Event :=
  match p with
  | Ret a => (a, w, [])
  | Do c k =>
      let '(x, w1) := world _ c w in
      let '(a, w2, tr) := run world (k x) w1 in
      (a, w2, Ev c x :: tr)
  end.

(** [for _, x := range l { ... }] leaving through [return] with an
    error. *)
Fixpoint forErr {A : Type} (f : A -> Prog (option str)) (l : list A)
  : Prog (option str) :=
  match l with
  | [] => Ret None
  | x :: xs =>
      pbind (f x) (fun e => match e with
                            | Some msg => Ret (Some msg)
                            | None => forErr f xs
                            end)
  end.

Fixpoint mapM {A B : Type} (f : A -> Prog B) (l : list A) : Prog (list B) :=
  match l with
  | [] => Ret []
  | x :: xs => pbind (f x) (fun y => pbind (mapM f xs) (fun ys => Ret (y :: ys)))
  end.

(** Is the event an invocation of [name] whose arguments start with
    [sub]? *)
Definition isExecOf (name : str) (sub : list str) (e : Event) : bool :=
  match e with
  | Ev (Exec _ _ n args) _ =>
      str_eqb n name
      && (if list_eq_dec (list_eq_dec ascii_dec)
               (firstn (length sub) args) sub then true else false)
  | Ev _ _ => false
  end.

End Sys.

Declare Scope prog_scope.
Delimit Scope prog_scope with prog.
Notation "x <- c1 ;; c2" := (Sys.pbind c1 (fun x => c2))
  (at level 61, c1 at next level, right associativity) : prog_scope.
Local Open Scope prog_scope.

(** ** The process runner *)

Module Runner.
Import Strings Lib Sys.

Definition truncated (out : str) : str :=
  let trimmed := TrimSpace out in
  if len trimmed >? 600 then slice_to 600 trimmed ++ lit "...(truncated)"
  else trimmed.

Definition withTail (msg trimmed : str) : str :=
  if str_eqb trimmed [] then msg else msg ++ lit ": " ++ trimmed.

(** The error of a failed command, as [runCmdBytesWithTimeout] words
    it.  The context has a deadline only when [timeout > 0]. *)
Definition cmdError (timeout : Z) (name : str) (args : list str)
           (r : ProcResult) (err : str) : str :=
  let trimmed := truncated (pr_out r) in
  let cmd := name ++ lit " " ++ Join args (lit " ") in
  if (0 <? timeout) && pr_deadline r then
    withTail (cmd ++ lit " timed out after " ++ durationString timeout)
             trimmed
  else withTail (cmd ++ lit " failed: " ++ err) trimmed.

(** [func runCmdBytesWithTimeout(dir string, timeout time.Duration,
    name string, args ...string) ([]byte, error)], without the lines
    that it appends to the debug log before and after the command. *)
Definition runCmdBytesWithTimeout (dir : str) (timeout : Z) (name : str)
           (args : list str) : Prog (result str) :=
  r <- call (Exec dir timeout name args) ;;
  match pr_err r with
  | Some err => ret (Err (cmdError timeout name args r err))
  | None => ret (Ok (pr_out r))
  end.

(** [func runCmdBytes(dir, name string, args ...string)] *)
Definition runCmdBytes (dir name : str) (args : list str)
  : Prog (result str) :=
  runCmdBytesWithTimeout dir 0 name args.

Definition isNewline (c : ascii) : bool := isb 10 c.

(** [func runCmdOutput(dir, name string, args ...string) (string, error)] *)
Definition runCmdOutput (dir name : str) (args : list str)
  : Prog (result str) :=
  r <- runCmdBytes dir name args ;;
  match r with
  | Err e => ret (Err e)
  | Ok out => ret (Ok (TrimRight out isNewline))
  end.

Definition errorOf {A : Type} (r : result A) : option str :=
  match r with
  | Err e => Some e
  | Ok _ => None
  end.

(** [func runCmdQuiet(dir, name string, args ...string) error] *)
Definition runCmdQuiet (dir name : str) (args : list str)
  : Prog (option str) :=
  r <- runCmdBytes dir name args ;; ret (errorOf r).

(** [func runCmdQuietTimeout(dir string, timeout time.Duration, ...)] *)
Definition runCmdQuietTimeout (dir : str) (timeout : Z) (name : str)
           (args : list str) : Prog (option str) :=
  r <- runCmdBytesWithTimeout dir timeout name args ;; ret (errorOf r).

(** [func commandExists(name string) bool] *)
Definition commandExists (name : str) : Prog bool := call (LookPath name).

End Runner.

(** ** The orchestrator *)

Module Manager.
Import Strings Lib Sys Runner Naming.

(** The fields of [Config] that the orchestrator reads.  [Config] has
    no field for copy-exclusion patterns. *)
Record Config : Type := {
  BaseBranch : str;
  WorktreeRootTemplate : str;
  SessionPrefix : str
}.

Record Manager : Type := { Cfg : Config }.

Record Worktree : Type := {
  Path : str;
  Branch : str;
  Current : bool;
  Dirty : bool;
  TmuxState : str;
  AgentState : str
}.

Record NewOptions : Type := {
  opt_Branch : str;
  opt_Type : str;
  opt_Name : str;
  opt_BaseBranch : str;
  opt_FromBranch : str;
  opt_Launch : bool
}.

Record RemoveOptions : Type := {
  rm_Target : str;
  rm_Force : bool;
  rm_DeleteBranch : bool
}.

Definition ErrNotGitRepo : str :=
  lit "run this command inside a git worktree".

(** ** Retry heuristics and the command timeout *)

Section Retry.
Variable unicodeLower : str -> str.

(** [func shouldRetryWorktreeAdd(err error) bool] *)
Definition shouldRetryWorktreeAdd (err : option str) : bool :=
  match err with
  | None => false
  | Some text =>
      let msg := ToLower unicodeLower text in
      if Contains msg (lit "timed out") then true
      else if Contains msg (lit "already checked out") then true
      else if Contains msg (lit "already exists") then true
      else if Contains msg (lit "already registered") then true
      else if Contains msg (lit "unable to create") then true
      else if Contains msg (lit "cannot lock") then true
      else false
  end.

(** [func shouldRetryWorktreeRemove(err error) bool] *)
Definition shouldRetryWorktreeRemove (err : option str) : bool :=
  match err with
  | None => false
  | Some text =>
      let msg := ToLower unicodeLower text in
      if Contains msg (lit "timed out") then true
      else if Contains msg (lit "is locked") then true
      else if Contains msg (lit "cannot remove") then true
      else if Contains msg (lit "cannot lock") then true
      else false
  end.
End Retry.

Definition timeoutEnv : str := lit "SPROUT_GIT_WORKTREE_TIMEOUT_SECONDS".

(** The value of [gitWorktreeCommandTimeout], in seconds, for the
    content [v] of the environment variable ([""] when it is unset). *)
Definition timeoutSeconds (v : str) : Z :=
  let defaultSeconds := 45 in
  let minSeconds := 5 in
  let maxSeconds := 600 in
  let raw := TrimSpace v in
  if str_eqb raw [] then defaultSeconds
  else
    match Strconv.Atoi raw with
    | None => defaultSeconds
    | Some seconds =>
        let seconds := if seconds <? minSeconds then minSeconds
                       else seconds in
        let seconds := if seconds >? maxSeconds then maxSeconds
                       else seconds in
        seconds
    end.

(** [func gitWorktreeCommandTimeout() time.Duration], in seconds. *)
Definition gitWorktreeCommandTimeout : Prog Z :=
  v <- call (Getenv timeoutEnv) ;;
  ret (timeoutSeconds v).

Section Add.
Variable unicodeLower : str -> str.

(** [func (m *Manager) runGitWorktreeAdd(repoRoot string,
    args ...string) error] *)
Definition runGitWorktreeAdd (repoRoot : str) (args : list str)
  : Prog (option str) :=
  let allArgs := [lit "worktree"; lit "add"] ++ args in
  timeout <- gitWorktreeCommandTimeout ;;
  e <- runCmdQuietTimeout repoRoot timeout (lit "git") allArgs ;;
  match e with
  | Some err =>
      if shouldRetryWorktreeAdd unicodeLower (Some err) then
        _ <- runCmdQuiet repoRoot (lit "git")
               [lit "worktree"; lit "prune"] ;;
        retryErr <- runCmdQuietTimeout repoRoot timeout (lit "git")
                      allArgs ;;
        match retryErr with
        | None => ret None
        | Some r => ret (Some r)
        end
      else ret (Some err)
  | None => ret None
  end.
End Add.

(** [func (m *Manager) runGitWorktreeRemove(repoRoot, worktreePath
    string, force bool) error] *)
Definition runGitWorktreeRemove (repoRoot worktreePath : str) (force : bool)
  : Prog (option str) :=
  let args := [lit "worktree"; lit "remove"] in
  let args := if force then args ++ [lit "--force"] else args in
  let args := args ++ [worktreePath] in
  timeout <- gitWorktreeCommandTimeout ;;
  runCmdQuietTimeout repoRoot timeout (lit "git") args.

(** ** The repository gateway *)

(** [func (m *Manager) RequireRepo() (string, error)] *)
Definition RequireRepo : Prog (result str) :=
  r <- runCmdOutput (lit "") (lit "git") [lit "rev-parse"; lit "--show-toplevel"] ;;
  match r with
  | Err _ => ret (Err ErrNotGitRepo)
  | Ok out => ret (Ok (TrimSpace out))
  end.

(** [func (m *Manager) RepoName(repoRoot string) string] *)
Definition RepoName (repoRoot : str) : Prog str :=
  r <- runCmdOutput repoRoot (lit "git")
         [lit "rev-parse"; lit "--path-format=absolute";
          lit "--git-common-dir"] ;;
  match r with
  | Ok out =>
      let commonDir := TrimSpace out in
      ret (filepath_Base (filepath_Dir commonDir))
  | Err _ => ret (filepath_Base repoRoot)
  end.

(** [func (m *Manager) CurrentBranch(repoRoot string) string] *)
Definition CurrentBranch (repoRoot : str) : Prog str :=
  r <- runCmdOutput repoRoot (lit "git")
         [lit "symbolic-ref"; lit "--quiet"; lit "--short"; lit "HEAD"] ;;
  match r with
  | Err _ => ret (lit "")
  | Ok out => ret (TrimSpace out)
  end.

(** [func (m *Manager) BranchExists(repoRoot, branch string) bool] *)
Definition showRefArgs (branch : str) : list str :=
  [lit "show-ref"; lit "--verify"; lit "--quiet";
   lit "refs/heads/" ++ branch].

Definition BranchExists (repoRoot branch : str) : Prog bool :=
  r <- runCmdOutput repoRoot (lit "git") (showRefArgs branch) ;;
  match r with
  | Err _ => ret false
  | Ok _ => ret true
  end.

(** [filepath.Abs(path)] *)
Definition filepath_Abs (path : str) : Prog (result str) :=
  if filepath_IsAbs path then ret (Ok (filepath_Clean path))
  else
    wd <- call Getwd ;;
    match wd with
    | Err e => ret (Err e)
    | Ok dir => ret (Ok (filepath_Join [dir; path]))
    end.

(** [func absPath(path string) string] *)
Definition absPath (path : str) : Prog str :=
  r <- filepath_Abs path ;;
  match r with
  | Err _ => ret path
  | Ok abs => ret (filepath_Clean abs)
  end.

Section WithManager.
Variable m : Manager.

(** [func (m *Manager) ResolveBaseBranch(repoRoot, requested string)
    (string, error)] *)
Definition ResolveBaseBranch (repoRoot requested : str)
  : Prog (result str) :=
  if negb (str_eqb requested []) then
    ok <- BranchExists repoRoot requested ;;
    if negb ok then ret (Err (lit "base branch not found: " ++ requested))
    else ret (Ok requested)
  else
    ok <- BranchExists repoRoot (BaseBranch (Cfg m)) ;;
    if ok then ret (Ok (BaseBranch (Cfg m)))
    else
      current <- CurrentBranch repoRoot ;;
      if str_eqb current [] then
        ret (Err (lit "unable to infer base branch (detached HEAD and '"
                  ++ BaseBranch (Cfg m) ++ lit "' missing)"))
      else ret (Ok current).

(** [func (m *Manager) WorktreeRootDir(repoRoot string) string] *)
Definition WorktreeRootDir (repoRoot : str) : Prog str :=
  repoName <- RepoName repoRoot ;;
  let expanded :=
    ReplaceAll (WorktreeRootTemplate (Cfg m)) (lit "{repo}") repoName in
  if filepath_IsAbs expanded then absPath expanded
  else absPath (filepath_Join [repoRoot; expanded]).

(** [func (m *Manager) tmuxSessionName(repoRoot string) string] *)
Definition tmuxSessionName (repoRoot : str) : Prog str :=
  repoName <- RepoName repoRoot ;;
  ret (tmuxSessionNameOf (SessionPrefix (Cfg m)) repoName).

(** [func (m *Manager) tmuxWorktreeSessionNameFrom(repoRoot, branch,
    worktreePath string) string] *)
Definition tmuxWorktreeSessionNameFrom (repoRoot branch worktreePath : str)
  : Prog str :=
  base <- tmuxSessionName repoRoot ;;
  ret (tmuxWorktreeSessionNameFromBase base branch worktreePath).
End WithManager.

(** [func (m *Manager) WorktreeDirty(path string) bool] *)
Definition statusArgs : list str :=
  [lit "status"; lit "--porcelain"; lit "--untracked-files=all"].

Definition WorktreeDirty (path : str) : Prog bool :=
  r <- runCmdOutput path (lit "git") statusArgs ;;
  match r with
  | Err _ => ret false
  | Ok out => ret (negb (str_eqb (TrimSpace out) []))
  end.

Definition bareWorktree (path branch : str) : Worktree :=
  {| Path := path; Branch := branch; Current := false; Dirty := false;
     TmuxState := lit ""; AgentState := lit "" |}.

Definition isCR (c : ascii) : bool := isb 13 c.

(** The closure [flush] of [parseWorktreeList]; the state is
    [(res, curPath, curBranch)]. *)
Definition flush (st : list Worktree * str * str)
  : list Worktree * str * str :=
  let '(res, curPath, curBranch) := st in
  ((if negb (str_eqb curPath []) then res ++ [bareWorktree curPath curBranch]
    else res), lit "", lit "").

Definition parseLine (st : list Worktree * str * str) (line : str)
  : list Worktree * str * str :=
  let line := TrimRight line isCR in
  if str_eqb (TrimSpace line) [] then flush st
  else
    let '(res, curPath, curBranch) := st in
    if HasPrefix line (lit "worktree ") then
      (res, TrimPrefix line (lit "worktree "), curBranch)
    else if HasPrefix line (lit "branch refs/heads/") then
      (res, curPath, TrimPrefix line (lit "branch refs/heads/"))
    else if HasPrefix line (lit "branch ") then
      (res, curPath, TrimPrefix line (lit "branch "))
    else st.

(** [func (m *Manager) parseWorktreeList(repoRoot string)
    ([]Worktree, error)] *)
Definition parseWorktreeList (repoRoot : str) : Prog (result (list Worktree)) :=
  r <- runCmdOutput repoRoot (lit "git")
         [lit "worktree"; lit "list"; lit "--porcelain"] ;;
  match r with
  | Err e => ret (Err e)
  | Ok out =>
      let st := fold_left parseLine (SplitByte (chr 10) out)
                  ([], lit "", lit "") in
      ret (Ok (fst (fst (flush st))))
  end.

(** [func worktreeBranchOrName(wt *Worktree) string] *)
Definition worktreeBranchOrName (wt : Worktree) : str :=
  if str_eqb (Branch wt) [] then filepath_Base (Path wt) else Branch wt.

(** [func (m *Manager) tmuxAgentWindowName(branch string) string] *)
Definition tmuxAgentWindowName (branch : str) : str :=
  let name := lit "agent-" ++ safeName branch in
  if len name >? 60 then slice_to 60 name else name.

(** [func (m *Manager) tmuxHasSession(session string) bool] *)
Definition tmuxHasSession (session : str) : Prog bool :=
  r <- runCmdOutput (lit "") (lit "tmux")
         [lit "has-session"; lit "-t"; session] ;;
  ret (match r with Ok _ => true | Err _ => false end).

(** [func (m *Manager) tmuxWindowExists(session, window string) bool] *)
Definition tmuxWindowExists (session window : str) : Prog bool :=
  r <- runCmdOutput (lit "") (lit "tmux")
         [lit "has-session"; lit "-t"; session ++ lit ":" ++ window] ;;
  ret (match r with Ok _ => true | Err _ => false end).

Section Listing.
Variable m : Manager.
(** [sort.SliceStable], whose algorithm belongs to the standard
    library. *)
Variable sortSliceStable :
  (Worktree -> Worktree -> bool) -> list Worktree -> list Worktree.

(** [func (m *Manager) tmuxWorktreeSessionName(repoRoot string,
    wt *Worktree) string] for a non-nil [wt]. *)
Definition tmuxWorktreeSessionName (repoRoot : str) (wt : Worktree)
  : Prog str :=
  let branch := worktreeBranchOrName wt in
  tmuxWorktreeSessionNameFrom m repoRoot branch (Path wt).

(** The body of the loop of [ListWorktrees]. *)
Definition describeWorktree (repoRoot current : str) (hasTmux : bool)
           (item : Worktree) : Prog Worktree :=
  path <- absPath (Path item) ;;
  dirty <- WorktreeDirty path ;;
  let item := {| Path := path; Branch := Branch item;
                 Current := str_eqb path current; Dirty := dirty;
                 TmuxState := lit "n/a"; AgentState := lit "n/a" |} in
  if negb hasTmux then ret item
  else
    let item := {| Path := Path item; Branch := Branch item;
                   Current := Current item; Dirty := Dirty item;
                   TmuxState := lit "no"; AgentState := lit "no" |} in
    session <- tmuxWorktreeSessionName repoRoot item ;;
    alive <- tmuxHasSession session ;;
    if alive then
      let agentWindow := tmuxAgentWindowName (worktreeBranchOrName item) in
      agent <- tmuxWindowExists session agentWindow ;;
      ret {| Path := Path item; Branch := Branch item;
             Current := Current item; Dirty := Dirty item;
             TmuxState := lit "yes";
             AgentState := if agent then lit "yes" else lit "no" |}
    else ret item.

(** The comparison handed to [sort.SliceStable]. *)
Definition currentFirst (a b : Worktree) : bool :=
  if Current a then true
  else if Current b then false
  else str_ltb (Path a) (Path b).

(** [func (m *Manager) ListWorktrees() ([]Worktree, error)] *)
Definition ListWorktrees : Prog (result (list Worktree)) :=
  r <- RequireRepo ;;
  match r with
  | Err e => ret (Err e)
  | Ok repoRoot =>
      l <- parseWorktreeList repoRoot ;;
      match l with
      | Err e => ret (Err e)
      | Ok items =>
          current <- absPath repoRoot ;;
          hasTmux <- commandExists (lit "tmux") ;;
          items <- mapM (describeWorktree repoRoot current hasTmux) items ;;
          ret (Ok (sortSliceStable currentFirst items))
      end
  end.

Definition matchesTarget (target targetAbs : str) (item : Worktree) : bool :=
  str_eqb target (Branch item) || str_eqb target (Path item)
  || str_eqb targetAbs (Path item)
  || str_eqb target (filepath_Base (Path item)).

(** [func (m *Manager) FindWorktree(target string) ( *Worktree, error)] *)
Definition FindWorktree (target : str) : Prog (result Worktree) :=
  l <- ListWorktrees ;;
  match l with
  | Err e => ret (Err e)
  | Ok items =>
      st <- call (Stat target) ;;
      targetAbs <- match st with
                   | StatOk true => absPath target
                   | _ => ret (lit "")
                   end ;;
      match find (matchesTarget target targetAbs) items with
      | Some wt => ret (Ok wt)
      | None => ret (Err (lit "worktree not found for target: " ++ target))
      end
  end.

(** [func (m *Manager) BranchCheckedOutAnywhere(branch string) bool] *)
Definition BranchCheckedOutAnywhere (branch : str) : Prog bool :=
  l <- ListWorktrees ;;
  match l with
  | Err _ => ret false
  | Ok items => ret (existsb (fun item => str_eqb (Branch item) branch) items)
  end.
End Listing.

(** ** Creating working copies *)

Section Create.
Variable unicodeLower : str -> str.
Variable m : Manager.

(** [func (m *Manager) CreateWorktreeWithBranch(repoRoot, branch,
    worktreePath, baseBranch string) error] *)
Definition CreateWorktreeWithBranch
           (repoRoot branch worktreePath baseBranch : str)
  : Prog (option str) :=
  exists_ <- BranchExists repoRoot branch ;;
  if exists_ then ret (Some (lit "branch already exists: " ++ branch))
  else
    st <- call (Stat worktreePath) ;;
    match st with
    | StatOk _ =>
        ret (Some (lit "target path already exists: " ++ worktreePath))
    | StatFail err => ret (Some err)
    | StatNotExist _ =>
        e <- call (MkdirAll (filepath_Dir worktreePath) 493) ;;
        match e with
        | Some err => ret (Some err)
        | None =>
            runGitWorktreeAdd unicodeLower repoRoot
              [lit "-b"; branch; worktreePath; baseBranch]
        end
    end.

(** [func (m *Manager) CreateWorktreeFromExisting(repoRoot, branch,
    worktreePath string) error] *)
Definition CreateWorktreeFromExisting (repoRoot branch worktreePath : str)
  : Prog (option str) :=
  st <- call (Stat worktreePath) ;;
  match st with
  | StatOk _ =>
      ret (Some (lit "target path already exists: " ++ worktreePath))
  | StatFail err => ret (Some err)
  | StatNotExist _ =>
      e <- call (MkdirAll (filepath_Dir worktreePath) 493) ;;
      match e with
      | Some err => ret (Some err)
      | None =>
          local <- BranchExists repoRoot branch ;;
          if local then
            runGitWorktreeAdd unicodeLower repoRoot [worktreePath; branch]
          else
            runGitWorktreeAdd unicodeLower repoRoot [worktreePath; branch]
      end
  end.

(** The body of the loop of [collectCopyCandidates]: the path a
    record contributes to the set, if any. *)
Definition candidateOf (rec : str) : option str :=
  if len rec <? 3 then None
  else if HasPrefix rec (lit "? ") || HasPrefix rec (lit "! ") then
    let p := TrimSpace (skipn 2 rec) in
    let p := TrimSuffix p (lit "/") in
    if str_eqb p [] then None
    else if str_eqb p (lit ".git") || HasPrefix p (lit ".git/") then None
    else Some p
  else None.

Definition candidatesOf (out : str) : list str :=
  sortedSet
    (flat_map (fun rec => match candidateOf rec with
                          | Some p => [p]
                          | None => []
                          end)
              (SplitByte (chr 0) out)).

(** [func (m *Manager) collectCopyCandidates(sourceRoot string)
    ([]string, error)] *)
Definition collectCopyCandidates (sourceRoot : str)
  : Prog (result (list str)) :=
  r <- runCmdBytes sourceRoot (lit "git")
         [lit "status"; lit "--porcelain=v2"; lit "-z";
          lit "--untracked-files=all"; lit "--ignored=matching"] ;;
  match r with
  | Err e => ret (Err e)
  | Ok out => ret (Ok (candidatesOf out))
  end.

(** [func copyPath(src, dst string) error] *)
Definition copyPath (src dst : str) : Prog (option str) :=
  info <- call (Lstat src) ;;
  match info with
  | LstatNotExist err | LstatFail err => ret (Some err)
  | LstatOk KSymlink _ => call (CopySymlink src dst)
  | LstatOk KDir perm =>
      e <- call (MkdirAll dst perm) ;;
      match e with
      | Some err => ret (Some err)
      | None => call (CopyTree src dst)
      end
  | LstatOk KFile _ => call (CopyFile src dst)
  end.

(** The body of the loop of [CopyUntrackedAndIgnored]. *)
Definition copyCandidate (sourceRoot targetRoot rel : str)
  : Prog (option str) :=
  let src := filepath_Join [sourceRoot; rel] in
  let dst := filepath_Join [targetRoot; rel] in
  info <- call (Lstat src) ;;
  match info with
  | LstatNotExist _ => ret None
  | LstatFail err => ret (Some err)
  | LstatOk _ _ =>
      e <- copyPath src dst ;;
      match e with
      | Some err => ret (Some (lit "copy " ++ rel ++ lit ": " ++ err))
      | None => ret None
      end
  end.

(** [func (m *Manager) CopyUntrackedAndIgnored(sourceRoot,
    targetRoot string) error] *)
Definition CopyUntrackedAndIgnored (sourceRoot targetRoot : str)
  : Prog (option str) :=
  r <- collectCopyCandidates sourceRoot ;;
  match r with
  | Err e => ret (Some e)
  | Ok candidates => forErr (copyCandidate sourceRoot targetRoot) candidates
  end.

(** [func (m *Manager) NewWorktree(opts NewOptions)
    (string, string, error)], without the lines that it appends to the
    debug log between its steps. *)
Definition NewWorktree (opts : NewOptions) : Prog (result (str * str)) :=
  r <- RequireRepo ;;
  match r with
  | Err e => ret (Err e)
  | Ok repoRoot =>
      let branch := TrimSpace (opt_Branch opts) in
      let isExisting := negb (str_eqb (opt_FromBranch opts) []) in
      let branch := if isExisting then opt_FromBranch opts else branch in
      let named :=
        if str_eqb branch [] then
          MakeBranchName unicodeLower (opt_Type opts) (opt_Name opts)
        else Ok branch in
      match named with
      | Err e => ret (Err e)
      | Ok branch =>
          worktreeRoot <- WorktreeRootDir m repoRoot ;;
          worktreePath <- absPath (filepath_Join [worktreeRoot; branch]) ;;
          created <-
            (if isExisting then
               CreateWorktreeFromExisting repoRoot branch worktreePath
             else
               b <- ResolveBaseBranch m repoRoot (opt_BaseBranch opts) ;;
               match b with
               | Err e => ret (Some e)
               | Ok base =>
                   CreateWorktreeWithBranch repoRoot branch worktreePath
                                            base
               end) ;;
          match created with
          | Some e => ret (Err e)
          | None =>
              copied <- CopyUntrackedAndIgnored repoRoot worktreePath ;;
              match copied with
              | Some e => ret (Err e)
              | None =>
                  launched <-
                    (if opt_Launch opts then
                       call (LaunchOrFocus repoRoot branch worktreePath
                                           true)
                     else ret None) ;;
                  match launched with
                  | Some e => ret (Err e)
                  | None => ret (Ok (branch, worktreePath))
                  end
              end
          end
      end
  end.
End Create.

(** ** Removing a working copy *)

Section Remove.
Variable unicodeLower : str -> str.
Variable m : Manager.
Variable sortSliceStable :
  (Worktree -> Worktree -> bool) -> list Worktree -> list Worktree.

Definition dirtyError (path : str) : str :=
  lit "worktree has uncommitted changes: " ++ path
  ++ lit " (use --force to override)".

Definition killSession (session : str) : Prog (option str) :=
  runCmdQuiet (lit "") (lit "tmux") [lit "kill-session"; lit "-t"; session].

(** The blocks of [Remove], in the order of its body.  First: stop the
    multiplexer session of the working copy, if there is one.  The
    result is the session name ([""] without [tmux]) and the warnings
    so far. *)
Definition stopSession (repoRoot : str) (wt : Worktree)
  : Prog (str * list str) :=
  hasTmux <- commandExists (lit "tmux") ;;
  if hasTmux then
    session <- tmuxWorktreeSessionName m repoRoot wt ;;
    alive <- tmuxHasSession session ;;
    if alive then
      e <- killSession session ;;
      match e with
      | Some err =>
          ret (session,
               [lit "unable to stop tmux session " ++ session
                ++ lit " before removal: " ++ err])
      | None => ret (session, [])
      end
    else ret (session, [])
  else ret (lit "", []).

(** Second: [git worktree remove], tried again once after a prune
    when the error asks for it. *)
Definition removeWithRetry (repoRoot : str) (wt : Worktree) (force : bool)
           (session : str) (warnings : list str)
  : Prog (list str * option str) :=
  e <- runGitWorktreeRemove repoRoot (Path wt) force ;;
  match e with
  | None => ret (warnings, None)
  | Some err =>
      if shouldRetryWorktreeRemove unicodeLower (Some err) then
        _ <- runCmdQuiet repoRoot (lit "git")
               [lit "worktree"; lit "prune"] ;;
        _ <- (if negb (str_eqb session []) then
                alive <- tmuxHasSession session ;;
                if alive then
                  _ <- killSession session ;; ret tt
                else ret tt
              else ret tt) ;;
        retryErr <- runGitWorktreeRemove repoRoot (Path wt) force ;;
        match retryErr with
        | None =>
            ret (warnings
                 ++ [lit "worktree removal required a retry after cleanup"],
                 None)
        | Some re => ret (warnings, Some re)
        end
      else ret (warnings, Some err)
  end.

(** Third: delete the branch when asked to and nothing else has it
    checked out. *)
Definition deleteBranch (repoRoot : str) (wt : Worktree)
           (opts : RemoveOptions) (warnings : list str)
  : Prog (str * list str * option str) :=
  if rm_DeleteBranch opts && negb (str_eqb (Branch wt) []) then
    inUse <- BranchCheckedOutAnywhere m sortSliceStable (Branch wt) ;;
    if inUse then
      ret (Path wt,
           warnings
           ++ [lit "branch still checked out in another worktree, not deleting: "
               ++ Branch wt],
           None)
    else
      let flag := if rm_Force opts then lit "-D" else lit "-d" in
      e <- runCmdQuiet repoRoot (lit "git")
             [lit "branch"; flag; Branch wt] ;;
      match e with
      | Some err => ret (lit "", warnings, Some err)
      | None => ret (Path wt, warnings, None)
      end
  else ret (Path wt, warnings, None).

(** What [Remove] does once the working copy is known not to be
    refused as dirty. *)
Definition removeClean (repoRoot : str) (wt : Worktree)
           (opts : RemoveOptions) : Prog (str * list str * option str) :=
  sw <- stopSession repoRoot wt ;;
  removed <- removeWithRetry repoRoot wt (rm_Force opts) (fst sw) (snd sw) ;;
  match snd removed with
  | Some err => ret (lit "", fst removed, Some err)
  | None => deleteBranch repoRoot wt opts (fst removed)
  end.

(** [func (m *Manager) Remove(opts RemoveOptions)
    (string, []string, error)] *)
Definition Remove (opts : RemoveOptions)
  : Prog (str * list str * option str) :=
  r <- RequireRepo ;;
  match r with
  | Err e => ret (lit "", [], Some e)
  | Ok repoRoot =>
      f <- FindWorktree m sortSliceStable (rm_Target opts) ;;
      match f with
      | Err e => ret (lit "", [], Some e)
      | Ok wt =>
          dirty <- (if negb (rm_Force opts) then WorktreeDirty (Path wt)
                    else ret false) ;;
          if dirty then ret (lit "", [], Some (dirtyError (Path wt)))
          else removeClean repoRoot wt opts
      end
  end.
End Remove.

(** ** Capturing a pane *)

Section Capture.
(** [overlayCursorInANSILine] lays the cursor glyph over a row; it
    measures cells with the [go-runewidth] tables and is a parameter
    here. *)
Variable overlayCursorInANSILine : str -> Z -> str.

Record PaneMeta : Type := {
  cursorFlag : str;
  cursorX : Z;
  cursorY : Z;
  paneHeight : Z
}.

(** The cursor and height that [tmuxCapturePaneWithCursor] works with,
    given the requested line count and the answer of
    [tmux display-message]. *)
Definition paneMeta (lines : Z) (meta : result str) : PaneMeta :=
  let fallback := {| cursorFlag := lit "0"; cursorX := 0; cursorY := 0;
                     paneHeight := if lines <=? 0 then 120 else lines |} in
  match meta with
  | Err _ => fallback
  | Ok text =>
      match Fields (TrimSpace text) with
      | [p0; p1; p2; p3] =>
          match Strconv.Atoi p1, Strconv.Atoi p2, Strconv.Atoi p3 with
          | Some px, Some py, Some ph =>
              if 0 <? ph then
                {| cursorFlag := p0; cursorX := px; cursorY := py;
                   paneHeight := ph |}
              else fallback
          | _, _, _ => fallback
          end
      | _ => fallback
      end
  end.

(** The number of lines asked of [tmux capture-pane -S]. *)
Definition captureStart (lines : Z) (pm : PaneMeta) : Z :=
  let lines := if lines <=? 0 then paneHeight pm else lines in
  if lines <? paneHeight pm then paneHeight pm else lines.

Fixpoint setRow (n : nat) (f : str -> str) (rows : list str) : list str :=
  match rows, n with
  | [], _ => []
  | r :: rs, O => f r :: rs
  | r :: rs, S k => r :: setRow k f rs
  end.

Definition captureRows (out : str) : list str :=
  let rows := SplitByte (chr 10) out in
  let rows := match rev rows with
              | last :: front => if str_eqb last [] then rev front else rows
              | [] => rows
              end in
  match rows with
  | [] => [lit ""]
  | _ => rows
  end.

Definition overlayRows (pm : PaneMeta) (rows : list str) : str :=
  let text := Join rows (lit (String (chr 10) EmptyString)) in
  if negb (str_eqb (cursorFlag pm) (lit "1")) then text
  else
    let screenStart := Z.of_nat (length rows) - paneHeight pm in
    let screenStart := if screenStart <? 0 then 0 else screenStart in
    let targetRow := screenStart + cursorY pm in
    if (targetRow <? 0) || (targetRow >=? Z.of_nat (length rows)) then text
    else
      let cx := if cursorX pm <? 0 then 0 else cursorX pm in
      Join (setRow (Z.to_nat targetRow)
                   (fun row => overlayCursorInANSILine row cx) rows)
           (lit (String (chr 10) EmptyString)).

Definition displayArgs (paneTarget : str) : list str :=
  [lit "display-message"; lit "-p"; lit "-t"; paneTarget;
   lit "#{cursor_flag} #{cursor_x} #{cursor_y} #{pane_height}"].

Definition captureArgs (paneTarget : str) (lines : Z) : list str :=
  [lit "capture-pane"; lit "-p"; lit "-N"; lit "-e"; lit "-t"; paneTarget;
   lit "-S"; lit "-" ++ Strconv.Itoa lines].

(** [func tmuxCapturePaneWithCursor(paneTarget string, lines int)
    (string, error)] *)
Definition tmuxCapturePaneWithCursor (paneTarget : str) (lines : Z)
  : Prog (result str) :=
  meta <- runCmdOutput (lit "") (lit "tmux") (displayArgs paneTarget) ;;
  let pm := paneMeta lines meta in
  let lines := captureStart lines pm in
  r <- runCmdOutput (lit "") (lit "tmux") (captureArgs paneTarget lines) ;;
  match r with
  | Err e => ret (Err e)
  | Ok out => ret (Ok (overlayRows pm (captureRows out)))
  end.
End Capture.

End Manager.

(** ** Regular expressions on bytes *)

Module Re.

Inductive re : Type :=
| Void
| Eps
| Byte (p : ascii -> bool)
| Cat (a b : re)
| Alt (a b : re)
| Star (a : re).

Fixpoint nullable (r : re) : bool :=
  match r with
  | Void => false
  | Eps => true
  | Byte _ => false
  | Cat a b => nullable a && nullable b
  | Alt a b => nullable a || nullable b
  | Star _ => true
  end.

(** The Brzozowski derivative of [r] by the byte [c]. *)
Fixpoint deriv (c : ascii) (r : re) : re :=
  match r with
  | Void => Void
  | Eps => Void
  | Byte p => if p c then Eps else Void
  | Cat a b =>
      if nullable a then Alt (Cat (deriv c a) b) (deriv c b)
      else Cat (deriv c a) b
  | Alt a b => Alt (deriv c a) (deriv c b)
  | Star a => Cat (deriv c a) (Star a)
  end.

(** Does [r] match the whole of [s]?  For a pattern of the shape
    [^...$] this is [MatchString]. *)
Definition matches (r : re) (s : str) : bool :=
  nullable (fold_left (fun r c => deriv c r) s r).

Fixpoint Lit (s : str) : re :=
  match s with
  | [] => Eps
  | c :: cs => Cat (Byte (fun d => if ascii_dec d c then true else false))
                   (Lit cs)
  end.

Fixpoint AltOf (l : list re) : re :=
  match l with
  | [] => Void
  | [r] => r
  | r :: rs => Alt r (AltOf rs)
  end.

Definition Plus (r : re) : re := Cat r (Star r).

(** [\s] is [[\t\n\f\r ]]. *)
Definition space : re :=
  Byte (fun c => isb 9 c || isb 10 c || isb 12 c || isb 13 c || isb 32 c).

(** [.] is any rune but the newline.  A byte of a multi-byte or invalid
    rune is never [0x0A], so [.*] is any run of bytes other than
    [0x0A]. *)
Definition dot : re := Byte (fun c => negb (isb 10 c)).

End Re.

(** ** The dashboard's agent status *)

Module UI.
Import Strings Lib.

(** The state of the scanner of [stripANSI]: copying text, just after an
    [ESC], inside a CSI sequence, inside an OSC sequence. *)
Inductive mode : Type := Text | Escape | CSI | OSC.

(** [func stripANSI(input string) string] *)
Fixpoint stripFrom (st : mode) (input : str) : str :=
  match input with
  | [] => []
  | c :: rest =>
      match st with
      | Text => if isb 27 c then stripFrom Escape rest
                else c :: stripFrom Text rest
      | Escape => if isb 91 c then stripFrom CSI rest
                  else if isb 93 c then stripFrom OSC rest
                  else stripFrom Text rest
      | CSI => if between 64 126 c then stripFrom Text rest
               else stripFrom CSI rest
      | OSC =>
          if isb 7 c then stripFrom Text rest
          else if isb 27 c then
            match rest with
            | d :: rest' => if isb 92 d then stripFrom Text rest'
                            else stripFrom OSC rest
            | [] => stripFrom OSC rest
            end
          else stripFrom OSC rest
      end
  end.

Definition stripANSI (input : str) : str := stripFrom Text input.

(** The prompts [>], [>>], [>>>], [$], [#], [:], and U+203A, U+276F,
    U+279C in UTF-8. *)
Definition prompts : list str :=
  [lit ">"; lit ">>"; lit ">>>"; lit "$"; lit "#"; lit ":";
   bytes [226; 128; 186]; bytes [226; 157; 175]; bytes [226; 158; 156]].

Definition prompt : Re.re := Re.AltOf (map Re.Lit prompts).

(** [agentPromptOnlyRe = `^(>|>>|>>>|\$|#|:|...)\s*$`] *)
Definition agentPromptOnlyRe : Re.re := Re.Cat prompt (Re.Star Re.space).

(** [agentPromptInputRe = `^(>|>>|>>>|\$|#|:|...)\s+.*$`] *)
Definition agentPromptInputRe : Re.re :=
  Re.Cat prompt (Re.Cat (Re.Plus Re.space) (Re.Star Re.dot)).

(** The cursor glyph U+2588 in UTF-8. *)
Definition block : str := bytes [226; 150; 136].

Section Ready.
Variable unicodeLower : str -> str.

(** The tests that [agentReadyForInstruction] applies to one trimmed,
    non-empty line. *)
Definition lineReady (line : str) : bool :=
  let lower := ToLower unicodeLower line in
  if Contains lower (lit "for shortcuts")
     || Contains lower (lit "context left") then true
  else if Re.matches agentPromptOnlyRe line then true
  else if Contains line block && Re.matches agentPromptInputRe line
  then true
  else if Contains lower (lit "awaiting your input")
          || Contains lower (lit "waiting for your input")
          || Contains lower (lit "ready for your next instruction")
          || Contains lower (lit "what would you like to do next")
          || Contains lower (lit "enter your prompt") then true
  else false.

(** The loop of [agentReadyForInstruction], over the lines from the
    last one backwards; [seen] counts the non-empty lines met. *)
Fixpoint readyLoop (seen : Z) (backwards : list str) : bool :=
  match backwards with
  | [] => false
  | l :: rest =>
      if seen <? 12 then
        let line := TrimSpace l in
        if str_eqb line [] then readyLoop seen rest
        else if lineReady line then true
        else readyLoop (seen + 1) rest
      else false
  end.

(** [func agentReadyForInstruction(output string) bool] *)
Definition agentReadyForInstruction (output : str) : bool :=
  let plain := stripANSI output in
  let lines := SplitByte (chr 10)
                         (ReplaceAllByte plain (chr 13) (chr 10)) in
  readyLoop 0 (rev lines).
End Ready.

End UI.

(** ** A small world to run the program in

    A repository at [root] with its branches, its working copies and the
    files on disk, answering the calls of the program the way [git] and
    the file system would in the situations the examples need.  There is
    no [tmux] in this world. *)

Module Sim.
Import Strings Lib Sys.

Record state : Type := {
  root : str;
  branches : list str;
  worktrees : list (str * str);
  files : list (str * FileKind);
  untracked : str;
  statusFails : bool;
  env : list (str * str)
}.

Definition strs_eqb (a b : list str) : bool :=
  if list_eq_dec (list_eq_dec ascii_dec) a b then true else false.

Definition starts (args pre : list str) : bool :=
  strs_eqb (firstn (length pre) args) pre.

Definition mem (x : str) (l : list str) : bool := existsb (str_eqb x) l.

Fixpoint lookup {A : Type} (k : str) (l : list (str * A)) : option A :=
  match l with
  | [] => None
  | (k', v) :: rest => if str_eqb k k' then Some v else lookup k rest
  end.

Definition nl : str := [chr 10].

Definition ok (out : str) : ProcResult :=
  {| pr_out := out; pr_err := None; pr_deadline := false |}.

Definition failed (out : str) : ProcResult :=
  {| pr_out := out; pr_err := Some (lit "exit status 128");
     pr_deadline := false |}.

Definition addWorktree (path branch : str) (s : state) : state :=
  {| root := root s;
     branches := if mem branch (branches s) then branches s
                 else branches s ++ [branch];
     worktrees := worktrees s ++ [(path, branch)];
     files := files s ++ [(path, KDir)];
     untracked := untracked s; statusFails := statusFails s;
     env := env s |}.

Definition dropWorktree (path : str) (s : state) : state :=
  {| root := root s; branches := branches s;
     worktrees := filter (fun w => negb (str_eqb (fst w) path)) (worktrees s);
     files := filter (fun f => negb (str_eqb (fst f) path)) (files s);
     untracked := untracked s; statusFails := statusFails s;
     env := env s |}.

Definition addFile (path : str) (kind : FileKind) (s : state) : state :=
  {| root := root s; branches := branches s; worktrees := worktrees s;
     files := match lookup path (files s) with
              | Some _ => files s
              | None => files s ++ [(path, kind)]
              end;
     untracked := untracked s; statusFails := statusFails s;
     env := env s |}.

Definition porcelain (s : state) : str :=
  flat_map (fun w => lit "worktree " ++ fst w ++ nl
                     ++ lit "HEAD 0000000" ++ nl
                     ++ lit "branch refs/heads/" ++ snd w ++ nl ++ nl)
           (worktrees s).

Definition checkedOutAt (branch : str) (s : state) : option str :=
  match find (fun w => str_eqb (snd w) branch) (worktrees s) with
  | Some w => Some (fst w)
  | None => None
  end.

Definition git (args : list str) (s : state) : ProcResult * state :=
  match args with
  | [a; b] =>
      if strs_eqb args [lit "rev-parse"; lit "--show-toplevel"]
      then (ok (root s ++ nl), s)
      else if strs_eqb args [lit "worktree"; lit "prune"] then (ok [], s)
      else (failed [], s)
  | [a; b; c] =>
      if strs_eqb args [lit "rev-parse"; lit "--path-format=absolute";
                        lit "--git-common-dir"]
      then (ok (root s ++ lit "/.git" ++ nl), s)
      else if strs_eqb args [lit "worktree"; lit "list"; lit "--porcelain"]
      then (ok (porcelain s), s)
      else if strs_eqb args [lit "status"; lit "--porcelain";
                             lit "--untracked-files=all"]
      then (if statusFails s
            then (failed (lit "fatal: not a git repository"), s)
            else (ok [], s))
      else if starts args [lit "worktree"; lit "remove"]
      then (ok [], dropWorktree c s)
      else if starts args [lit "branch"] then (ok [], s)
      else (failed [], s)
  | [a; b; c; d] =>
      if starts args [lit "show-ref"] then
        (if mem (TrimPrefix d (lit "refs/heads/")) (branches s)
         then (ok [], s) else (failed [], s))
      else if starts args [lit "worktree"; lit "add"] then
        match checkedOutAt d s with
        | Some p =>
            (failed (lit "fatal: '" ++ d ++ lit "' is already checked out at '"
                     ++ p ++ lit "'"), s)
        | None => (ok [], addWorktree c d s)
        end
      else if starts args [lit "worktree"; lit "remove"; lit "--force"]
      then (ok [], dropWorktree d s)
      else if starts args [lit "symbolic-ref"]
      then (if mem (lit "main") (branches s) then (ok (lit "main" ++ nl), s)
            else (failed [], s))
      else (failed [], s)
  | [a; b; c; d; e] =>
      if starts args [lit "status"; lit "--porcelain=v2"]
      then (ok (untracked s), s)
      else (failed [], s)
  | [a; b; c; d; e; f] =>
      if starts args [lit "worktree"; lit "add"; lit "-b"]
      then (ok [], addWorktree e d s)
      else (failed [], s)
  | _ => (failed [], s)
  end.

Definition world : World state :=
  fun X c =>
    match c in Call X return state -> X * state with
    | Exec dir timeout name args =>
        fun s => if str_eqb name (lit "git") then git args s
                 else (failed [], s)
    | Stat path =>
        fun s => (match lookup path (files s) with
                  | Some KDir => StatOk true
                  | Some _ => StatOk false
                  | None => StatNotExist (lit "no such file or directory")
                  end, s)
    | Lstat path =>
        fun s => (match lookup path (files s) with
                  | Some k => LstatOk k 420
                  | None => LstatNotExist (lit "no such file or directory")
                  end, s)
    | MkdirAll path perm => fun s => (None, addFile path KDir s)
    | Getenv key =>
        fun s => (match lookup key (env s) with
                  | Some v => v
                  | None => []
                  end, s)
    | Getwd => fun s => (Ok (root s), s)
    | LookPath file => fun s => (str_eqb file (lit "git"), s)
    | CopyFile src dst => fun s => (None, addFile dst KFile s)
    | CopySymlink src dst => fun s => (None, addFile dst KSymlink s)
    | CopyTree src dst => fun s => (None, addFile dst KDir s)
    | LaunchOrFocus _ _ _ _ =>
        fun s => (Some (lit "tmux is required for launch/go workflows"), s)
    end.

(** Go's stable sort of at most twenty elements is an insertion sort. *)
Fixpoint insertBy {A : Type} (less : A -> A -> bool) (x : A) (l : list A)
  : list A :=
  match l with
  | [] => [x]
  | y :: ys => if less x y then x :: l else y :: insertBy less x ys
  end.

Definition insertionSort {A : Type} (less : A -> A -> bool) (l : list A)
  : list A :=
  fold_right (fun x acc => insertBy less x acc) [] l.

(** The repository [/r/repo] on branch [main], with a branch
    [shared] that has no working copy yet. *)
Definition fresh : state :=
  {| root := lit "/r/repo";
     branches := [lit "main"; lit "shared"];
     worktrees := [(lit "/r/repo", lit "main")];
     files := [(lit "/r/repo", KDir)];
     untracked := [];
     statusFails := false;
     env := [] |}.

Definition manager : Manager.Manager :=
  {| Manager.Cfg :=
       {| Manager.BaseBranch := lit "main";
          Manager.WorktreeRootTemplate := lit "../{repo}.worktrees";
          Manager.SessionPrefix := lit "sprout" |} |}.

End Sim.

(** ** The situations of the examples *)

Module Cases.
Import Manager.

(** [NewOptions{FromBranch: "shared"}] *)
Definition fromShared : NewOptions :=
  {| opt_Branch := lit ""; opt_Type := lit ""; opt_Name := lit "";
     opt_BaseBranch := lit ""; opt_FromBranch := lit "shared";
     opt_Launch := false |}.

(** [NewOptions{FromBranch: "feature/existing"}] *)
Definition fromFeatureExisting : NewOptions :=
  {| opt_Branch := lit ""; opt_Type := lit ""; opt_Name := lit "";
     opt_BaseBranch := lit ""; opt_FromBranch := lit "feature/existing";
     opt_Launch := false |}.

(** The repository of [TestNewWorktreeFromExistingReturnsExistingWorktreePath]:
    the branch [feature/existing] is checked out in a working copy at
    [/r/existing-worktree]. *)
Definition withExistingWorktree : Sim.state :=
  {| Sim.root := lit "/r/repo";
     Sim.branches := [lit "main"; lit "feature/existing"];
     Sim.worktrees := [(lit "/r/repo", lit "main");
                       (lit "/r/existing-worktree", lit "feature/existing")];
     Sim.files := [(lit "/r/repo", Sys.KDir);
                   (lit "/r/existing-worktree", Sys.KDir)];
     Sim.untracked := [];
     Sim.statusFails := false;
     Sim.env := [] |}.



(** The repository with a working copy of [shared] in which
    [git status] fails. *)
Definition withBrokenStatus : Sim.state :=
  {| Sim.root := lit "/r/repo";
     Sim.branches := [lit "main"; lit "shared"];
     Sim.worktrees := [(lit "/r/repo", lit "main");
                       (lit "/r/repo.worktrees/shared", lit "shared")];
     Sim.files := [(lit "/r/repo", Sys.KDir);
                   (lit "/r/repo.worktrees/shared", Sys.KDir)];
     Sim.untracked := [];
     Sim.statusFails := true;
     Sim.env := [] |}.

(** [RemoveOptions{Target: "shared"}] *)
Definition removeShared : RemoveOptions :=
  {| rm_Target := lit "shared"; rm_Force := false;
     rm_DeleteBranch := false |}.

(** The outcome and the final world of a run, without its trace. *)
Definition outcome {W A : Type} (r : A * W * list Sys.Event) : A :=
  fst (fst r).
Definition after {W A : Type} (r : A * W * list Sys.Event) : W :=
  snd (fst r).

End Cases.

(** ** The specification's words *)

Module Spec.
Import Strings.

(** The substrings that the specification documents for the retry of
    [git worktree add], and of [git worktree remove]. *)
Definition addMarkersAsDocumented : list str :=
  [lit "timeout"; lit "already checked out"; lit "already exists";
   lit "already registered"; lit "cannot lock"; lit "cannot create"].

Definition removeMarkersAsDocumented : list str :=
  [lit "timeout"; lit "is locked"; lit "cannot remove"; lit "cannot lock"].

(** The substrings that the retry heuristics look for. *)
Definition addMarkers : list str :=
  [lit "timed out"; lit "already checked out"; lit "already exists";
   lit "already registered"; lit "unable to create"; lit "cannot lock"].

Definition removeMarkers : list str :=
  [lit "timed out"; lit "is locked"; lit "cannot remove"; lit "cannot lock"].

(** A message contains one of the markers. *)
Definition mentions (markers : list str) (msg : str) : bool :=
  existsb (Contains msg) markers.

(** The value of a decimal numeral with an optional sign, of any
    size. *)
Definition numeral (s : str) : option Z :=
  match s with
  | [] => None
  | c :: cs =>
      if isb 45 c then
        match cs with
        | [] => None
        | _ => option_map Z.opp (Strconv.digitsValue 0 cs)
        end
      else if isb 43 c then
        match cs with
        | [] => None
        | _ => Strconv.digitsValue 0 cs
        end
      else Strconv.digitsValue 0 s
  end.

(** The timeout as the specification words it: 45 s when the variable is
    unset or not a number, otherwise the number clamped to [5, 600]. *)
Definition timeoutAsDocumented (v : str) : Z :=
  match numeral (TrimSpace v) with
  | None => 45
  | Some n => Z.max 5 (Z.min 600 n)
  end.

(** The phrases that mark an agent waiting for input. *)
Definition readyMarkers : list str :=
  [lit "for shortcuts"; lit "context left"; lit "awaiting your input";
   lit "waiting for your input"; lit "ready for your next instruction";
   lit "what would you like to do next"; lit "enter your prompt"].

(** *** The ready check, as documented *)

(** The prompts: [>], [>>], [>>>], [$], [#], [:], and the characters
    U+203A, U+276F and U+279C in UTF-8. *)
Definition promptsAsDocumented : list str :=
  [lit ">"; lit ">>"; lit ">>>"; lit "$"; lit "#"; lit ":";
   bytes [226; 128; 186]; bytes [226; 157; 175]; bytes [226; 158; 156]].

(** White space: tab, line feed, form feed, carriage return, space. *)
Definition white (c : ascii) : bool :=
  existsb (fun n => isb n c) [9; 10; 12; 13; 32].

(** A byte other than the line feed. *)
Definition sameLine (c : ascii) : bool := negb (isb 10 c).

(** The prompt-only pattern: a prompt, optionally followed by white
    space. *)
Definition promptOnly (line : str) : Prop :=
  exists p ws,
    In p promptsAsDocumented /\ forallb white ws = true /\ line = p ++ ws.

(** The prompt-with-text pattern: a prompt, white space, and the text
    that follows on the same line. *)
Definition promptWithText (line : str) : Prop :=
  exists p ws text,
    In p promptsAsDocumented /\ ws <> [] /\ forallb white ws = true
    /\ forallb sameLine text = true /\ line = p ++ ws ++ text.

(** The block glyph U+2588 of the cursor overlay, in UTF-8. *)
Definition blockGlyph : str := bytes [226; 150; 136].

(** The pieces of a capture: a visible byte, or an escape sequence.
    [Csi body final] is [ESC [ body final], [Osc body st] is [ESC ] body]
    closed by [BEL], or by [ESC \] when [st] is set, and [Esc2 c] is [ESC c].
    The last three are the sequences that the end of the capture cuts
    short: [ESC] alone, [ESC [ body] and [ESC ] body]. *)
Inductive piece : Type :=
| Plain (c : ascii)
| Csi (body : str) (final : ascii)
| Osc (body : str) (st : bool)
| Esc2 (c : ascii)
| EscEnd
| CsiOpen (body : str)
| OscOpen (body : str).

Definition esc : ascii := chr 27.

(** The bytes of a piece, and of a list of pieces. *)
Definition render1 (p : piece) : str :=
  match p with
  | Plain c => [c]
  | Csi body final => esc :: chr 91 :: body ++ [final]
  | Osc body false => esc :: chr 93 :: body ++ [chr 7]
  | Osc body true => esc :: chr 93 :: body ++ [esc; chr 92]
  | Esc2 c => [esc; c]
  | EscEnd => [esc]
  | CsiOpen body => esc :: chr 91 :: body
  | OscOpen body => esc :: chr 93 :: body
  end.

Definition render (pieces : list piece) : str :=
  concat (map render1 pieces).

(** What is left of a capture without its escape sequences. *)
Definition visible1 (p : piece) : str :=
  match p with
  | Plain c => [c]
  | _ => []
  end.

Definition visible (pieces : list piece) : str :=
  concat (map visible1 pieces).

(** The byte that ends a CSI sequence: [0x40] to [0x7E]. *)
Definition csiFinal (c : ascii) : bool := between 64 126 c.

Definition csiBody (body : str) : bool :=
  forallb (fun c => negb (csiFinal c)) body.

(** The body of an OSC sequence holds no [BEL] and no [ESC \]. *)
Fixpoint oscBody (body : str) : bool :=
  match body with
  | [] => true
  | c :: rest =>
      negb (isb 7 c)
      && negb (isb 27 c && match rest with
                           | d :: _ => isb 92 d
                           | [] => false
                           end)
      && oscBody rest
  end.

(** A piece is what it is called: a visible byte is not [ESC], a CSI
    sequence ends at its first final byte, an OSC sequence at its first
    [BEL] or [ESC \], and the byte after [ESC] is not one that opens a
    sequence. *)
Definition complete (p : piece) : bool :=
  match p with
  | Plain c => negb (isb 27 c)
  | Csi body final => csiBody body && csiFinal final
  | Osc body _ => oscBody body
  | Esc2 c => negb (isb 91 c) && negb (isb 93 c)
  | EscEnd | CsiOpen _ | OscOpen _ => false
  end.

Definition cutShort (p : piece) : bool :=
  match p with
  | EscEnd => true
  | CsiOpen body => csiBody body
  | OscOpen body => oscBody body
  | _ => false
  end.

(** Only the last piece may be cut short. *)
Fixpoint wellFormed (pieces : list piece) : bool :=
  match pieces with
  | [] => true
  | [p] => complete p || cutShort p
  | p :: rest => complete p && wellFormed rest
  end.

(** The last [n] non-empty lines of a text, last line first, each
    trimmed; a line ends at a line feed or a carriage return. *)
Definition lastNonEmptyLines (n : nat) (plain : str) : list str :=
  let lines := SplitByte (chr 10) (ReplaceAllByte plain (chr 13) (chr 10)) in
  firstn n (filter (fun l => negb (str_eqb l []))
                   (map TrimSpace (rev lines))).

Section Ready.
Variable unicodeLower : str -> str.

(** A line shows a waiting agent. *)
Definition showsReady (line : str) : Prop :=
  promptOnly line
  \/ (Contains line blockGlyph = true /\ promptWithText line)
  \/ exists marker,
       In marker readyMarkers
       /\ Contains (ToLower unicodeLower line) marker = true.
End Ready.

End Spec.

(** ** Notions used to state the properties *)

Module Notions.
Import Strings.

(** The first byte of [s] is in [cut]. *)
Definition startsIn (cut : ascii -> bool) (s : str) : bool :=
  match s with
  | c :: _ => cut c
  | [] => false
  end.

(** The first byte of [s] is [x]. *)
Definition headIs (x : ascii) (s : str) : bool :=
  startsIn (fun c => if ascii_dec c x then true else false) s.

(** Two adjacent occurrences of [x]. *)
Fixpoint dbl (x : ascii) (s : str) : bool :=
  match s with
  | [] => false
  | a :: t => ((if ascii_dec a x then true else false) && headIs x t)
              || dbl x t
  end.

(** No event of the trace is a [git worktree add]. *)
Definition noWorktreeAdd (tr : list Sys.Event) : Prop :=
  forall e, In e tr ->
    Sys.isExecOf (lit "git") [lit "worktree"; lit "add"] e = false.

(** The error, if any, that the process runner makes of the outcome
    [r] of a command. *)
Definition quietError (timeout : Z) (name : str) (args : list str)
           (r : Sys.ProcResult) : option str :=
  match Sys.pr_err r with
  | Some err => Some (Runner.cmdError timeout name args r err)
  | None => None
  end.

(** The result that [runCmdOutput] makes of the outcome [r] of a
    command. *)
Definition outputOf (name : str) (args : list str) (r : Sys.ProcResult)
  : result str :=
  match Sys.pr_err r with
  | Some err => Err (Runner.cmdError 0 name args r err)
  | None => Ok (Strings.TrimRight (Sys.pr_out r) Runner.isNewline)
  end.

Definition tmuxExec (args : list str) : Sys.Call Sys.ProcResult :=
  Sys.Exec (lit "") 0 (lit "tmux") args.

Definition gitExec (dir : str) (timeout : Z) (args : list str)
  : Sys.Call Sys.ProcResult :=
  Sys.Exec dir timeout (lit "git") args.

Definition pruneArgs : list str := [lit "worktree"; lit "prune"].

Definition addArgs (args : list str) : list str :=
  [lit "worktree"; lit "add"] ++ args.

Definition removeArgs (force : bool) (path : str) : list str :=
  [lit "worktree"; lit "remove"]
    ++ (if force then [lit "--force"] else []) ++ [path].

Definition retryNote : str :=
  lit "worktree removal required a retry after cleanup".

(** An error of a [git] command, if there is one: its message starts
    with the name of the command. *)
Definition gitError (e : option str) : Prop :=
  e = None \/ exists rest, e = Some ("g"%char :: rest).

(** The branch token of a working copy, made safe. *)
Definition safeToken (branch worktreePath : str) : str :=
  let token := TrimSpace branch in
  Naming.safeName (if str_eqb token [] then Lib.filepath_Base worktreePath
                   else token).

End Notions.

(** * More of the program

    The window names, the pane commands, the session life cycle, the
    changed-file list and the small helpers of the dashboard and of the
    updater, on the same footing as above. *)

From Stdlib Require Import Sorted.

(** ** Window names *)

Module Windows.
Import Strings Lib Naming.

(** [func (m *Manager) tmuxWindowName(branch string) string] *)
Definition tmuxWindowName (branch : str) : str :=
  let name := safeName branch in
  if len name >? 60 then slice_to 60 name else name.

(** [func (m *Manager) tmuxLazygitWindowName(branch string) string] *)
Definition tmuxLazygitWindowName (branch : str) : str :=
  let name := lit "git-" ++ safeName branch in
  if len name >? 60 then slice_to 60 name else name.

(** [func trimTmuxWindowName(name string) string] *)
Definition trimTmuxWindowName (name : str) : str :=
  let name := TrimSpace name in
  if str_eqb name [] then lit "main"
  else if len name >? 60 then slice_to 60 name
  else name.

(** [func commandExecutableName(command string) string] *)
Definition commandExecutableName (command : str) : str :=
  match Fields (TrimSpace command) with
  | [] => lit ""
  | first :: _ => filepath_Base first
  end.

(** The shells of [commandShouldRemainOnExit]. *)
Definition shells : list str :=
  [lit "bash"; lit "zsh"; lit "fish"; lit "sh"; lit "dash"; lit "ksh";
   lit "csh"; lit "tcsh"].

Section Shell.
Variable unicodeLower : str -> str.

(** [func commandShouldRemainOnExit(command string) bool] *)
Definition commandShouldRemainOnExit (command : str) : bool :=
  let execName :=
    ToLower unicodeLower (TrimSpace (commandExecutableName command)) in
  if str_eqb execName [] then false
  else if existsb (str_eqb execName) shells then false
  else true.
End Shell.

(** [func (m *Manager) tmuxCustomWindowName(command string) string] *)
Definition tmuxCustomWindowName (command : str) : str :=
  let execName := safeName (commandExecutableName command) in
  let execName := if str_eqb execName [] then lit "tool" else execName in
  trimTmuxWindowName (lit "tool-" ++ execName).

End Windows.

(** ** The updater's version comparison *)

Module Update.
Import Strings.

(** [raw[:idx]] for [idx := strings.IndexAny(raw, chars)] when a byte of
    [chars] occurs, [raw] otherwise.  The sets of the program are ASCII,
    and no byte of a multi-byte or invalid rune is ASCII, so looking for
    the first byte of the set finds the first rune of it. *)
Fixpoint cutAtAny (set : ascii -> bool) (raw : str) : str :=
  match raw with
  | [] => []
  | c :: cs => if set c then [] else c :: cutAtAny set cs
  end.

Definition plusOrMinus (c : ascii) : bool := isb 43 c || isb 45 c.

Section Semver.
Variable unicodeLower : str -> str.

(** [func parseSemver(value string) ([3]int, bool)] *)
Definition parseSemver (value : str) : option (Z * Z * Z) :=
  let raw := TrimSpace (ToLower unicodeLower value) in
  if str_eqb raw [] then None
  else
    let raw := TrimPrefix raw (lit "v") in
    let raw := cutAtAny plusOrMinus raw in
    match SplitByte "."%char raw with
    | p0 :: p1 :: p2 :: _ =>
        match Strconv.Atoi p0 with
        | None => None
        | Some n0 =>
            match Strconv.Atoi p1 with
            | None => None
            | Some n1 =>
                match Strconv.Atoi p2 with
                | None => None
                | Some n2 => Some (n0, n1, n2)
                end
            end
        end
    | _ => None
    end.

(** The loop of [isNewerVersion] over the three components. *)
Definition newer (l c : Z * Z * Z) : bool :=
  let '(l0, l1, l2) := l in
  let '(c0, c1, c2) := c in
  if l0 >? c0 then true
  else if l0 <? c0 then false
  else if l1 >? c1 then true
  else if l1 <? c1 then false
  else if l2 >? c2 then true
  else if l2 <? c2 then false
  else false.

(** [func isNewerVersion(latest, current string) bool] *)
Definition isNewerVersion (latest current : str) : bool :=
  match parseSemver latest with
  | None => false
  | Some latestV =>
      match parseSemver current with
      | None => false
      | Some currentV => newer latestV currentV
      end
  end.
End Semver.

End Update.

(** ** Helpers of the dashboard *)

Module Dashboard.
Import Strings Lib.

Definition detailCaptureLines : Z := 60.

(** The largest [int], and the [int] that an integer wraps around to
    (64 bits, two's complement). *)
Definition maxInt : Z := 2 ^ 63 - 1.

Definition wrap (z : Z) : Z := (z + 2 ^ 63) mod 2 ^ 64 - 2 ^ 63.

(** [func (u *tuiState) detailCaptureLineCount() int], for the height
    [h] of the inner rectangle of the detail view. *)
Definition detailCaptureLineCount (h : Z) : Z :=
  if h <=? 0 then detailCaptureLines
  else
    let lines := wrap (h + 6) in
    let lines := if lines >? detailCaptureLines then detailCaptureLines
                 else lines in
    let lines := if lines <? 20 then 20 else lines in
    lines.

(** [func truncate(s string, max int) string] *)
Definition truncate (s : str) (max : Z) : str :=
  if len s <=? max then s
  else if max <=? 0 then lit ""
  else if max <=? 3 then slice_to max s
  else slice_to (max - 3) s ++ lit "...".

(** [parts[len(parts)-2:]] *)
Definition lastTwo (parts : list str) : list str :=
  skipn (length parts - 2) parts.

(** The loop of [truncatePath]; each turn drops [parts[1]]. *)
Fixpoint shorten (fuel : nat) (path : str) (max : Z) (parts : list str)
  : str :=
  match fuel with
  | O => truncate path max
  | S fuel' =>
      if (2 <? length parts)%nat then
        let cand :=
          filepath_Join [hd [] parts; lit "...";
                         filepath_Join (lastTwo parts)] in
        if len cand <=? max then cand
        else shorten fuel' path max (firstn 1 parts ++ skipn 2 parts)
      else truncate path max
  end.

(** [func truncatePath(path string, max int) string]; the loop runs at
    most [len(parts)] times. *)
Definition truncatePath (path : str) (max : Z) : str :=
  if len path <=? max then path
  else
    let parts := SplitByte "/"%char path in
    if (length parts <=? 2)%nat then truncate path max
    else shorten (length parts) path max parts.

End Dashboard.

(** ** The changed files of a working copy *)

Module Diff.
Import Strings Lib Sys Runner.

Record DiffFile : Type := {
  df_Path : str;
  df_Status : str
}.

(** [file[idx+4:]] for [idx := strings.LastIndex(file, sep)] when [sep]
    (not empty) occurs in [file]. *)
Fixpoint afterLast (sep file : str) : option str :=
  match file with
  | [] => None
  | _ :: rest =>
      match afterLast sep rest with
      | Some r => Some r
      | None => if HasPrefix file sep then Some (skipn (length sep) file)
                else None
      end
  end.

(** The body of the loop of [WorktreeDiffFiles]; [seen] holds exactly
    the paths of [files]. *)
Definition diffLine (files : list DiffFile) (line : str) : list DiffFile :=
  let line := TrimRight line Manager.isCR in
  if len line <? 3 then files
  else
    let status := slice_to 2 line in
    let file := TrimSpace (skipn 3 line) in
    if str_eqb file [] then files
    else
      let file := match afterLast (lit " -> ") file with
                  | Some rest => TrimSpace rest
                  | None => file
                  end in
      if str_eqb file [] then files
      else if existsb (fun f => str_eqb file (df_Path f)) files then files
      else files ++ [{| df_Path := file; df_Status := status |}].

Definition diffFilesArgs : list str :=
  [lit "--no-pager"; lit "status"; lit "--porcelain";
   lit "--untracked-files=all"].

(** [func (m *Manager) WorktreeDiffFiles(path string)
    ([]DiffFile, error)] *)
Definition WorktreeDiffFiles (path : str) : Prog (result (list DiffFile)) :=
  r <- runCmdOutput path (lit "git") diffFilesArgs ;;
  match r with
  | Err e => ret (Err e)
  | Ok out => ret (Ok (fold_left diffLine (SplitByte (chr 10) out) []))
  end.

End Diff.

(** ** Sessions, windows and panes *)

Module Session.
Import Strings Lib Sys Runner Naming Manager Windows.

(** [func defaultShellCommand() string] *)
Definition defaultShellCommand : Prog str :=
  shell <- call (Getenv (lit "SHELL")) ;;
  if str_eqb shell [] then ret (lit "bash") else ret shell.

(** [func (m *Manager) agentCommand() string], for the value
    [configured] of [m.Cfg.AgentCommand]. *)
Definition agentCommand (configured : str) : Prog str :=
  let cmd := TrimSpace configured in
  if negb (str_eqb cmd []) then ret cmd
  else
    codex <- commandExists (lit "codex") ;;
    if codex then ret (lit "codex")
    else
      shell <- call (Getenv (lit "SHELL")) ;;
      ret (if str_eqb shell [] then lit "bash" else shell).

(** [func (m *Manager) tmuxSetRemainOnExit(session, window string)
    error] *)
Definition tmuxSetRemainOnExit (session window : str) : Prog (option str) :=
  runCmdQuiet (lit "") (lit "tmux")
    [lit "set-window-option"; lit "-t"; session ++ lit ":" ++ window;
     lit "remain-on-exit"; lit "on"].

Section Ensure.
Variable unicodeLower : str -> str.


(** [func (m *Manager) tmuxEnsureWindow(session, window, worktreePath,
    command string) error] *)
Definition tmuxEnsureWindow (session window worktreePath command : str)
  : Prog (option str) :=
  present <- tmuxWindowExists session window ;;
  if present then ret None
  else
    let cmd := TrimSpace command in
    cmd <- (if str_eqb cmd [] then defaultShellCommand else ret cmd) ;;
    e <- runCmdQuiet (lit "") (lit "tmux")
           [lit "new-window"; lit "-d"; lit "-t"; session; lit "-n";
            window; lit "-c"; worktreePath; cmd] ;;
    match e with
    | Some err => ret (Some err)
    | None =>
        if commandShouldRemainOnExit unicodeLower cmd
        then tmuxSetRemainOnExit session window
        else ret None
    end.
End Ensure.

(** [func tmuxSendPaneKeys(paneTarget string, keys ...string) error] *)
Definition tmuxSendPaneKeys (paneTarget : str) (keys : list str)
  : Prog (option str) :=
  match keys with
  | [] => ret (Some (lit "keys cannot be empty"))
  | _ => runCmdQuiet (lit "") (lit "tmux")
           ([lit "send-keys"; lit "-t"; paneTarget] ++ keys)
  end.

(** [func tmuxSendPaneCommand(paneTarget, command string) error] *)
Definition tmuxSendPaneCommand (paneTarget command : str)
  : Prog (option str) :=
  let command := TrimSpace command in
  if str_eqb command [] then ret (Some (lit "command cannot be empty"))
  else
    e <- tmuxSendPaneKeys paneTarget [lit "-l"; command] ;;
    match e with
    | Some err => ret (Some err)
    | None => tmuxSendPaneKeys paneTarget [lit "C-m"]
    end.

(** [func tmuxResizePane(paneTarget string, width, height int) error] *)
Definition tmuxResizePane (paneTarget : str) (width height : Z)
  : Prog (option str) :=
  if str_eqb (TrimSpace paneTarget) [] then
    ret (Some (lit "pane target cannot be empty"))
  else if (width <=? 0) || (height <=? 0) then
    ret (Some (lit "pane size must be positive"))
  else
    runCmdQuiet (lit "") (lit "tmux")
      [lit "resize-pane"; lit "-t"; paneTarget; lit "-x";
       Strconv.Itoa width; lit "-y"; Strconv.Itoa height].

Record GoOptions : Type := {
  go_Target : str;
  go_Launch : bool;
  go_Attach : bool
}.

Section WithManager.
Variable m : Manager.
Variable sortSliceStable :
  (Worktree -> Worktree -> bool) -> list Worktree -> list Worktree.

(** [func (m *Manager) agentPaneTarget(repoRoot string, wt *Worktree)
    string] *)
Definition agentPaneTarget (repoRoot : str) (wt : Worktree) : Prog str :=
  session <- tmuxWorktreeSessionName m repoRoot wt ;;
  let window := tmuxAgentWindowName (worktreeBranchOrName wt) in
  ret (session ++ lit ":" ++ window ++ lit ".0").

(** [func (m *Manager) editorPaneTarget(repoRoot string, wt *Worktree)
    string] *)
Definition editorPaneTarget (repoRoot : str) (wt : Worktree) : Prog str :=
  session <- tmuxWorktreeSessionName m repoRoot wt ;;
  let window := tmuxWindowName (worktreeBranchOrName wt) in
  ret (session ++ lit ":" ++ window ++ lit ".0").

(** [func (m *Manager) lazygitPaneTarget(repoRoot string, wt *Worktree)
    (string, error)] *)
Definition lazygitPaneTarget (repoRoot : str) (wt : Worktree)
  : Prog (result str) :=
  session <- tmuxWorktreeSessionName m repoRoot wt ;;
  let window := tmuxLazygitWindowName (worktreeBranchOrName wt) in
  alive <- tmuxHasSession session ;;
  present <- (if alive then tmuxWindowExists session window
              else ret false) ;;
  if negb present then
    ret (Err (lit "lazygit pane is not available in this tmux window"))
  else ret (Ok (session ++ lit ":" ++ window ++ lit ".0")).

(** The loop of [findWorktreeLite]: the path of a record is made
    absolute when the loop reaches it. *)
Fixpoint findLite (target targetAbs : str) (items : list Worktree)
  : Prog (result Worktree) :=
  match items with
  | [] => ret (Err (lit "worktree not found for target: " ++ target))
  | item :: rest =>
      path <- absPath (Path item) ;;
      let item := {| Path := path; Branch := Branch item;
                     Current := Current item; Dirty := Dirty item;
                     TmuxState := TmuxState item;
                     AgentState := AgentState item |} in
      if matchesTarget target targetAbs item then ret (Ok item)
      else findLite target targetAbs rest
  end.

(** [func (m *Manager) findWorktreeLite(repoRoot, target string)
    ( *Worktree, error)] *)
Definition findWorktreeLite (repoRoot target : str)
  : Prog (result Worktree) :=
  l <- parseWorktreeList repoRoot ;;
  match l with
  | Err e => ret (Err e)
  | Ok items =>
      st <- call (Stat target) ;;
      targetAbs <- match st with
                   | StatOk true => absPath target
                   | _ => ret (lit "")
                   end ;;
      findLite target targetAbs items
  end.

(** [func (m *Manager) resolveWorktreeForTmux(target string)
    (string, *Worktree, error)] *)
Definition resolveWorktreeForTmux (target : str)
  : Prog (result (str * Worktree)) :=
  r <- RequireRepo ;;
  match r with
  | Err e => ret (Err e)
  | Ok repoRoot =>
      f <- findWorktreeLite repoRoot target ;;
      match f with
      | Err e => ret (Err e)
      | Ok wt => ret (Ok (repoRoot, wt))
      end
  end.

(** [func (m *Manager) SendAgentCommand(target, command string)
    (string, error)] *)
Definition SendAgentCommand (target command : str) : Prog (result str) :=
  r <- resolveWorktreeForTmux target ;;
  match r with
  | Err e => ret (Err e)
  | Ok (repoRoot, wt) =>
      pane <- agentPaneTarget repoRoot wt ;;
      e <- tmuxSendPaneCommand pane command ;;
      match e with
      | Some err => ret (Err err)
      | None => ret (Ok (Path wt))
      end
  end.

(** [func (m *Manager) sendAgentKeysForWorktree(repoRoot string,
    wt *Worktree, keys ...string) error] *)
Definition sendAgentKeysForWorktree (repoRoot : str) (wt : Worktree)
           (keys : list str) : Prog (option str) :=
  hasTmux <- commandExists (lit "tmux") ;;
  if negb hasTmux then
    ret (Some (lit "tmux is required for agent workflows"))
  else
    pane <- agentPaneTarget repoRoot wt ;;
    tmuxSendPaneKeys pane keys.

(** [func (m *Manager) SendAgentKeys(target string, keys ...string)
    (string, error)] *)
Definition SendAgentKeys (target : str) (keys : list str)
  : Prog (result str) :=
  r <- resolveWorktreeForTmux target ;;
  match r with
  | Err e => ret (Err e)
  | Ok (repoRoot, wt) =>
      e <- sendAgentKeysForWorktree repoRoot wt keys ;;
      match e with
      | Some err => ret (Err err)
      | None => ret (Ok (Path wt))
      end
  end.

(** [func (m *Manager) Path(target string) (string, error)] *)
Definition PathOf (target : str) : Prog (result str) :=
  f <- FindWorktree m sortSliceStable target ;;
  match f with
  | Err e => ret (Err e)
  | Ok wt => ret (Ok (Path wt))
  end.

(** [func (m *Manager) Go(opts GoOptions) (string, error)]; the call
    of [m.LaunchOrFocus] is the request [LaunchOrFocus]. *)
Definition Go (opts : GoOptions) : Prog (result str) :=
  r <- RequireRepo ;;
  match r with
  | Err e => ret (Err e)
  | Ok repoRoot =>
      f <- FindWorktree m sortSliceStable (go_Target opts) ;;
      match f with
      | Err e => ret (Err e)
      | Ok wt =>
          let branch := if str_eqb (Branch wt) []
                        then filepath_Base (Path wt) else Branch wt in
          launch <- (if go_Launch opts then commandExists (lit "tmux")
                     else ret false) ;;
          if launch then
            tmux <- call (Getenv (lit "TMUX")) ;;
            let attachOutside :=
              if str_eqb tmux [] then go_Attach opts else false in
            e <- call (LaunchOrFocus repoRoot branch (Path wt)
                                     attachOutside) ;;
            match e with
            | Some err => ret (Err err)
            | None => ret (Ok (Path wt))
            end
          else ret (Ok (Path wt))
      end
  end.

(** [func (m *Manager) Detach(target string) (string, bool, error)] *)
Definition Detach (target : str) : Prog (str * bool * option str) :=
  r <- RequireRepo ;;
  match r with
  | Err e => ret (lit "", false, Some e)
  | Ok repoRoot =>
      f <- FindWorktree m sortSliceStable target ;;
      match f with
      | Err e => ret (lit "", false, Some e)
      | Ok wt =>
          hasTmux <- commandExists (lit "tmux") ;;
          if negb hasTmux then
            ret (lit "", false,
                 Some (lit "tmux is required for detach workflows"))
          else
            session <- tmuxWorktreeSessionName m repoRoot wt ;;
            alive <- tmuxHasSession session ;;
            if negb alive then ret (Path wt, false, None)
            else
              e <- runCmdQuiet (lit "") (lit "tmux")
                     [lit "kill-session"; lit "-t"; session] ;;
              match e with
              | Some err => ret (lit "", false, Some err)
              | None => ret (Path wt, true, None)
              end
      end
  end.

(** [func (m *Manager) StopAgent(target string) (string, bool, error)] *)
Definition StopAgent (target : str) : Prog (str * bool * option str) :=
  r <- RequireRepo ;;
  match r with
  | Err e => ret (lit "", false, Some e)
  | Ok repoRoot =>
      f <- FindWorktree m sortSliceStable target ;;
      match f with
      | Err e => ret (lit "", false, Some e)
      | Ok wt =>
          hasTmux <- commandExists (lit "tmux") ;;
          if negb hasTmux then
            ret (lit "", false,
                 Some (lit "tmux is required for agent workflows"))
          else
            session <- tmuxWorktreeSessionName m repoRoot wt ;;
            let agentWindow :=
              tmuxAgentWindowName (worktreeBranchOrName wt) in
            alive <- tmuxHasSession session ;;
            present <- (if alive then tmuxWindowExists session agentWindow
                        else ret false) ;;
            if negb present then ret (Path wt, false, None)
            else
              e <- runCmdQuiet (lit "") (lit "tmux")
                     [lit "kill-window"; lit "-t";
                      session ++ lit ":" ++ agentWindow] ;;
              match e with
              | Some err => ret (lit "", false, Some err)
              | None => ret (Path wt, true, None)
              end
      end
  end.
End WithManager.

End Session.

(** ** What a program can ask of the world *)

Module Traces.
Import Sys.

(** Every request that [p] can make, whatever the answers, satisfies
    [P] together with its answer. *)
Fixpoint always {A : Type} (P : Event -> Prop) (p : Prog A) : Prop :=
  match p with
  | Ret _ => True
  | Do c k => forall x, P (Ev c x) /\ always P (k x)
  end.

(** The trace of a run. *)
Definition trace {W A : Type} (r : A * W * list Event) : list Event :=
  snd r.

(** Requests that only look: [git rev-parse], [git worktree list],
    [git status], [tmux has-session], [os.Stat], [os.Getwd] and
    [exec.LookPath]. *)
Definition inspects (e : Event) : bool :=
  isExecOf (lit "git") [lit "rev-parse"] e
  || isExecOf (lit "git") [lit "worktree"; lit "list"] e
  || isExecOf (lit "git") [lit "status"] e
  || isExecOf (lit "tmux") [lit "has-session"] e
  || match e with
     | Ev (Stat _) _ => true
     | Ev Getwd _ => true
     | Ev (LookPath _) _ => true
     | Ev _ _ => false
     end.

Definition inspecting (e : Event) : Prop := inspects e = true.

(** Whatever the answers, the trace and the result of [p] satisfy
    [Q]. *)
Fixpoint holds {A : Type} (Q : list Event -> A -> Prop) (p : Prog A)
  : Prop :=
  match p with
  | Ret a => Q [] a
  | Do c k => forall x, holds (fun tr a => Q (Ev c x :: tr) a) (k x)
  end.

(** Whatever the answers, the result of [p] satisfies [R]. *)
Definition yields {A : Type} (R : A -> Prop) (p : Prog A) : Prop :=
  holds (fun _ a => R a) p.

(** The result of a run. *)
Definition outcome {W A : Type} (r : A * W * list Event) : A :=
  fst (fst r).

(** The trace is a run of inspections, followed or not by one last
    request [c] of a command; [done] tells whether that command ran and
    succeeded. *)
Definition inspectsThen (c : ProcResult -> Event) (tr : list Event)
           (done : bool) : Prop :=
  exists pre,
    Forall (fun e => inspects e = true) pre
    /\ ((tr = pre /\ done = false)
        \/ exists r, tr = pre ++ [c r]
                     /\ done = match pr_err r with
                               | None => true
                               | Some _ => false
                               end).

(** The same for a function that returns a path, whether it stopped
    something, and an error: it reports [true] only without an error, and
    a run that reports [false] without an error only inspected. *)
Definition stopsWith (c : ProcResult -> Event) (tr : list Event)
           (res : str * bool * option str) : Prop :=
  inspectsThen c tr (snd (fst res))
  /\ (snd (fst res) = true -> snd res = None)
  /\ (snd (fst res) = false -> snd res = None ->
      Forall (fun e => inspects e = true) tr).

(** An invocation of [tmux] whose arguments start with [sub]. *)
Definition tmux (sub : list str) (e : Event) : bool :=
  isExecOf (lit "tmux") sub e.

(** An invocation of [git] whose arguments start with [sub]. *)
Definition git (sub : list str) (e : Event) : bool :=
  isExecOf (lit "git") sub e.

(** A reading of the environment. *)
Definition readsEnv (e : Event) : bool :=
  match e with
  | Ev (Getenv _) _ => true
  | Ev _ _ => false
  end.

(** A request to build and focus a session; [attaches] when it asks to
    attach a client from outside the multiplexer. *)
Definition launches (e : Event) : bool :=
  match e with
  | Ev (LaunchOrFocus _ _ _ _) _ => true
  | Ev _ _ => false
  end.

Definition attaches (e : Event) : bool :=
  match e with
  | Ev (LaunchOrFocus _ _ _ attachOutside) _ => attachOutside
  | Ev _ _ => false
  end.

(** The requests other than reading the environment and creating a
    directory.  The debug log of the program, which the programs here
    leave out, makes requests of these two kinds (it reads
    [SPROUT_DEBUG_LOG] and creates the directory of the log before it
    appends a line to the file) and of no other kind: it starts no
    process, looks at no path, copies nothing and launches nothing.  So
    the [actions] of a trace here are the actions of the program. *)
Definition acts (e : Event) : bool :=
  match e with
  | Ev (Getenv _) _ => false
  | Ev (MkdirAll _ _) _ => false
  | Ev _ _ => true
  end.

Definition actions (tr : list Event) : list Event := filter acts tr.

(** What [Remove] may do: inspections, [tmux kill-session],
    [git worktree remove], [git worktree prune] and, when [deleteBranch]
    is set, [git branch]. *)
Definition removal (deleteBranch : bool) (e : Event) : bool :=
  inspects e
  || tmux [lit "kill-session"] e
  || git [lit "worktree"; lit "remove"] e
  || git [lit "worktree"; lit "prune"] e
  || (deleteBranch && git [lit "branch"] e).

Definition removing (deleteBranch : bool) (e : Event) : Prop :=
  acts e = true -> removal deleteBranch e = true.

End Traces.

(** ** A world without state

    Every command is answered by a fixed function of its working
    directory, name and arguments; the tools on the [PATH] are those of
    [tools]; paths exist as directories; the environment is empty. *)

Module Fake.
Import Strings Lib Sys.

Definition world (exec : str -> str -> list str -> ProcResult)
           (tools : list str) : World unit :=
  fun X c =>
    match c in Call X return unit -> X * unit with
    | Exec dir timeout name args => fun u => (exec dir name args, u)
    | Stat path => fun u => (StatOk true, u)
    | Lstat path => fun u => (LstatOk KDir 493, u)
    | MkdirAll path perm => fun u => (None, u)
    | Getenv key => fun u => ([], u)
    | Getwd => fun u => (Ok (lit "/"), u)
    | LookPath file => fun u => (existsb (str_eqb file) tools, u)
    | CopyFile src dst => fun u => (None, u)
    | CopySymlink src dst => fun u => (None, u)
    | CopyTree src dst => fun u => (None, u)
    | LaunchOrFocus _ _ _ _ => fun u => (None, u)
    end.

(** The answer of a command that succeeded with output [out], and of
    one that failed. *)
Definition ok (out : str) : ProcResult :=
  {| pr_out := out; pr_err := None; pr_deadline := false |}.

Definition failed (out : str) : ProcResult :=
  {| pr_out := out; pr_err := Some (lit "exit status 1");
     pr_deadline := false |}.

End Fake.

(** ** The strings that a pattern matches *)

Module Lang.
Import Re.

(** Zero or more strings of [L], one after the other. *)
Inductive star (L : str -> Prop) : str -> Prop :=
| star_nil : star L []
| star_app (s1 s2 : str) : L s1 -> star L s2 -> star L (s1 ++ s2).

Fixpoint lang (r : re) : str -> Prop :=
  match r with
  | Void => fun _ => False
  | Eps => fun s => s = []
  | Byte p => fun s => exists c, s = [c] /\ p c = true
  | Cat a b =>
      fun s => exists s1 s2, s = s1 ++ s2 /\ lang a s1 /\ lang b s2
  | Alt a b => fun s => lang a s \/ lang b s
  | Star a => star (lang a)
  end.

End Lang.

(** ** More situations *)

Module Cases2.
Import Sys.

Definition nl : str := [chr 10].

(** A repository [/r/repo] on [main] with a working copy [/r/wt] of
    [feat]; [git status] prints [status] everywhere, and every other
    command fails. *)
Definition repo (status : str) (dir name : str) (args : list str)
  : ProcResult :=
  if negb (str_eqb name (lit "git")) then Fake.failed []
  else if Sim.starts args [lit "rev-parse"; lit "--show-toplevel"]
  then Fake.ok (lit "/r/repo" ++ nl)
  else if Sim.starts args [lit "worktree"; lit "list"]
  then Fake.ok (lit "worktree /r/repo" ++ nl
                ++ lit "branch refs/heads/main" ++ nl ++ nl
                ++ lit "worktree /r/wt" ++ nl
                ++ lit "branch refs/heads/feat" ++ nl)
  else if Sim.starts args [lit "status"] then Fake.ok status
  else Fake.failed [].

(** The same repository with a clean status, and a multiplexer in which
    every session and window exists and every command succeeds. *)
Definition live (dir name : str) (args : list str) : ProcResult :=
  if str_eqb name (lit "tmux") then Fake.ok [] else repo [] dir name args.

(** [RemoveOptions{Target: "feat"}] *)
Definition removeFeat : Manager.RemoveOptions :=
  {| Manager.rm_Target := lit "feat"; Manager.rm_Force := false;
     Manager.rm_DeleteBranch := false |}.

End Cases2.

(** ** Notions used to state the further properties *)

Module Notions2.
Import Strings Sys.

(** The byte is not [ESC]. *)
Definition noEsc (c : ascii) : bool := negb (isb 27 c).

(** The order of Go strings, as a relation. *)
Definition strLt (a b : str) : Prop := Lib.str_ltb a b = true.

(** A record with a path and nothing else filled in yet: not current,
    not dirty, no session state and no agent state. *)
Definition bare (wt : Manager.Worktree) : Prop :=
  Manager.Path wt <> [] /\ Manager.Current wt = false
  /\ Manager.Dirty wt = false
  /\ Manager.TmuxState wt = [] /\ Manager.AgentState wt = [].

(** The arguments of the [git status] of [collectCopyCandidates]. *)
Definition copyStatusArgs : list str :=
  [lit "status"; lit "--porcelain=v2"; lit "-z";
   lit "--untracked-files=all"; lit "--ignored=matching"].

(** The requests of the pane and session functions. *)
Definition sendKeys (pane : str) (keys : list str) (ans : ProcResult)
  : Event :=
  Ev (Exec (lit "") 0 (lit "tmux")
           ([lit "send-keys"; lit "-t"; pane] ++ keys)) ans.


Definition newSession (session window dir command : str)
           (ans : ProcResult) : Event :=
  Ev (Exec (lit "") 0 (lit "tmux")
           [lit "new-session"; lit "-d"; lit "-s"; session; lit "-n";
            window; lit "-c"; dir; command]) ans.

Definition remainOnExit (session window : str) (ans : ProcResult)
  : Event :=
  Ev (Exec (lit "") 0 (lit "tmux")
           [lit "set-window-option"; lit "-t";
            session ++ lit ":" ++ window; lit "remain-on-exit"; lit "on"])
     ans.

Definition resizePane (pane : str) (width height : Z) (ans : ProcResult)
  : Event :=
  Ev (Exec (lit "") 0 (lit "tmux")
           [lit "resize-pane"; lit "-t"; pane; lit "-x";
            Strconv.Itoa width; lit "-y"; Strconv.Itoa height]) ans.

(** Whether the command ended without an error. *)
Definition succeeded (ans : ProcResult) : bool :=
  match pr_err ans with
  | None => true
  | Some _ => false
  end.

(** What [tmuxEnsureSession] does when the session does not exist:
    it reads at most the environment, creates the session with a
    command that is not empty, and then sets [remain-on-exit] exactly
    when the creation succeeded and the command is not a shell. *)
Definition created (unicodeLower : str -> str)
           (session window repoRoot : str)
           (tr : list Event) (e : option str) : Prop :=
  exists env command a1 post,
    tr = env ++ newSession session window repoRoot command a1 :: post
    /\ Forall (fun e => Traces.readsEnv e = true) env
    /\ command <> []
    /\ ((post = []
         /\ (succeeded a1
             && Windows.commandShouldRemainOnExit unicodeLower command)
            = false)
        \/ (exists a2,
              post = [remainOnExit session window a2]
              /\ succeeded a1 = true
              /\ Windows.commandShouldRemainOnExit unicodeLower command
                 = true)).

(** The states that [ListWorktrees] can report for a working copy:
    no multiplexer, no session, a session without or with an agent. *)
Definition stateOk (wt : Manager.Worktree) : Prop :=
  (Manager.TmuxState wt = lit "n/a" /\ Manager.AgentState wt = lit "n/a")
  \/ (Manager.TmuxState wt = lit "no" /\ Manager.AgentState wt = lit "no")
  \/ (Manager.TmuxState wt = lit "yes"
      /\ (Manager.AgentState wt = lit "no"
          \/ Manager.AgentState wt = lit "yes")).

(** What [WorktreeDiffFiles] keeps: a status of two bytes and a path
    that is not empty. *)
Definition entryOk (f : Diff.DiffFile) : Prop :=
  Diff.df_Path f <> [] /\ len (Diff.df_Status f) = 2.

(** A list of changed files without a repeated path. *)
Definition listed (files : list Diff.DiffFile) : Prop :=
  NoDup (map Diff.df_Path files) /\ Forall entryOk files.

(** The source and the destination of a copy. *)
Definition copyOf (e : Event) : option (str * str) :=
  match e with
  | Ev (CopyFile src dst) _ => Some (src, dst)
  | Ev (CopySymlink src dst) _ => Some (src, dst)
  | Ev (CopyTree src dst) _ => Some (src, dst)
  | Ev _ _ => None
  end.

(** What [CopyUntrackedAndIgnored] may do: the [git status] of the
    source, and for a relative path [rel], which is not empty, not [.git]
    and not under [.git/], the [os.Lstat] of [sourceRoot/rel] and a copy
    from [sourceRoot/rel] to [targetRoot/rel]. *)
Definition copies (sourceRoot targetRoot : str) (e : Event) : Prop :=
  (exists r, e = Ev (Exec sourceRoot 0 (lit "git") copyStatusArgs) r)
  \/ exists rel,
       rel <> [] /\ rel <> lit ".git"
       /\ Strings.HasPrefix rel (lit ".git/") = false
       /\ ((exists info,
              e = Ev (Lstat (Lib.filepath_Join [sourceRoot; rel])) info)
           \/ copyOf e = Some (Lib.filepath_Join [sourceRoot; rel],
                               Lib.filepath_Join [targetRoot; rel])).



(** The answer [meta] of [tmux display-message] reports the pane height
    [h]: four fields, the last three of them integers, and [h] positive. *)
Definition reportsHeight (meta : result str) (h : Z) : Prop :=
  exists text p0 p1 p2 p3 x y,
    meta = Ok text
    /\ Strings.Fields (Strings.TrimSpace text) = [p0; p1; p2; p3]
    /\ Strconv.Atoi p1 = Some x /\ Strconv.Atoi p2 = Some y
    /\ Strconv.Atoi p3 = Some h /\ 0 < h.

(** The first byte of [tail] is not the backslash. *)
Definition noBackslash (tail : str) : Prop :=
  match tail with
  | d :: _ => isb 92 d = false
  | [] => True
  end.

(** The arguments of the [git symbolic-ref] of [CurrentBranch], and the
    branch that its answer names: none when the command failed. *)
Definition currentArgs : list str :=
  [lit "symbolic-ref"; lit "--quiet"; lit "--short"; lit "HEAD"].

Definition currentOf (ans : ProcResult) : str :=
  if succeeded ans
  then Strings.TrimSpace (Strings.TrimRight (pr_out ans) Runner.isNewline)
  else [].

(** The requests that stop a session, and a window of a session. *)
Definition killSession (session : str) : Call ProcResult :=
  Exec (lit "") 0 (lit "tmux") [lit "kill-session"; lit "-t"; session].

Definition killWindow (session window : str) : Call ProcResult :=
  Exec (lit "") 0 (lit "tmux")
       [lit "kill-window"; lit "-t"; session ++ lit ":" ++ window].

(** What [Detach] and [StopAgent] return after the stopping command
    answered [ans], for the working copy at [path]. *)
Definition stopped (path : str) (args : list str) (ans : ProcResult)
  : str * bool * option str :=
  match Notions.quietError 0 (lit "tmux") args ans with
  | Some err => (lit "", false, Some err)
  | None => (path, true, None)
  end.

End Notions2.

(** * Properties *)

(** ** Equality of strings *)

Lemma str_eqb_eq a b : str_eqb a b = true <-> a = b.
Proof.
  unfold str_eqb. destruct (list_eq_dec ascii_dec a b); split; congruence.
Qed.

Lemma str_eqb_refl a : str_eqb a a = true.
Proof. apply str_eqb_eq. reflexivity. Qed.

Lemma str_eqb_neq a b : str_eqb a b = false <-> a <> b.
Proof.
  unfold str_eqb. destruct (list_eq_dec ascii_dec a b); split; congruence.
Qed.

(** Case analysis over the 256 values of a byte. *)
Ltac each_byte c := destruct c as [[] [] [] [] [] [] [] []].

(** ** Facts about the string helpers *)

Module StringFacts.
Import Strings Regexp Notions.

Lemma HasPrefix_app_l sub : forall p suf,
  HasPrefix p sub = true -> HasPrefix (p ++ suf) sub = true.
Proof.
  induction sub as [|x sub IH]; intros p suf H; [reflexivity|].
  destruct p as [|c p]; simpl in *; [discriminate|].
  destruct (ascii_dec x c); [auto | discriminate].
Qed.

Lemma Contains_app_l sub : forall p suf,
  Contains p sub = true -> Contains (p ++ suf) sub = true.
Proof.
  induction p as [|c p IH]; intros suf H.
  - simpl in H. rewrite orb_false_r in H.
    destruct sub; [|discriminate]. destruct suf; reflexivity.
  - cbn [Contains] in H. apply orb_true_iff in H.
    change ((c :: p) ++ suf) with (c :: (p ++ suf)). cbn [Contains].
    apply orb_true_iff. destruct H as [H|H].
    + left. apply (HasPrefix_app_l sub (c :: p) suf H).
    + right. auto.
Qed.

Lemma Contains_app_r sub : forall pre s,
  Contains s sub = true -> Contains (pre ++ s) sub = true.
Proof.
  induction pre as [|c pre IH]; intros s H; [exact H|].
  change ((c :: pre) ++ s) with (c :: (pre ++ s)). cbn [Contains].
  apply orb_true_iff. right. auto.
Qed.

Lemma TrimLeftIn_suffix cut : forall s,
  exists pre, s = pre ++ TrimLeftIn cut s.
Proof.
  induction s as [|c s [pre IH]]; simpl.
  - exists []. reflexivity.
  - destruct (cut c).
    + exists (c :: pre). simpl. congruence.
    + exists []. reflexivity.
Qed.

Lemma TrimRightIn_prefix cut s :
  exists suf, s = TrimRightIn cut s ++ suf.
Proof.
  unfold TrimRightIn.
  destruct (TrimLeftIn_suffix cut (rev s)) as [pre H].
  exists (rev pre). rewrite <- rev_app_distr, <- H, rev_involutive.
  reflexivity.
Qed.

Lemma TrimLeftIn_starts cut : forall s,
  startsIn cut (TrimLeftIn cut s) = false.
Proof.
  induction s as [|c s IH]; simpl; [reflexivity|].
  destruct (cut c) eqn:E; [exact IH | simpl; exact E].
Qed.

Lemma TrimLeftIn_id cut s :
  startsIn cut s = false -> TrimLeftIn cut s = s.
Proof. destruct s; simpl; intros H; [|rewrite H]; reflexivity. Qed.

Lemma startsIn_prefix cut r suf :
  startsIn cut (r ++ suf) = false -> startsIn cut r = false.
Proof. destruct r; simpl; auto. Qed.

Lemma TrimIn_starts cut s : startsIn cut (TrimIn cut s) = false.
Proof.
  unfold TrimIn.
  destruct (TrimRightIn_prefix cut (TrimLeftIn cut s)) as [suf H].
  apply startsIn_prefix with (suf := suf). rewrite <- H.
  apply TrimLeftIn_starts.
Qed.

Lemma TrimIn_ends cut s : startsIn cut (rev (TrimIn cut s)) = false.
Proof.
  unfold TrimIn, TrimRightIn. rewrite rev_involutive.
  apply TrimLeftIn_starts.
Qed.

Lemma TrimIn_id cut s :
  startsIn cut s = false -> startsIn cut (rev s) = false ->
  TrimIn cut s = s.
Proof.
  intros H1 H2. unfold TrimIn, TrimRightIn.
  rewrite (TrimLeftIn_id cut s H1), (TrimLeftIn_id cut (rev s) H2).
  apply rev_involutive.
Qed.

Lemma TrimIn_infix cut s :
  exists pre suf, s = pre ++ TrimIn cut s ++ suf.
Proof.
  unfold TrimIn.
  destruct (TrimLeftIn_suffix cut s) as [pre H1].
  destruct (TrimRightIn_prefix cut (TrimLeftIn cut s)) as [suf H2].
  exists pre, suf. rewrite <- H2. exact H1.
Qed.

Lemma TrimIn_forallb cut Q s :
  forallb Q s = true -> forallb Q (TrimIn cut s) = true.
Proof.
  destruct (TrimIn_infix cut s) as (pre & suf & H). intros HQ.
  rewrite H in HQ. rewrite !forallb_app in HQ.
  apply andb_true_iff in HQ as [_ HQ].
  apply andb_true_iff in HQ as [HQ _]. exact HQ.
Qed.

Lemma TrimIn_Contains cut sub s :
  Contains s sub = false -> Contains (TrimIn cut s) sub = false.
Proof.
  destruct (TrimIn_infix cut s) as (pre & suf & H). intros HC.
  destruct (Contains (TrimIn cut s) sub) eqn:E; [|reflexivity].
  rewrite H in HC. rewrite <- HC. symmetry.
  apply Contains_app_r, Contains_app_l, E.
Qed.

(** *** Replacing runs *)

Lemma replaceRuns_forallb cls repl Q :
  forallb Q repl = true ->
  forall s b,
    (forall c, In c s -> cls c = false -> Q c = true) ->
    forallb Q (replaceRuns cls repl b s) = true.
Proof.
  intros Hr. induction s as [|c s IH]; intros b H; simpl; [reflexivity|].
  assert (IH' : forall b', forallb Q (replaceRuns cls repl b' s) = true)
    by (intros b'; apply IH; intros; apply H; simpl; auto).
  destruct (cls c) eqn:E.
  - destruct b; [apply IH'|].
    rewrite forallb_app, Hr, IH'. reflexivity.
  - simpl. rewrite IH', (H c); simpl; auto.
Qed.

Lemma replaceRuns_id cls repl : forall s b,
  forallb (fun c => negb (cls c)) s = true ->
  replaceRuns cls repl b s = s.
Proof.
  induction s as [|c s IH]; intros b H; simpl in *; [reflexivity|].
  apply andb_true_iff in H as [Hc Hs].
  destruct (cls c); [discriminate|]. rewrite IH; auto.
Qed.

(** *** Squeezing the runs of one byte *)

Lemma dbl_Contains x : forall s, Contains s [x; x] = dbl x s.
Proof.
  induction s as [|a t IH]; [reflexivity|].
  cbn [Contains dbl]. rewrite IH. f_equal.
  cbn [HasPrefix]. destruct (ascii_dec x a), (ascii_dec a x);
    try congruence; simpl; [|reflexivity].
  destruct t as [|b t]; [reflexivity|]. cbn.
  destruct (ascii_dec x b), (ascii_dec b x); congruence.
Qed.

Section Squeeze.
Variables (cls : ascii -> bool) (x : ascii).
Hypothesis cls_spec : forall c, cls c = true <-> c = x.

Lemma cls_x : cls x = true.
Proof. apply cls_spec. reflexivity. Qed.

Lemma cls_dec c : cls c = if ascii_dec c x then true else false.
Proof.
  destruct (ascii_dec c x) as [->|n]; [apply cls_x|].
  destruct (cls c) eqn:E; [|reflexivity].
  apply cls_spec in E. contradiction.
Qed.

Lemma squeeze_head y : forall s,
  headIs y (replaceRuns cls [x] false s) = headIs y s.
Proof.
  intros [|c s]; [reflexivity|]. simpl.
  destruct (cls c) eqn:E; [|reflexivity].
  apply cls_spec in E. subst. reflexivity.
Qed.

Lemma squeeze_dbl : forall s b,
  dbl x (replaceRuns cls [x] b s) = false
  /\ (b = true -> headIs x (replaceRuns cls [x] b s) = false).
Proof.
  induction s as [|c s IH]; intros b; simpl; [auto|].
  destruct (cls c) eqn:E.
  - destruct (IH true) as [Hd Hh]. destruct b; [auto|]. split.
    + simpl. rewrite Hd, (Hh eq_refl), andb_false_r. reflexivity.
    + discriminate.
  - destruct (IH false) as [Hd _]. rewrite cls_dec in E. split.
    + cbn [dbl]. rewrite Hd. destruct (ascii_dec c x); [discriminate|].
      reflexivity.
    + intros _. unfold headIs. simpl. exact E.
Qed.

Lemma squeeze_other_dbl y : y <> x -> forall s b,
  dbl y s = false -> dbl y (replaceRuns cls [x] b s) = false.
Proof.
  intros Hy. induction s as [|c s IH]; intros b H; [reflexivity|].
  cbn [dbl] in H. apply orb_false_iff in H as [Hc Hs].
  cbn [replaceRuns]. destruct (cls c) eqn:E.
  - apply cls_spec in E. subst c.
    destruct b; [auto|]. simpl. rewrite (IH true Hs).
    destruct (ascii_dec x y); [congruence | reflexivity].
  - cbn [dbl]. rewrite (IH false Hs), squeeze_head, Hc. reflexivity.
Qed.

Lemma squeeze_id : forall s b,
  dbl x s = false -> (b = true -> headIs x s = false) ->
  replaceRuns cls [x] b s = s.
Proof.
  induction s as [|c s IH]; intros b Hd Hh; [reflexivity|].
  cbn [dbl] in Hd. apply orb_false_iff in Hd as [Hc Hs].
  cbn [replaceRuns]. rewrite cls_dec.
  destruct (ascii_dec c x) as [->|n].
  - simpl in Hc. destruct b.
    + specialize (Hh eq_refl). unfold headIs in Hh. simpl in Hh.
      destruct (ascii_dec x x); congruence.
    + simpl. f_equal. apply IH; auto.
  - f_equal. apply IH; auto. discriminate.
Qed.
End Squeeze.

End StringFacts.

(** ** Slugs *)

Module SlugFacts.
Import Strings Regexp Naming Notions StringFacts.

Lemma isSlash_spec c : isSlash c = true <-> c = "/"%char.
Proof. each_byte c; vm_compute; split; congruence. Qed.

Lemma isDash_spec c : isDash c = true <-> c = "-"%char.
Proof. each_byte c; vm_compute; split; congruence. Qed.

Lemma slugChar_plain c :
  slugChar c = true ->
  isASCII c = true /\ lowerASCII c = c /\ c <> "_"%char /\ c <> " "%char.
Proof. each_byte c; vm_compute; repeat split; congruence. Qed.

Lemma dashOrSlash_prefix s x :
  startsIn dashOrSlash s = false -> dashOrSlash x = true ->
  HasPrefix s [x] = false.
Proof.
  destruct s as [|c s]; simpl; intros H Hx; [reflexivity|].
  destruct (ascii_dec x c); [congruence | reflexivity].
Qed.

Section Slug.
Variable unicodeLower : str -> str.

Lemma normalize_closed x :
  let s := normalize unicodeLower x in
  forallb slugChar s = true
  /\ dbl "-"%char s = false /\ dbl "/"%char s = false
  /\ startsIn dashOrSlash s = false
  /\ startsIn dashOrSlash (rev s) = false.
Proof.
  unfold normalize, ReplaceAllRuns.
  set (s0 := ReplaceAllByte _ " "%char _).
  set (s1 := replaceRuns slugBad _ false s0).
  set (s2 := replaceRuns isSlash _ false s1).
  set (s3 := replaceRuns isDash _ false s2).
  assert (H1 : forallb slugChar s1 = true).
  { apply replaceRuns_forallb; [reflexivity|].
    intros c _ Hc. unfold slugBad in Hc.
    apply negb_false_iff in Hc. exact Hc. }
  assert (H2 : forallb slugChar s2 = true).
  { apply replaceRuns_forallb; [reflexivity|].
    intros c Hin _. rewrite forallb_forall in H1. auto. }
  assert (H3 : forallb slugChar s3 = true).
  { apply replaceRuns_forallb; [reflexivity|].
    intros c Hin _. rewrite forallb_forall in H2. auto. }
  assert (D2 : dbl "/"%char s2 = false)
    by apply (squeeze_dbl isSlash "/"%char isSlash_spec s1 false).
  assert (D3 : dbl "/"%char s3 = false).
  { apply (squeeze_other_dbl isDash "-"%char isDash_spec);
      [discriminate | exact D2]. }
  assert (E3 : dbl "-"%char s3 = false)
    by apply (squeeze_dbl isDash "-"%char isDash_spec s2 false).
  cbv zeta. repeat split.
  - apply TrimIn_forallb, H3.
  - rewrite <- dbl_Contains. apply TrimIn_Contains.
    rewrite dbl_Contains. exact E3.
  - rewrite <- dbl_Contains. apply TrimIn_Contains.
    rewrite dbl_Contains. exact D3.
  - apply TrimIn_starts.
  - apply TrimIn_ends.
Qed.

Lemma normalize_fixed s :
  forallb slugChar s = true ->
  dbl "-"%char s = false -> dbl "/"%char s = false ->
  startsIn dashOrSlash s = false ->
  startsIn dashOrSlash (rev s) = false ->
  normalize unicodeLower s = s.
Proof.
  intros Hc Hd Hs Hl Hr. rewrite forallb_forall in Hc.
  assert (Hchars : forall c, In c s ->
            isASCII c = true /\ lowerASCII c = c
            /\ c <> "_"%char /\ c <> " "%char)
    by (intros c Hin; apply slugChar_plain; auto).
  unfold normalize, ReplaceAllRuns, ToLower.
  assert (A : forallb isASCII s = true)
    by (apply forallb_forall; intros c Hin; apply Hchars, Hin).
  rewrite A.
  assert (L : map lowerASCII s = s).
  { rewrite <- (map_id s) at 2. apply map_ext_in.
    intros c Hin. apply Hchars, Hin. }
  rewrite L.
  assert (R : forall o n, (o = "_"%char \/ o = " "%char) ->
                          ReplaceAllByte s o n = s).
  { intros o n Ho. unfold ReplaceAllByte.
    rewrite <- (map_id s) at 2. apply map_ext_in. intros c Hin.
    destruct (ascii_dec c o) as [->|]; [|reflexivity].
    destruct (Hchars o Hin) as (_ & _ & N1 & N2).
    destruct Ho; contradiction. }
  rewrite !R by auto.
  rewrite (replaceRuns_id slugBad (lit "-") s false).
  2:{ apply forallb_forall. intros c Hin. unfold slugBad.
      rewrite (Hc c Hin). reflexivity. }
  change (lit "/") with ["/"%char]. change (lit "-") with ["-"%char].
  rewrite (squeeze_id isSlash "/"%char isSlash_spec s false Hs)
    by discriminate.
  rewrite (squeeze_id isDash "-"%char isDash_spec s false Hd)
    by discriminate.
  apply TrimIn_id; assumption.
Qed.
End Slug.

End SlugFacts.

(** C6.  For every input, [Slugify] either fails, exactly when the
    normalized string is empty, or returns a slug [s] that [Slugify] maps to
    itself, that consists of bytes of [[a-z0-9/-]] only, contains neither
    [--] nor [//], neither starts nor ends with [-] or [/], and is not
    empty. *)
Theorem Slugify_idempotent_closed (unicodeLower : str -> str) (x : str) :
  (forall s,
      Naming.Slugify unicodeLower x = Ok s ->
      Naming.Slugify unicodeLower s = Ok s
      /\ forallb Naming.slugChar s = true
      /\ Strings.Contains s (lit "--") = false
      /\ Strings.Contains s (lit "//") = false
      /\ Strings.HasPrefix s (lit "-") = false
      /\ Strings.HasPrefix s (lit "/") = false
      /\ Strings.HasSuffix s (lit "-") = false
      /\ Strings.HasSuffix s (lit "/") = false
      /\ s <> [])
  /\ ((exists e, Naming.Slugify unicodeLower x = Err e)
      <-> Naming.normalize unicodeLower x = []).
Proof.
  split.
  - intros s H. unfold Naming.Slugify in H.
    destruct (str_eqb (Naming.normalize unicodeLower x) []) eqn:E;
      [discriminate|].
    injection H as <-. apply str_eqb_neq in E.
    destruct (SlugFacts.normalize_closed unicodeLower x)
      as (Hc & Hd & Hs & Hl & Hr).
    set (s := Naming.normalize unicodeLower x) in *.
    assert (F : Naming.normalize unicodeLower s = s)
      by (apply SlugFacts.normalize_fixed; assumption).
    repeat split.
    + unfold Naming.Slugify. rewrite F.
      destruct (str_eqb s []) eqn:E'; [|reflexivity].
      apply str_eqb_eq in E'. contradiction.
    + exact Hc.
    + exact (eq_trans (StringFacts.dbl_Contains "-"%char s) Hd).
    + exact (eq_trans (StringFacts.dbl_Contains "/"%char s) Hs).
    + apply SlugFacts.dashOrSlash_prefix; [exact Hl | reflexivity].
    + apply SlugFacts.dashOrSlash_prefix; [exact Hl | reflexivity].
    + unfold Strings.HasSuffix.
      apply SlugFacts.dashOrSlash_prefix; [exact Hr | reflexivity].
    + unfold Strings.HasSuffix.
      apply SlugFacts.dashOrSlash_prefix; [exact Hr | reflexivity].
    + exact E.
  - unfold Naming.Slugify. split.
    + intros [e He].
      destruct (str_eqb (Naming.normalize unicodeLower x) []) eqn:E';
        [|discriminate].
      apply str_eqb_eq in E'. exact E'.
    + intros Hy. rewrite Hy. simpl. eauto.
Qed.

Lemma Slugify_idempotent_closed_witness :
  Naming.Slugify (fun s => s) (lit "Fix: the_Login  bug//v2") =
    Ok (lit "fix-the-login-bug/v2")
  /\ Naming.Slugify (fun s => s) (lit "fix-the-login-bug/v2") =
       Ok (lit "fix-the-login-bug/v2").
Proof.
  split; [reflexivity|].
  apply (proj1 (Slugify_idempotent_closed (fun s => s)
                  (lit "Fix: the_Login  bug//v2"))
               (lit "fix-the-login-bug/v2")).
  reflexivity.
Defined.

(** ** Runs of programs *)

Module RunFacts.
Import Sys.

Section World.
Context {W : Type} (world : World W).

Lemma run_bind {A B : Type} (p : Prog A) (f : A -> Prog B) (w : W) :
  run world (pbind p f) w =
  let '(a, w1, t1) := run world p w in
  let '(b, w2, t2) := run world (f a) w1 in
  (b, w2, t1 ++ t2).
Proof.
  revert w. induction p as [a | X c k IH]; intros w; simpl.
  - destruct (run world (f a) w) as [[b w2] t2]. reflexivity.
  - destruct (world X c w) as [x w1]. rewrite IH.
    destruct (run world (k x) w1) as [[a w2] t1].
    destruct (run world (f a) w2) as [[b w3] t2]. reflexivity.
Qed.

Lemma run_bind_eq {A B : Type} (p : Prog A) (f : A -> Prog B)
      w a w1 t1 b w2 t2 :
  run world p w = (a, w1, t1) ->
  run world (f a) w1 = (b, w2, t2) ->
  run world (pbind p f) w = (b, w2, t1 ++ t2).
Proof. intros H1 H2. rewrite run_bind, H1, H2. reflexivity. Qed.

Lemma run_bind_inv {A B : Type} (p : Prog A) (f : A -> Prog B)
      w b w2 t :
  run world (pbind p f) w = (b, w2, t) ->
  exists a w1 t1 t2,
    run world p w = (a, w1, t1)
    /\ run world (f a) w1 = (b, w2, t2)
    /\ t = t1 ++ t2.
Proof.
  rewrite run_bind.
  destruct (run world p w) as [[a w1] t1].
  destruct (run world (f a) w1) as [[b' w2'] t2] eqn:E.
  intros H. injection H as <- <- <-. eauto 8.
Qed.

End World.

End RunFacts.

(** ** Creating a working copy with a new branch *)

(** C8.  [CreateWorktreeWithBranch] first asks [git show-ref] whether the
    branch exists and then [os.Stat] whether the target path does.  When the
    branch exists it returns the error [branch already exists] and when the
    path exists the error [target path already exists]; in both cases, and
    when [os.Stat] or [os.MkdirAll] fails, no [git worktree add] is run.
    When neither exists it creates the parent directory and, if that
    succeeds, runs [git worktree add -b branch path base] next. *)
Theorem CreateWorktreeWithBranch_guards
        (W : Type) (world : Sys.World W) (unicodeLower : str -> str)
        (repoRoot branch path base : str) (w w1 w2 w3 w' : W)
        (probe : Sys.ProcResult) (st : Sys.StatResult) (mk : option str)
        (e : option str) (tr : list Sys.Event) :
  world _ (Sys.Exec repoRoot 0 (lit "git") (Manager.showRefArgs branch)) w
    = (probe, w1) ->
  world _ (Sys.Stat path) w1 = (st, w2) ->
  world _ (Sys.MkdirAll (Lib.filepath_Dir path) 493) w2 = (mk, w3) ->
  Sys.run world
    (Manager.CreateWorktreeWithBranch unicodeLower repoRoot branch path base)
    w = (e, w', tr) ->
  (Sys.pr_err probe = None ->
   e = Some (lit "branch already exists: " ++ branch)
   /\ Notions.noWorktreeAdd tr)
  /\ (Sys.pr_err probe <> None ->
      (forall d, st = Sys.StatOk d ->
         e = Some (lit "target path already exists: " ++ path)
         /\ Notions.noWorktreeAdd tr)
      /\ (forall msg, st = Sys.StatFail msg ->
            e = Some msg /\ Notions.noWorktreeAdd tr)
      /\ (forall msg, st = Sys.StatNotExist msg ->
            (forall err, mk = Some err ->
               e = Some err /\ Notions.noWorktreeAdd tr)
            /\ (mk = None ->
                exists v r rest,
                  tr = Sys.Ev (Sys.Exec repoRoot 0 (lit "git")
                                        (Manager.showRefArgs branch)) probe
                       :: Sys.Ev (Sys.Stat path) st
                       :: Sys.Ev (Sys.MkdirAll (Lib.filepath_Dir path) 493) mk
                       :: Sys.Ev (Sys.Getenv Manager.timeoutEnv) v
                       :: Sys.Ev (Sys.Exec repoRoot (Manager.timeoutSeconds v)
                                    (lit "git")
                                    [lit "worktree"; lit "add"; lit "-b";
                                     branch; path; base]) r
                       :: rest))).
Proof.
  intros Hprobe Hst Hmk Hrun.
  unfold Manager.CreateWorktreeWithBranch, Manager.BranchExists,
    Runner.runCmdOutput, Runner.runCmdBytes, Runner.runCmdBytesWithTimeout,
    Sys.call, Sys.ret in Hrun.
  cbn [Sys.pbind Sys.run] in Hrun. rewrite Hprobe in Hrun.
  assert (Hno : forall x y,
             Notions.noWorktreeAdd
               (Sys.Ev (Sys.Exec repoRoot 0 (lit "git")
                                 (Manager.showRefArgs branch)) probe
                :: x ++ y) <->
             Notions.noWorktreeAdd (x ++ y)).
  { intros x y. unfold Notions.noWorktreeAdd. split; intros H ev Hin.
    - apply H. right. exact Hin.
    - destruct Hin as [<-|Hin]; [reflexivity | auto]. }
  split.
  - intros Hp. rewrite Hp in Hrun. cbn [Sys.pbind Sys.run app] in Hrun.
    injection Hrun as <- <- <-. split; [reflexivity|].
    intros ev [<-|[]]. reflexivity.
  - intros Hp. destruct (Sys.pr_err probe) as [perr|]; [|congruence].
    cbn [Sys.pbind Sys.run app] in Hrun. rewrite Hst in Hrun.
    split; [|split].
    + intros d ->. cbn [Sys.pbind Sys.run app] in Hrun. injection Hrun as <- <- <-.
      split; [reflexivity|].
      intros ev [<-|[<-|[]]]; reflexivity.
    + intros msg ->. cbn [Sys.pbind Sys.run app] in Hrun. injection Hrun as <- <- <-.
      split; [reflexivity|].
      intros ev [<-|[<-|[]]]; reflexivity.
    + intros msg ->. split.
      * intros err ->. cbn [Sys.pbind Sys.run app] in Hrun. rewrite Hmk in Hrun. cbn [Sys.pbind Sys.run app] in Hrun.
        injection Hrun as <- <- <-. split; [reflexivity|].
        intros ev [<-|[<-|[<-|[]]]]; reflexivity.
      * intros ->. cbn [Sys.pbind Sys.run app] in Hrun. rewrite Hmk in Hrun.
      unfold Manager.runGitWorktreeAdd, Manager.gitWorktreeCommandTimeout,
          Runner.runCmdQuietTimeout, Runner.runCmdBytesWithTimeout,
          Sys.call, Sys.ret in Hrun.
        cbn [Sys.pbind Sys.run app] in Hrun.
        destruct (world _ (Sys.Getenv Manager.timeoutEnv) w3) as [v w4].
        destruct (world _ (Sys.Exec repoRoot (Manager.timeoutSeconds v)
                             (lit "git")
                             [lit "worktree"; lit "add"; lit "-b"; branch;
                              path; base]) w4) as [r w5] eqn:Hadd.
        match type of Hrun with
        | context [Sys.run world ?p w5] =>
            destruct (Sys.run world p w5) as [[a wz] rest]
        end.
        injection Hrun as <- <- <-. exists v, r, rest. reflexivity.
Qed.

Lemma CreateWorktreeWithBranch_guards_witness :
  let path := lit "/r/repo.worktrees/main" in
  let '(e, _, tr) :=
    Sys.run Sim.world
      (Manager.CreateWorktreeWithBranch (fun s => s) (lit "/r/repo")
         (lit "main") path (lit "main")) Sim.fresh in
  e = Some (lit "branch already exists: main") /\ Notions.noWorktreeAdd tr.
Proof.
  cbv zeta.
  destruct (Sys.run Sim.world _ Sim.fresh) as [[e w'] tr] eqn:Hrun.
  refine (proj1 (CreateWorktreeWithBranch_guards
                   Sim.state Sim.world (fun s => s) (lit "/r/repo")
                   (lit "main") (lit "/r/repo.worktrees/main") (lit "main")
                   Sim.fresh _ _ _ w' _ _ _ e tr
                   eq_refl eq_refl eq_refl Hrun) _).
  reflexivity.
Defined.

(** ** Removing a working copy whose status cannot be read *)

Module RemoveFacts.
Import Sys Runner Manager Notions RunFacts.

Section World.
Context {W : Type} (world : World W).

Lemma run_WorktreeDirty path w probe w1 :
  world _ (Exec path 0 (lit "git") statusArgs) w = (probe, w1) ->
  run world (WorktreeDirty path) w =
  (match pr_err probe with
   | Some _ => false
   | None => negb (str_eqb (Strings.TrimSpace
                              (Strings.TrimRight (pr_out probe) isNewline))
                           [])
   end, w1, [Ev (Exec path 0 (lit "git") statusArgs) probe]).
Proof.
  intros H. unfold WorktreeDirty, runCmdOutput, runCmdBytes,
              runCmdBytesWithTimeout, call, ret.
  cbn [pbind run]. rewrite H. destruct (pr_err probe); reflexivity.
Qed.

Lemma run_removeWithRetry_starts ul repoRoot wt force session warnings
      w res w' tr :
  run world (removeWithRetry ul repoRoot wt force session warnings) w
    = (res, w', tr) ->
  exists v r rest,
    tr = Ev (Getenv timeoutEnv) v
         :: Ev (Exec repoRoot (timeoutSeconds v) (lit "git")
                     ([lit "worktree"; lit "remove"]
                      ++ (if force then [lit "--force"] else [])
                      ++ [Path wt])) r
         :: rest.
Proof.
  unfold removeWithRetry, runGitWorktreeRemove, gitWorktreeCommandTimeout,
    runCmdQuietTimeout, runCmdBytesWithTimeout, call, ret.
  cbn [pbind run].
  destruct (world _ (Getenv timeoutEnv) w) as [v w1].
  replace ((if force
            then [lit "worktree"; lit "remove"] ++ [lit "--force"]
            else [lit "worktree"; lit "remove"]) ++ [Path wt])
    with ([lit "worktree"; lit "remove"]
            ++ (if force then [lit "--force"] else []) ++ [Path wt])
    by (destruct force; reflexivity).
  destruct (world _ (Exec repoRoot (timeoutSeconds v) (lit "git") _) w1)
    as [r w2].
  match goal with
  | |- context [run world ?p w2] =>
      destruct (run world p w2) as [[a wz] rest]
  end.
  intros H. injection H as <- <- <-. eauto.
Qed.
(** The errors of the process runner start with the name of the
    command. *)
Lemma quietError_git timeout args r e :
  quietError timeout (lit "git") args r = Some e ->
  exists rest, e = "g"%char :: rest.
Proof.
  unfold quietError, cmdError, withTail.
  destruct (pr_err r) as [err|]; [|discriminate].
  destruct ((0 <? timeout) && pr_deadline r);
    destruct (str_eqb (truncated (pr_out r)) []);
    intros H; injection H as <-; eexists; reflexivity.
Qed.

Lemma gitError_quiet timeout args r :
  gitError (quietError timeout (lit "git") args r).
Proof.
  destruct (quietError timeout (lit "git") args r) as [e|] eqn:E.
  - right. destruct (quietError_git _ _ _ _ E) as [rest ->]. eauto.
  - left. reflexivity.
Qed.

Lemma run_remove_error repoRoot path force w e w' tr :
  run world (runGitWorktreeRemove repoRoot path force) w = (e, w', tr) ->
  gitError e.
Proof.
  unfold runGitWorktreeRemove, gitWorktreeCommandTimeout,
    runCmdQuietTimeout, runCmdBytesWithTimeout, call, ret.
  cbn [pbind run].
  destruct (world _ (Getenv timeoutEnv) w) as [v w1].
  match goal with
  | |- context [world _ (Exec repoRoot ?t ?n ?a) w1] =>
      destruct (world _ (Exec repoRoot t n a) w1) as [r w2] eqn:Hr;
      pose proof (gitError_quiet t a r) as Hq
  end.
  unfold quietError in Hq.
  destruct (pr_err r); cbn [pbind run errorOf];
    intros H; injection H as <- _ _; exact Hq.
Qed.

Lemma run_quiet_error dir args w e w' tr :
  run world (runCmdQuiet dir (lit "git") args) w = (e, w', tr) ->
  gitError e.
Proof.
  destruct (world _ (Exec dir 0 (lit "git") args) w) as [r w1] eqn:Hr.
  unfold runCmdQuiet, runCmdBytes, runCmdBytesWithTimeout, call, ret.
  cbn [pbind run]. rewrite Hr.
  pose proof (gitError_quiet 0 args r) as Hq. unfold quietError in Hq.
  destruct (pr_err r); cbn [pbind run errorOf];
    intros H; injection H as <- _ _; exact Hq.
Qed.

Lemma removeWithRetry_error ul repoRoot wt force session warnings
      w res w' tr :
  run world (removeWithRetry ul repoRoot wt force session warnings) w
    = (res, w', tr) ->
  gitError (snd res).
Proof.
  unfold removeWithRetry. intros H.
  apply RunFacts.run_bind_inv in H as (e & wa & ta & tb & He & H & _).
  apply run_remove_error in He.
  destruct e as [err|].
  - destruct (shouldRetryWorktreeRemove ul (Some err)).
    + apply RunFacts.run_bind_inv in H as (u1 & wb & tc & td & _ & H & _).
      apply RunFacts.run_bind_inv in H as (u2 & wc & te & tf & _ & H & _).
      apply RunFacts.run_bind_inv in H as (e2 & wd & tg & th & He2 & H & _).
      apply run_remove_error in He2.
      destruct e2 as [err2|]; cbn [run] in H; injection H as <- _ _.
      * exact He2.
      * left. reflexivity.
    + cbn [run] in H. injection H as <- _ _. exact He.
  - cbn [run] in H. injection H as <- _ _. left. reflexivity.
Qed.

Lemma deleteBranch_error m sort repoRoot wt opts warnings w res w' tr :
  run world (deleteBranch m sort repoRoot wt opts warnings) w
    = (res, w', tr) ->
  gitError (snd res).
Proof.
  unfold deleteBranch. intros H.
  destruct (rm_DeleteBranch opts && negb (str_eqb (Branch wt) [])).
  - apply RunFacts.run_bind_inv in H as (inUse & wa & ta & tb & _ & H & _).
    destruct inUse.
    + cbn [run] in H. injection H as <- _ _. left. reflexivity.
    + apply RunFacts.run_bind_inv in H as (e & wb & tc & td & He & H & _).
      apply run_quiet_error in He.
      destruct e as [err|]; cbn [run] in H; injection H as <- _ _.
      * exact He.
      * left. reflexivity.
  - cbn [run] in H. injection H as <- _ _. left. reflexivity.
Qed.

Lemma removeClean_error ul m sort repoRoot wt opts w res w' tr :
  run world (removeClean ul m sort repoRoot wt opts) w = (res, w', tr) ->
  gitError (snd res).
Proof.
  unfold removeClean. intros H.
  apply RunFacts.run_bind_inv in H as (sw & wa & ta & tb & _ & H & _).
  apply RunFacts.run_bind_inv in H as (removed & wb & tc & td & Hr & H & _).
  apply removeWithRetry_error in Hr.
  destruct (snd removed) as [err|].
  - cbn [run] in H. injection H as <- _ _. exact Hr.
  - apply deleteBranch_error in H. exact H.
Qed.

Lemma gitError_not_dirty e path : gitError e -> e <> Some (dirtyError path).
Proof.
  intros [-> | [rest ->]]; [discriminate|].
  unfold dirtyError. intros H. injection H as H _. discriminate.
Qed.

End World.

End RemoveFacts.

(** C10.  When [git status --porcelain] fails in the directory of a
    working copy, [WorktreeDirty] answers [false]; [Remove] without
    [Force], having found that working copy, is then not refused: it goes
    on to stop the session and to run [git worktree remove] on the path,
    and whatever it returns is not the dirty-worktree error. *)
Theorem Remove_proceeds_when_status_fails
        (W : Type) (world : Sys.World W) (unicodeLower : str -> str)
        (m : Manager.Manager)
        (sortSliceStable : (Manager.Worktree -> Manager.Worktree -> bool) ->
                           list Manager.Worktree -> list Manager.Worktree)
        (opts : Manager.RemoveOptions) (repoRoot : str)
        (wt : Manager.Worktree) (w w1 w2 w3 : W)
        (t1 t2 : list Sys.Event) (probe : Sys.ProcResult) :
  Manager.rm_Force opts = false ->
  Sys.run world Manager.RequireRepo w = (Ok repoRoot, w1, t1) ->
  Sys.run world (Manager.FindWorktree m sortSliceStable
                   (Manager.rm_Target opts)) w1 = (Ok wt, w2, t2) ->
  world _ (Sys.Exec (Manager.Path wt) 0 (lit "git") Manager.statusArgs) w2
    = (probe, w3) ->
  Sys.pr_err probe <> None ->
  let status :=
    Sys.Ev (Sys.Exec (Manager.Path wt) 0 (lit "git") Manager.statusArgs)
           probe in
  Sys.run world (Manager.WorktreeDirty (Manager.Path wt)) w2
    = (false, w3, [status])
  /\ exists res w' t3 v r,
       Sys.run world (Manager.Remove unicodeLower m sortSliceStable opts) w
         = (res, w', t1 ++ t2 ++ status :: t3)
       /\ Sys.run world
            (Manager.removeClean unicodeLower m sortSliceStable repoRoot wt
               opts) w3 = (res, w', t3)
       /\ In (Sys.Ev (Sys.Exec repoRoot (Manager.timeoutSeconds v) (lit "git")
                        [lit "worktree"; lit "remove"; Manager.Path wt]) r)
             t3
       /\ snd res <> Some (Manager.dirtyError (Manager.Path wt)).
Proof.
  intros Hforce Hrepo Hfind Hprobe Herr status.
  pose proof (RemoveFacts.run_WorktreeDirty world _ _ _ _ Hprobe) as Hdirty.
  destruct (Sys.pr_err probe) as [perr|] eqn:Eerr; [|congruence].
  fold status in Hdirty. split; [exact Hdirty|].
  destruct (Sys.run world
              (Manager.removeClean unicodeLower m sortSliceStable repoRoot wt
                 opts) w3) as [[res w'] t3] eqn:Hclean.
  exists res, w', t3.
  assert (Hremove : exists v r,
             In (Sys.Ev (Sys.Exec repoRoot (Manager.timeoutSeconds v)
                           (lit "git")
                           [lit "worktree"; lit "remove"; Manager.Path wt]) r)
                t3).
  { unfold Manager.removeClean in Hclean.
    apply RunFacts.run_bind_inv in Hclean
      as (sw & wa & ta & tb & _ & Hrest & ->).
    apply RunFacts.run_bind_inv in Hrest
      as (removed & wb & tc & td & Hrm & _ & ->).
    apply RemoveFacts.run_removeWithRetry_starts in Hrm
      as (v & r & rest & ->).
    rewrite Hforce. exists v, r.
    apply in_or_app. right. apply in_or_app. left. right. left. reflexivity. }
  destruct Hremove as (v & r & Hin). exists v, r.
  split; [|split; [reflexivity | split; [exact Hin|]]].
  2:{ apply RemoveFacts.gitError_not_dirty.
      exact (RemoveFacts.removeClean_error world _ _ _ _ _ _ _ _ _ _ Hclean). }
  unfold Manager.Remove.
  apply (RunFacts.run_bind_eq world _ _ _ _ _ _ _ _ _ Hrepo).
  apply (RunFacts.run_bind_eq world _ _ _ _ _ _ _ _ _ Hfind).
  rewrite Hforce. cbn [negb].
  change (status :: t3) with ([status] ++ t3).
  apply (RunFacts.run_bind_eq world _ _ _ _ _ _ _ _ _ Hdirty).
  exact Hclean.
Qed.


Lemma Remove_proceeds_when_status_fails_witness :
  exists res w' tr v r,
    Sys.run Sim.world
      (Manager.Remove (fun s => s) Sim.manager Sim.insertionSort
         Cases.removeShared) Cases.withBrokenStatus = (res, w', tr)
    /\ In (Sys.Ev (Sys.Exec (lit "/r/repo") (Manager.timeoutSeconds v)
                     (lit "git")
                     [lit "worktree"; lit "remove";
                      lit "/r/repo.worktrees/shared"]) r) tr.
Proof.
  eassert (H1 : Sys.run Sim.world Manager.RequireRepo Cases.withBrokenStatus
                = _) by (vm_compute; reflexivity).
  eassert (H2 : Sys.run Sim.world
                  (Manager.FindWorktree Sim.manager Sim.insertionSort
                     (Manager.rm_Target Cases.removeShared))
                  Cases.withBrokenStatus = _) by (vm_compute; reflexivity).
  eassert (H3 : Sim.world _
                  (Sys.Exec (lit "/r/repo.worktrees/shared") 0 (lit "git")
                     Manager.statusArgs) Cases.withBrokenStatus = _)
    by (vm_compute; reflexivity).
  destruct (Remove_proceeds_when_status_fails
              Sim.state Sim.world (fun s => s) Sim.manager Sim.insertionSort
              Cases.removeShared _ _ _ _ _ _ _ _ _
              eq_refl H1 H2 H3 ltac:(discriminate))
    as [_ (res & w' & t3 & v & r & Hrun & _ & Hin & _)].
  exists res, w'. eexists. exists v, r. split; [exact Hrun|].
  apply in_or_app. right. apply in_or_app. right. right. exact Hin.
Defined.

(** ** Creating a working copy for an existing branch *)

Lemma CreateWorktreeFromExisting_path_exists
      (W : Type) (world : Sys.World W) (unicodeLower : str -> str)
      (repoRoot branch path : str) (w w1 : W) (d : bool) :
  world _ (Sys.Stat path) w = (Sys.StatOk d, w1) ->
  Sys.run world
    (Manager.CreateWorktreeFromExisting unicodeLower repoRoot branch path) w
  = (Some (lit "target path already exists: " ++ path), w1,
     [Sys.Ev (Sys.Stat path) (Sys.StatOk d)]).
Proof.
  intros H. unfold Manager.CreateWorktreeFromExisting, Sys.call.
  cbn [Sys.pbind Sys.run]. rewrite H. reflexivity.
Qed.

(** C1.  What [NewWorktree] does for [FromBranch] when the working copy
    is already there.  In the repository [/r/repo] the first
    [NewWorktree{FromBranch: "shared"}] creates
    [/r/repo.worktrees/shared]; the second one, run in the world the first
    one left, fails with [target path already exists].  With the branch
    checked out in a working copy elsewhere, as in
    [TestNewWorktreeFromExistingReturnsExistingWorktreePath], the call
    fails with the error of [git worktree add]. *)
Theorem NewWorktree_from_existing_twice :
  let new := Manager.NewWorktree (fun s => s) Sim.manager in
  let first := Sys.run Sim.world (new Cases.fromShared) Sim.fresh in
  let second :=
    Sys.run Sim.world (new Cases.fromShared) (Cases.after first) in
  let elsewhere :=
    Sys.run Sim.world (new Cases.fromFeatureExisting)
            Cases.withExistingWorktree in
  Cases.outcome first = Ok (lit "shared", lit "/r/repo.worktrees/shared")
  /\ Cases.outcome second =
       Err (lit "target path already exists: /r/repo.worktrees/shared")
  /\ Cases.outcome elsewhere =
       Err (lit "git worktree add /r/repo.worktrees/feature/existing feature/existing failed: exit status 128: fatal: 'feature/existing' is already checked out at '/r/existing-worktree'").
Proof. vm_compute. repeat split. Qed.

(** ** Copying untracked and ignored files *)

Module CopyAllFacts.
Import Sys Runner Manager Notions2 RunFacts.

Section World.
Context {W : Type} (world : World W).



End World.

End CopyAllFacts.




(** ** Session names *)

Module NameFacts.
Import Strings Naming Notions.

Lemma safeName_nonempty value : safeName value <> [].
Proof.
  unfold safeName.
  match goal with |- context [str_eqb ?s []] =>
    destruct (str_eqb s []) eqn:E end.
  - discriminate.
  - apply str_eqb_neq. exact E.
Qed.

Lemma session_name_eq base branch path :
  tmuxWorktreeSessionNameFromBase base branch path
  = slice_to 100 (base ++ lit "-" ++ safeToken branch path).
Proof.
  unfold tmuxWorktreeSessionNameFromBase, safeToken.
  set (suffix := safeName _).
  destruct (str_eqb suffix []) eqn:E.
  - apply str_eqb_eq in E. exfalso. revert E. apply safeName_nonempty.
  - destruct (len (base ++ lit "-" ++ suffix) >? 100) eqn:L;
      [reflexivity|].
    unfold slice_to. symmetry. apply firstn_all2.
    unfold len in L. rewrite Z.gtb_ltb in L. apply Z.ltb_ge in L. lia.
Qed.

End NameFacts.

(** The branches [feat/x] and [feat-x] of one repository have the same
    session name. *)
Lemma session_names_collide :
  lit "feat/x" <> lit "feat-x"
  /\ Naming.tmuxWorktreeSessionNameOf (lit "sprout") (lit "repo")
       (lit "feat/x") (lit "/r/repo.worktrees/feat/x")
     = Naming.tmuxWorktreeSessionNameOf (lit "sprout") (lit "repo")
         (lit "feat-x") (lit "/r/repo.worktrees/feat-x").
Proof. split; [discriminate | reflexivity]. Qed.

(** C3, as amended.  The session name of a working copy is a function of
    the prefix, the repository name, the branch and the path: the first
    100 bytes of the repository session name, a dash and the safe branch
    token.  Two working copies of one repository get distinct names when
    their safe tokens differ and both names fit in 100 bytes. *)
Theorem worktree_session_name_shape
        (prefix repo branch1 path1 branch2 path2 : str) :
  let base := Naming.tmuxSessionNameOf prefix repo in
  let full b p := base ++ lit "-" ++ Notions.safeToken b p in
  let name := Naming.tmuxWorktreeSessionNameOf prefix repo in
  name branch1 path1 = slice_to 100 (full branch1 path1)
  /\ len (name branch1 path1) <= 100
  /\ (Notions.safeToken branch1 path1 <> Notions.safeToken branch2 path2 ->
      len (full branch1 path1) <= 100 ->
      len (full branch2 path2) <= 100 ->
      name branch1 path1 <> name branch2 path2).
Proof.
  intros base full name. unfold name, Naming.tmuxWorktreeSessionNameOf.
  fold base. rewrite !NameFacts.session_name_eq. fold (full branch1 path1).
  fold (full branch2 path2). split; [reflexivity|]. split.
  - unfold slice_to, len. rewrite length_firstn. lia.
  - intros Hne L1 L2. unfold slice_to, len in *.
    rewrite !firstn_all2 by lia. unfold full. intros Heq.
    apply app_inv_head in Heq. apply app_inv_head in Heq. contradiction.
Qed.

Lemma worktree_session_name_shape_witness :
  Naming.tmuxWorktreeSessionNameOf (lit "sprout") (lit "repo")
    (lit "feat/x") (lit "/w/feat/x")
  <> Naming.tmuxWorktreeSessionNameOf (lit "sprout") (lit "repo")
       (lit "fix/y") (lit "/w/fix/y").
Proof.
  apply (worktree_session_name_shape (lit "sprout") (lit "repo")
           (lit "feat/x") (lit "/w/feat/x") (lit "fix/y") (lit "/w/fix/y")).
  - vm_compute. discriminate.
  - vm_compute. discriminate.
  - vm_compute. discriminate.
Defined.

(** ** Retrying [git worktree add] and [git worktree remove] *)

Module RetryFacts.
Import Sys Runner Manager Notions.

Section World.
Context {W : Type} (world : World W).

Lemma run_quietTimeout dir timeout name args w r w1 :
  world _ (Exec dir timeout name args) w = (r, w1) ->
  run world (runCmdQuietTimeout dir timeout name args) w
  = (quietError timeout name args r, w1,
     [Ev (Exec dir timeout name args) r]).
Proof.
  intros H. unfold runCmdQuietTimeout, runCmdBytesWithTimeout, call, ret,
              quietError.
  cbn [pbind run]. rewrite H. destruct (pr_err r); reflexivity.
Qed.

Lemma run_quiet dir name args w r w1 :
  world _ (Exec dir 0 name args) w = (r, w1) ->
  run world (runCmdQuiet dir name args) w
  = (quietError 0 name args r, w1, [Ev (Exec dir 0 name args) r]).
Proof.
  intros H. unfold runCmdQuiet, runCmdBytes, runCmdBytesWithTimeout,
              call, ret, quietError.
  cbn [pbind run]. rewrite H. destruct (pr_err r); reflexivity.
Qed.

Lemma run_timeout w v w1 :
  world _ (Getenv timeoutEnv) w = (v, w1) ->
  run world gitWorktreeCommandTimeout w
  = (timeoutSeconds v, w1, [Ev (Getenv timeoutEnv) v]).
Proof.
  intros H. unfold gitWorktreeCommandTimeout, call, ret.
  cbn [pbind run]. rewrite H. reflexivity.
Qed.

Lemma run_remove repoRoot path force w v w1 r w2 :
  world _ (Getenv timeoutEnv) w = (v, w1) ->
  world _ (gitExec repoRoot (timeoutSeconds v) (removeArgs force path)) w1
    = (r, w2) ->
  run world (runGitWorktreeRemove repoRoot path force) w
  = (quietError (timeoutSeconds v) (lit "git") (removeArgs force path) r,
     w2,
     [Ev (Getenv timeoutEnv) v;
      Ev (gitExec repoRoot (timeoutSeconds v) (removeArgs force path)) r]).
Proof.
  intros Hv Hr. unfold runGitWorktreeRemove.
  replace ((if force
            then [lit "worktree"; lit "remove"] ++ [lit "--force"]
            else [lit "worktree"; lit "remove"]) ++ [path])
    with (removeArgs force path) by (destruct force; reflexivity).
  apply (RunFacts.run_bind_eq world _ _ _ _ _ _ _ _ _
           (run_timeout _ _ _ Hv)).
  apply run_quietTimeout. exact Hr.
Qed.
End World.

Lemma add_markers ul err :
  shouldRetryWorktreeAdd ul err
  = match err with
    | Some msg => Spec.mentions Spec.addMarkers (Strings.ToLower ul msg)
    | None => false
    end.
Proof.
  destruct err as [msg|]; [|reflexivity].
  unfold shouldRetryWorktreeAdd, Spec.mentions, Spec.addMarkers.
  cbn [existsb].
  repeat match goal with
         | |- context [Strings.Contains ?a ?b] =>
             destruct (Strings.Contains a b); try reflexivity
         end.
Qed.

Lemma remove_markers ul err :
  shouldRetryWorktreeRemove ul err
  = match err with
    | Some msg => Spec.mentions Spec.removeMarkers (Strings.ToLower ul msg)
    | None => false
    end.
Proof.
  destruct err as [msg|]; [|reflexivity].
  unfold shouldRetryWorktreeRemove, Spec.mentions, Spec.removeMarkers.
  cbn [existsb].
  repeat match goal with
         | |- context [Strings.Contains ?a ?b] =>
             destruct (Strings.Contains a b); try reflexivity
         end.
Qed.

End RetryFacts.

(** The documented substrings and the ones looked for differ: [timeout]
    and [cannot create] are documented and not retried, and the message of
    a command that timed out is retried and contains none of the documented
    substrings. *)
Lemma retry_markers_differ :
  let id := fun s : str => s in
  let timedOut := lit "git worktree add /w/x x timed out after 45s" in
  (Spec.mentions Spec.addMarkersAsDocumented (lit "timeout") = true
   /\ Manager.shouldRetryWorktreeAdd id (Some (lit "timeout")) = false)
  /\ (Spec.mentions Spec.addMarkersAsDocumented
        (lit "fatal: cannot create directory") = true
      /\ Manager.shouldRetryWorktreeAdd id
           (Some (lit "fatal: cannot create directory")) = false)
  /\ (Spec.mentions Spec.addMarkersAsDocumented timedOut = false
      /\ Manager.shouldRetryWorktreeAdd id (Some timedOut) = true)
  /\ (Spec.mentions Spec.removeMarkersAsDocumented (lit "timeout") = true
      /\ Manager.shouldRetryWorktreeRemove id (Some (lit "timeout")) = false).
Proof. vm_compute. repeat split. Qed.

(** C4, as amended.  [git worktree add] is retried, after a
    [git worktree prune], exactly when the lower-cased message of its error
    contains one of [timed out], [already checked out], [already exists],
    [already registered], [unable to create], [cannot lock]; and
    [git worktree remove] exactly when it contains one of [timed out],
    [is locked], [cannot remove], [cannot lock].  Any other error is
    returned at once, after a single attempt and without a prune. *)
Theorem retry_exactly_on_markers (unicodeLower : str -> str) :
  (forall err,
      Manager.shouldRetryWorktreeAdd unicodeLower err = true <->
      exists msg marker,
        err = Some msg /\ In marker Spec.addMarkers
        /\ Strings.Contains (Strings.ToLower unicodeLower msg) marker = true)
  /\ (forall err,
         Manager.shouldRetryWorktreeRemove unicodeLower err = true <->
         exists msg marker,
           err = Some msg /\ In marker Spec.removeMarkers
           /\ Strings.Contains (Strings.ToLower unicodeLower msg) marker
              = true)
  /\ (forall (W : Type) (world : Sys.World W) repoRoot args w v w1 r w2 err,
         let timeout := Manager.timeoutSeconds v in
         let add := Notions.gitExec repoRoot timeout (Notions.addArgs args) in
         let prune := Notions.gitExec repoRoot 0 Notions.pruneArgs in
         let msg := Runner.cmdError timeout (lit "git") (Notions.addArgs args)
                                    r err in
         let attempt := Manager.runGitWorktreeAdd unicodeLower repoRoot args in
         world _ (Sys.Getenv Manager.timeoutEnv) w = (v, w1) ->
         world _ add w1 = (r, w2) ->
         Sys.pr_err r = Some err ->
         (Manager.shouldRetryWorktreeAdd unicodeLower (Some msg) = false ->
          Sys.run world attempt w
          = (Some msg, w2,
             [Sys.Ev (Sys.Getenv Manager.timeoutEnv) v; Sys.Ev add r]))
         /\ (Manager.shouldRetryWorktreeAdd unicodeLower (Some msg) = true ->
             forall p w3 r' w4,
               world _ prune w2 = (p, w3) ->
               world _ add w3 = (r', w4) ->
               Sys.run world attempt w
               = (Notions.quietError timeout (lit "git")
                    (Notions.addArgs args) r', w4,
                  [Sys.Ev (Sys.Getenv Manager.timeoutEnv) v; Sys.Ev add r;
                   Sys.Ev prune p; Sys.Ev add r'])))
  /\ (forall (W : Type) (world : Sys.World W) repoRoot wt force session
             warnings w v w1 r w2 err,
         let timeout := Manager.timeoutSeconds v in
         let args := Notions.removeArgs force (Manager.Path wt) in
         let remove := Notions.gitExec repoRoot timeout args in
         let prune := Notions.gitExec repoRoot 0 Notions.pruneArgs in
         let msg := Runner.cmdError timeout (lit "git") args r err in
         let attempt :=
           Manager.removeWithRetry unicodeLower repoRoot wt force session
                                   warnings in
         world _ (Sys.Getenv Manager.timeoutEnv) w = (v, w1) ->
         world _ remove w1 = (r, w2) ->
         Sys.pr_err r = Some err ->
         (Manager.shouldRetryWorktreeRemove unicodeLower (Some msg) = false ->
          Sys.run world attempt w
          = ((warnings, Some msg), w2,
             [Sys.Ev (Sys.Getenv Manager.timeoutEnv) v; Sys.Ev remove r]))
         /\ (Manager.shouldRetryWorktreeRemove unicodeLower (Some msg) = true ->
             exists res w' p mid v' r',
               Sys.run world attempt w
               = (res, w',
                  [Sys.Ev (Sys.Getenv Manager.timeoutEnv) v; Sys.Ev remove r;
                   Sys.Ev prune p]
                  ++ mid
                  ++ [Sys.Ev (Sys.Getenv Manager.timeoutEnv) v';
                      Sys.Ev (Notions.gitExec repoRoot
                                (Manager.timeoutSeconds v') args) r'])
               /\ res = match Sys.pr_err r' with
                        | None => (warnings ++ [Notions.retryNote], None)
                        | Some _ =>
                            (warnings,
                             Notions.quietError (Manager.timeoutSeconds v')
                               (lit "git") args r')
                        end)).
Proof.
  split; [|split; [|split]].
  - intros err. rewrite RetryFacts.add_markers. destruct err as [msg|].
    + unfold Spec.mentions. rewrite existsb_exists. split.
      * intros (marker & Hin & Hc). eauto.
      * intros (msg' & marker & Hm & Hin & Hc). injection Hm as <-. eauto.
    + split; [discriminate|]. intros (msg & marker & Hm & _). discriminate.
  - intros err. rewrite RetryFacts.remove_markers. destruct err as [msg|].
    + unfold Spec.mentions. rewrite existsb_exists. split.
      * intros (marker & Hin & Hc). eauto.
      * intros (msg' & marker & Hm & Hin & Hc). injection Hm as <-. eauto.
    + split; [discriminate|]. intros (msg & marker & Hm & _). discriminate.
  - intros W world repoRoot args w v w1 r w2 err timeout add prune msg attempt
           Hv Hr Herr.
    assert (Hq : Notions.quietError timeout (lit "git") (Notions.addArgs args) r
                 = Some msg)
      by (unfold Notions.quietError; rewrite Herr; reflexivity).
    pose proof (RetryFacts.run_timeout world _ _ _ Hv) as Ht.
    pose proof (RetryFacts.run_quietTimeout world _ _ _ _ _ _ _ Hr) as Ha.
    rewrite Hq in Ha.
    split.
    + intros Hno. unfold attempt, Manager.runGitWorktreeAdd.
      apply (RunFacts.run_bind_eq world _ _ _ _ _ _ _ _ _ Ht).
      change [Sys.Ev add r] with ([Sys.Ev add r] ++ []).
      apply (RunFacts.run_bind_eq world _ _ _ _ _ _ _ _ _ Ha).
      rewrite Hno. reflexivity.
    + intros Hyes p w3 r' w4 Hp Hr'. unfold attempt, Manager.runGitWorktreeAdd.
      apply (RunFacts.run_bind_eq world _ _ _ _ _ _ _ _ _ Ht).
      change [Sys.Ev add r; Sys.Ev prune p; Sys.Ev add r']
        with ([Sys.Ev add r] ++ [Sys.Ev prune p] ++ [Sys.Ev add r'] ++ []).
      apply (RunFacts.run_bind_eq world _ _ _ _ _ _ _ _ _ Ha).
      rewrite Hyes.
      apply (RunFacts.run_bind_eq world _ _ _ _ _ _ _ _ _
               (RetryFacts.run_quiet world _ _ _ _ _ _ Hp)).
      apply (RunFacts.run_bind_eq world _ _ _ _ _ _ _ _ _
               (RetryFacts.run_quietTimeout world _ _ _ _ _ _ _ Hr')).
      destruct (Notions.quietError timeout (lit "git")
                  (Notions.addArgs args) r'); reflexivity.
  - intros W world repoRoot wt force session warnings w v w1 r w2 err timeout
           args remove prune msg attempt Hv Hr Herr.
    pose proof (RetryFacts.run_remove world _ _ _ _ _ _ _ _ Hv Hr) as Ha.
    assert (Hq : Notions.quietError timeout (lit "git") args r = Some msg)
      by (unfold Notions.quietError; rewrite Herr; reflexivity).
    fold timeout args in Ha. rewrite Hq in Ha. fold remove in Ha.
    split.
    + intros Hno. unfold attempt, Manager.removeWithRetry.
      rewrite <- (app_nil_r [_; _]).
      apply (RunFacts.run_bind_eq world _ _ _ _ _ _ _ _ _ Ha).
      rewrite Hno. reflexivity.
    + intros Hyes. unfold attempt, Manager.removeWithRetry.
      destruct (world _ prune w2) as [p w3] eqn:Hp.
      match goal with
      | |- context [Sys.pbind (if negb (str_eqb session []) then ?a else ?b)] =>
          destruct (Sys.run world
                      (if negb (str_eqb session []) then a else b) w3)
            as [[u w4] mid] eqn:Hmid
      end.
      destruct (world _ (Sys.Getenv Manager.timeoutEnv) w4) as [v' w5] eqn:Hv'.
      destruct (world _ (Notions.gitExec repoRoot (Manager.timeoutSeconds v')
                           args) w5) as [r' w6] eqn:Hr'.
      pose proof (RetryFacts.run_remove world _ _ _ _ _ _ _ _ Hv' Hr') as Hb.
      eexists _, w6, p, mid, v', r'. split; [|reflexivity].
      change [Sys.Ev (Sys.Getenv Manager.timeoutEnv) v; Sys.Ev remove r;
              Sys.Ev prune p]
        with ([Sys.Ev (Sys.Getenv Manager.timeoutEnv) v; Sys.Ev remove r]
                ++ [Sys.Ev prune p]).
      rewrite <- app_assoc.
      apply (RunFacts.run_bind_eq world _ _ _ _ _ _ _ _ _ Ha).
      rewrite Hyes.
      apply (RunFacts.run_bind_eq world _ _ _ _ _ _ _ _ _
               (RetryFacts.run_quiet world _ _ _ _ _ _ Hp)).
      apply (RunFacts.run_bind_eq world _ _ _ _ _ _ _ _ _ Hmid).
      rewrite <- (app_nil_r [_; _]).
      apply (RunFacts.run_bind_eq world _ _ _ _ _ _ _ _ _ Hb).
      unfold Notions.quietError. fold args.
      destruct (Sys.pr_err r'); reflexivity.
Qed.

Lemma retry_exactly_on_markers_witness :
  Manager.shouldRetryWorktreeAdd (fun s => s)
    (Some (lit "fatal: 'x' is Already Checked Out at '/w/x'")) = true
  /\ length (snd (Sys.run Sim.world
                    (Manager.runGitWorktreeAdd (fun s => s) (lit "/r/repo")
                       [lit "/r/w"; lit "feature/existing"])
                    Cases.withExistingWorktree)) = 4%nat.
Proof.
  pose proof (retry_exactly_on_markers (fun s => s)) as (HA & _ & HC & _).
  split.
  - apply HA. exists (lit "fatal: 'x' is Already Checked Out at '/w/x'").
    exists (lit "already checked out").
    split; [reflexivity|]. split; [|reflexivity].
    right. left. reflexivity.
  - eassert (H1 : Sim.world _ (Sys.Getenv Manager.timeoutEnv)
                    Cases.withExistingWorktree = _)
      by (vm_compute; reflexivity).
    eassert (H2 : Sim.world _
                    (Notions.gitExec (lit "/r/repo") (Manager.timeoutSeconds [])
                       (Notions.addArgs [lit "/r/w"; lit "feature/existing"]))
                    Cases.withExistingWorktree = _)
      by (vm_compute; reflexivity).
    eassert (H3 : Sim.world _
                    (Notions.gitExec (lit "/r/repo") 0 Notions.pruneArgs)
                    Cases.withExistingWorktree = _)
      by (vm_compute; reflexivity).
    destruct (HC Sim.state Sim.world (lit "/r/repo")
                 [lit "/r/w"; lit "feature/existing"]
                 Cases.withExistingWorktree _ _ _ _ _ H1 H2 eq_refl)
      as [_ Hretry].
    rewrite (Hretry ltac:(vm_compute; reflexivity) _ _ _ _ H3 H2).
    reflexivity.
Defined.

(** ** The timeout of [git worktree add] and [git worktree remove] *)

Module TimeoutFacts.

Lemma Atoi_numeral s :
  Strconv.Atoi s
  = match Spec.numeral s with
    | Some n =>
        if (- 2 ^ 63 <=? n) && (n <=? 2 ^ 63 - 1) then Some n else None
    | None => None
    end.
Proof.
  unfold Strconv.Atoi, Spec.numeral.
  destruct s as [|c cs]; [reflexivity|].
  destruct (isb 45 c).
  - destruct cs as [|d ds]; [reflexivity|].
    destruct (Strconv.digitsValue 0 (d :: ds)); reflexivity.
  - destruct (isb 43 c).
    + destruct cs as [|d ds]; [reflexivity|].
      destruct (Strconv.digitsValue 0 (d :: ds)); reflexivity.
    + destruct (Strconv.digitsValue 0 (c :: cs)); reflexivity.
Qed.

End TimeoutFacts.

(** A number of seconds too large for an [int] gives the default, not the
    ceiling. *)
Lemma timeout_overflow_not_clamped :
  Spec.timeoutAsDocumented (lit "99999999999999999999") = 600
  /\ Manager.timeoutSeconds (lit "99999999999999999999") = 45.
Proof. split; reflexivity. Qed.

(** C5, as amended.  The timeout is 45 s when
    [SPROUT_GIT_WORKTREE_TIMEOUT_SECONDS] is unset, or is, once trimmed,
    not a decimal integer (optional sign, digits), or is one that does not
    fit in a 64-bit [int]; otherwise it is that number of seconds clamped to
    [5 s, 600 s].  So [2] gives 5 s, [10000] gives 600 s and [120] gives
    120 s. *)
Theorem timeout_default_and_clamp (v : str) :
  (Spec.numeral (Strings.TrimSpace v) = None -> Manager.timeoutSeconds v = 45)
  /\ (forall n,
         Spec.numeral (Strings.TrimSpace v) = Some n ->
         (- 2 ^ 63 <= n <= 2 ^ 63 - 1 ->
          Manager.timeoutSeconds v = Z.max 5 (Z.min 600 n))
         /\ (~ (- 2 ^ 63 <= n <= 2 ^ 63 - 1) -> Manager.timeoutSeconds v = 45))
  /\ 5 <= Manager.timeoutSeconds v <= 600
  /\ (forall (W : Type) (world : Sys.World W) (w : W),
         Sys.run world Manager.gitWorktreeCommandTimeout w
         = let '(x, w1) := world _ (Sys.Getenv Manager.timeoutEnv) w in
           (Manager.timeoutSeconds x, w1,
            [Sys.Ev (Sys.Getenv Manager.timeoutEnv) x]))
  /\ Manager.timeoutSeconds (lit "") = 45
  /\ Manager.timeoutSeconds (lit "2") = 5
  /\ Manager.timeoutSeconds (lit "10000") = 600
  /\ Manager.timeoutSeconds (lit "120") = 120.
Proof.
  assert (Hshape :
            Manager.timeoutSeconds v
            = match Spec.numeral (Strings.TrimSpace v) with
              | Some n =>
                  if (- 2 ^ 63 <=? n) && (n <=? 2 ^ 63 - 1)
                  then Z.max 5 (Z.min 600 n) else 45
              | None => 45
              end).
  { unfold Manager.timeoutSeconds. cbv zeta.
    rewrite TimeoutFacts.Atoi_numeral.
    destruct (str_eqb (Strings.TrimSpace v) []) eqn:E.
    - apply str_eqb_eq in E. rewrite E. reflexivity.
    - destruct (Spec.numeral (Strings.TrimSpace v)) as [n|]; [|reflexivity].
      destruct ((- 2 ^ 63 <=? n) && (n <=? 2 ^ 63 - 1)); [|reflexivity].
      destruct (n <? 5) eqn:L1.
      + apply Z.ltb_lt in L1.
        replace (5 >? 600) with false by reflexivity. lia.
      + apply Z.ltb_ge in L1. rewrite Z.gtb_ltb.
        destruct (600 <? n) eqn:L2;
          [apply Z.ltb_lt in L2 | apply Z.ltb_ge in L2]; lia. }
  split; [|split; [|split; [|split]]].
  - intros H. rewrite Hshape, H. reflexivity.
  - intros n H. split; intros R; rewrite Hshape, H.
    + replace ((- 2 ^ 63 <=? n) && (n <=? 2 ^ 63 - 1)) with true;
        [reflexivity|].
      symmetry. apply andb_true_iff. split; apply Z.leb_le; lia.
    + destruct ((- 2 ^ 63 <=? n) && (n <=? 2 ^ 63 - 1)) eqn:E;
        [|reflexivity].
      apply andb_true_iff in E as [E1 E2].
      apply Z.leb_le in E1. apply Z.leb_le in E2. exfalso. apply R. lia.
  - rewrite Hshape. destruct (Spec.numeral _) as [n|]; [|lia].
    destruct (_ && _); lia.
  - intros W world w.
    unfold Manager.gitWorktreeCommandTimeout, Sys.call, Sys.ret.
    cbn [Sys.pbind Sys.run].
    destruct (world _ (Sys.Getenv Manager.timeoutEnv) w). reflexivity.
  - repeat split.
Qed.

Lemma timeout_default_and_clamp_witness :
  Manager.timeoutSeconds (lit " -3 ") = 5
  /\ Manager.timeoutSeconds (lit "soon") = 45.
Proof.
  split.
  - apply (proj1 (proj2 (timeout_default_and_clamp (lit " -3 "))) (-3)
             eq_refl).
    vm_compute. split; discriminate.
  - apply (proj1 (timeout_default_and_clamp (lit "soon"))). reflexivity.
Defined.

(** ** Capturing a pane *)

Module CaptureFacts.
Import Sys Runner Manager Notions.

Lemma run_output {W : Type} (world : World W) dir name args w r w1 :
  world _ (Exec dir 0 name args) w = (r, w1) ->
  run world (runCmdOutput dir name args) w
  = (outputOf name args r, w1, [Ev (Exec dir 0 name args) r]).
Proof.
  intros H. unfold runCmdOutput, runCmdBytes, runCmdBytesWithTimeout,
              call, ret, outputOf.
  cbn [pbind run]. rewrite H. destruct (pr_err r); reflexivity.
Qed.

(** The height that remains when the multiplexer reports none. *)
Lemma captureStart_fallback lines flag x y :
  let pm := {| cursorFlag := flag; cursorX := x; cursorY := y;
               paneHeight := if lines <=? 0 then 120 else lines |} in
  0 < paneHeight pm
  /\ captureStart lines pm = (if lines <=? 0 then 120 else lines).
Proof.
  unfold captureStart. cbn [paneHeight].
  destruct (lines <=? 0) eqn:E.
  - split; [lia|]. reflexivity.
  - apply Z.leb_gt in E. rewrite Z.ltb_irrefl. split; [lia | reflexivity].
Qed.

Lemma captureStart_max lines pm :
  0 < paneHeight pm ->
  captureStart lines pm = Z.max lines (paneHeight pm).
Proof.
  intros H. unfold captureStart.
  destruct (lines <=? 0) eqn:E.
  - apply Z.leb_le in E. rewrite Z.ltb_irrefl. lia.
  - apply Z.leb_gt in E.
    destruct (lines <? paneHeight pm) eqn:L;
      [apply Z.ltb_lt in L | apply Z.ltb_ge in L]; lia.
Qed.

End CaptureFacts.

(** A pane of 300 rows, and a request for 200 lines, both capture more
    than 120 lines. *)
Lemma capture_exceeds_120 :
  let tall := Manager.paneMeta 60 (Ok (lit "1 3 7 300")) in
  let short := Manager.paneMeta 200 (Ok (lit "1 3 7 40")) in
  Manager.paneHeight tall = 300 /\ Manager.captureStart 60 tall = 300
  /\ Manager.paneHeight short = 40 /\ Manager.captureStart 200 short = 200
  /\ ~ (Manager.captureStart 60 tall <= 120)
  /\ ~ (Manager.captureStart 200 short <= 120).
Proof. vm_compute. repeat split; intros H; apply H; reflexivity. Qed.

(** C7, as amended.  [tmuxCapturePaneWithCursor] asks [tmux capture-pane]
    for [S] lines back.  When the multiplexer reports a pane height [h > 0]
    (four fields, the last three of them integers), the pane height is [h]
    and [S] is the larger of the requested count and [h]; when it reports
    none, [S] is the requested count, or 120 when that is not positive.
    [S] is never less than the requested count, so it has no upper
    bound. *)
Theorem capture_start_lines
        (overlay : str -> Z -> str) (paneTarget : str) (lines : Z) :
  (forall meta : result str,
      let pm := Manager.paneMeta lines meta in
      let S := Manager.captureStart lines pm in
      0 < S /\ lines <= S /\ Manager.paneHeight pm <= S
      /\ (forall h, Notions2.reportsHeight meta h ->
            Manager.paneHeight pm = h /\ S = Z.max lines h)
      /\ ((forall h, ~ Notions2.reportsHeight meta h) ->
            S = (if lines <=? 0 then 120 else lines))
      /\ ((exists h, Notions2.reportsHeight meta h)
          \/ (forall h, ~ Notions2.reportsHeight meta h)))
  /\ (forall (W : Type) (world : Sys.World W) (w w1 : W) (r : Sys.ProcResult),
         let display := Notions.tmuxExec (Manager.displayArgs paneTarget) in
         let S := Manager.captureStart lines
                    (Manager.paneMeta lines
                       (Notions.outputOf (lit "tmux")
                          (Manager.displayArgs paneTarget) r)) in
         world _ display w = (r, w1) ->
         exists res w2 cap,
           Sys.run world
             (Manager.tmuxCapturePaneWithCursor overlay paneTarget lines) w
           = (res, w2,
              [Sys.Ev display r;
               Sys.Ev (Notions.tmuxExec
                         [lit "capture-pane"; lit "-p"; lit "-N"; lit "-e";
                          lit "-t"; paneTarget; lit "-S";
                          lit "-" ++ Strconv.Itoa S]) cap])).
Proof.
  split.
  - intros meta pm S.
    assert (Hfall : forall flag x y,
               (forall h, ~ Notions2.reportsHeight meta h) ->
               pm = {| Manager.cursorFlag := flag; Manager.cursorX := x;
                       Manager.cursorY := y;
                       Manager.paneHeight :=
                         if lines <=? 0 then 120 else lines |} ->
               0 < S /\ lines <= S /\ Manager.paneHeight pm <= S
               /\ (forall h, Notions2.reportsHeight meta h ->
                     Manager.paneHeight pm = h /\ S = Z.max lines h)
               /\ ((forall h, ~ Notions2.reportsHeight meta h) ->
                     S = (if lines <=? 0 then 120 else lines))
               /\ ((exists h, Notions2.reportsHeight meta h)
                   \/ (forall h, ~ Notions2.reportsHeight meta h))).
    { intros flag x y Hno E. unfold S. rewrite E.
      destruct (CaptureFacts.captureStart_fallback lines flag x y) as [H1 H2].
      cbv zeta in H1, H2. rewrite H2. cbn [Manager.paneHeight] in *.
      split; [|split; [|split; [|split; [|split]]]].
      - exact H1.
      - destruct (lines <=? 0) eqn:L;
          [apply Z.leb_le in L | apply Z.leb_gt in L]; lia.
      - lia.
      - intros h Hh. destruct (Hno h Hh).
      - reflexivity.
      - right. exact Hno. }
    unfold pm in *. unfold Manager.paneMeta in *.
    destruct meta as [text|e].
    2:{ eapply Hfall; [|reflexivity].
        intros h (text & p0 & p1 & p2 & p3 & x & y & E & _). discriminate. }
    destruct (Strings.Fields (Strings.TrimSpace text))
      as [|p0 [|p1 [|p2 [|p3 [|p4 more]]]]] eqn:F;
      try (eapply Hfall; [|reflexivity];
           intros h (text' & q0 & q1 & q2 & q3 & x & y & E & F' & _);
           injection E as <-; rewrite F in F'; discriminate).
    assert (Hparse : forall h,
               Notions2.reportsHeight (Ok text) h ->
               exists x y, Strconv.Atoi p1 = Some x /\ Strconv.Atoi p2 = Some y
                           /\ Strconv.Atoi p3 = Some h /\ 0 < h).
    { intros h (text' & q0 & q1 & q2 & q3 & x & y & E & F' & A1 & A2 & A3 & P).
      injection E as <-. rewrite F in F'. injection F' as <- <- <- <-.
      exists x, y. auto. }
    destruct (Strconv.Atoi p1) as [x|] eqn:A1.
    2:{ eapply Hfall; [|reflexivity]. intros h Hh.
        destruct (Hparse h Hh) as (x & y & B1 & _). discriminate. }
    destruct (Strconv.Atoi p2) as [y|] eqn:A2.
    2:{ eapply Hfall; [|reflexivity]. intros h Hh.
        destruct (Hparse h Hh) as (x' & y & _ & B2 & _). discriminate. }
    destruct (Strconv.Atoi p3) as [h|] eqn:A3.
    2:{ eapply Hfall; [|reflexivity]. intros h Hh.
        destruct (Hparse h Hh) as (x' & y' & _ & _ & B3 & _). discriminate. }
    destruct (0 <? h) eqn:P.
    2:{ eapply Hfall; [|reflexivity]. intros h' Hh.
        destruct (Hparse h' Hh) as (x' & y' & _ & _ & B3 & P').
        injection B3 as <-. apply Z.ltb_ge in P. lia. }
    apply Z.ltb_lt in P.
    assert (Hrep : Notions2.reportsHeight (Ok text) h).
    { exists text, p0, p1, p2, p3, x, y. repeat split; auto. }
    assert (HS : S = Z.max lines h).
    { unfold S. rewrite CaptureFacts.captureStart_max; [reflexivity|].
      exact P. }
    cbn [Manager.paneHeight]. rewrite HS.
    split; [lia|]. split; [lia|]. split; [lia|].
    split; [|split].
    + intros h' Hh. destruct (Hparse h' Hh) as (x' & y' & _ & _ & B3 & _).
      injection B3 as <-. split; reflexivity.
    + intros Hno. destruct (Hno h Hrep).
    + left. exists h. exact Hrep.
  - intros W world w w1 r display S Hd.
    unfold Manager.tmuxCapturePaneWithCursor.
    pose proof (CaptureFacts.run_output world _ _ _ _ _ _ Hd) as H1.
    set (capture := Notions.tmuxExec _).
    destruct (world _ capture w1) as [cap w2] eqn:Hc.
    pose proof (CaptureFacts.run_output world _ _ _ _ _ _ Hc) as H2.
    destruct (Notions.outputOf _ _ cap) as [out|e];
      eexists _, w2, cap;
      change [Sys.Ev display r; Sys.Ev capture cap]
        with ([Sys.Ev display r] ++ [Sys.Ev capture cap] ++ []);
      apply (RunFacts.run_bind_eq world _ _ _ _ _ _ _ _ _ H1);
      apply (RunFacts.run_bind_eq world _ _ _ _ _ _ _ _ _ H2);
      reflexivity.
Qed.

(** A pane that reports 300 rows, asked for 60 lines: the capture goes
    300 lines back. *)
Lemma capture_start_lines_witness :
  let meta := Ok (lit "1 3 7 300") in
  let pane := lit "sprout-repo-shared:agent-shared.0" in
  Notions2.reportsHeight meta 300
  /\ Manager.paneHeight (Manager.paneMeta 60 meta) = 300
  /\ Manager.captureStart 60 (Manager.paneMeta 60 meta) = Z.max 60 300
  /\ exists res w2 cap,
       Sys.run (Fake.world (fun _ _ _ => Fake.ok (lit "1 3 7 300")) [])
         (Manager.tmuxCapturePaneWithCursor (fun row _ => row) pane 60) tt
       = (res, w2,
          [Sys.Ev (Notions.tmuxExec (Manager.displayArgs pane))
                  (Fake.ok (lit "1 3 7 300"));
           Sys.Ev (Notions.tmuxExec
                     [lit "capture-pane"; lit "-p"; lit "-N"; lit "-e";
                      lit "-t"; pane; lit "-S"; lit "-300"]) cap]).
Proof.
  cbv zeta.
  assert (Hrep : Notions2.reportsHeight (Ok (lit "1 3 7 300")) 300).
  { exists (lit "1 3 7 300"), (lit "1"), (lit "3"), (lit "7"), (lit "300"),
      3, 7.
    repeat split; reflexivity. }
  pose proof (capture_start_lines (fun row _ => row)
                (lit "sprout-repo-shared:agent-shared.0") 60) as [H1 H2].
  split; [exact Hrep|].
  destruct (H1 (Ok (lit "1 3 7 300"))) as (_ & _ & _ & Hmax & _).
  destruct (Hmax 300 Hrep) as [Hh HS].
  split; [exact Hh|]. split; [exact HS|].
  exact (H2 unit (Fake.world (fun _ _ _ => Fake.ok (lit "1 3 7 300")) [])
            tt tt (Fake.ok (lit "1 3 7 300")) eq_refl).
Defined.

(** ** Ready or busy *)

(** *** The matcher and the strings of a pattern *)

Module LangFacts.
Import Re Lang.

Lemma nullable_lang r : nullable r = true <-> lang r [].
Proof.
  induction r as [| |p|a IHa b IHb|a IHa b IHb|a IHa]; cbn [nullable lang].
  - split; [discriminate | intros []].
  - split; reflexivity.
  - split; [discriminate | intros (c & E & _); discriminate].
  - rewrite andb_true_iff, IHa, IHb. split.
    + intros [Ha Hb]. exists [], []. auto.
    + intros (s1 & s2 & E & Ha & Hb). symmetry in E.
      apply app_eq_nil in E as [-> ->]. auto.
  - rewrite orb_true_iff, IHa, IHb. reflexivity.
  - split; [intros _; constructor | reflexivity].
Qed.

Lemma star_cons (L : str -> Prop) t :
  star L t ->
  forall c s, t = c :: s ->
    exists s1 s2, s = s1 ++ s2 /\ L (c :: s1) /\ star L s2.
Proof.
  induction 1 as [|s1 s2 H1 H2 IH]; intros c s E; [discriminate|].
  destruct s1 as [|d s1'].
  - apply (IH c s E).
  - injection E as -> <-. exists s1', s2. auto.
Qed.

Lemma deriv_lang c r : forall s, lang (deriv c r) s <-> lang r (c :: s).
Proof.
  induction r as [| |p|a IHa b IHb|a IHa b IHb|a IHa]; intros s;
    cbn [deriv lang].
  - reflexivity.
  - split; [intros [] | discriminate].
  - destruct (p c) eqn:P; cbn [lang].
    + split.
      * intros ->. exists c. auto.
      * intros (d & E & _). injection E as _ ->. reflexivity.
    + split; [intros [] |].
      intros (d & E & Pd). injection E as <- _. congruence.
  - assert (Hcat : lang (Cat (deriv c a) b) s
                   <-> exists s1 s2, c :: s = s1 ++ s2 /\ s1 <> []
                                     /\ lang a s1 /\ lang b s2).
    { cbn [lang]. split.
      - intros (s1 & s2 & -> & Ha & Hb). exists (c :: s1), s2.
        split; [reflexivity|]. split; [discriminate|].
        split; [apply IHa, Ha | exact Hb].
      - intros (s1 & s2 & E & Hne & Ha & Hb).
        destruct s1 as [|d s1']; [congruence|]. injection E as <- ->.
        exists s1', s2. split; [reflexivity|].
        split; [apply IHa, Ha | exact Hb]. }
    destruct (nullable a) eqn:N.
    + change (lang (Alt (Cat (deriv c a) b) (deriv c b)) s)
        with (lang (Cat (deriv c a) b) s \/ lang (deriv c b) s).
      rewrite Hcat, IHb. split.
      * intros [(s1 & s2 & E & _ & Ha & Hb) | Hb].
        -- exists s1, s2. auto.
        -- exists [], (c :: s). split; [reflexivity|].
           split; [apply nullable_lang, N | exact Hb].
      * intros (s1 & s2 & E & Ha & Hb). destruct s1 as [|d s1'].
        -- right. cbn [app] in E. rewrite E. exact Hb.
        -- left. exists (d :: s1'), s2. repeat split; auto. discriminate.
    + rewrite Hcat. split.
      * intros (s1 & s2 & E & _ & Ha & Hb). exists s1, s2. auto.
      * intros (s1 & s2 & E & Ha & Hb). destruct s1 as [|d s1'].
        -- apply nullable_lang in Ha. congruence.
        -- exists (d :: s1'), s2. repeat split; auto. discriminate.
  - rewrite IHa, IHb. reflexivity.
  - split.
    + intros (s1 & s2 & -> & Ha & Hs).
      change (c :: s1 ++ s2) with ((c :: s1) ++ s2).
      constructor; [apply IHa, Ha | exact Hs].
    + intros H. destruct (star_cons _ _ H c s eq_refl)
        as (s1 & s2 & -> & Ha & Hs).
      exists s1, s2. split; [reflexivity|]. split; [apply IHa, Ha | exact Hs].
Qed.

(** The matcher decides the strings of the pattern. *)
Lemma matches_lang : forall s r, matches r s = true <-> lang r s.
Proof.
  unfold matches.
  induction s as [|c s IH]; intros r; cbn [fold_left].
  - apply nullable_lang.
  - rewrite IH. apply deriv_lang.
Qed.

Lemma lang_Lit : forall p s, lang (Lit p) s <-> s = p.
Proof.
  induction p as [|c p IH]; intros s; cbn [Lit lang]; [reflexivity|].
  split.
  - intros (s1 & s2 & -> & (d & -> & Hd) & H2). apply IH in H2 as ->.
    destruct (ascii_dec d c) as [->|]; [reflexivity | discriminate].
  - intros ->. exists [c], p. split; [reflexivity|]. split.
    + exists c. split; [reflexivity|].
      destruct (ascii_dec c c); [reflexivity | congruence].
    + apply IH. reflexivity.
Qed.

Lemma lang_AltOf : forall l s, lang (AltOf (map Lit l)) s <-> In s l.
Proof.
  induction l as [|p l IH]; intros s; [reflexivity|].
  destruct l as [|q l].
  - cbn [map AltOf In]. rewrite lang_Lit. split; [auto|].
    intros [H|[]]. auto.
  - change (lang (AltOf (map Lit (p :: q :: l))) s)
      with (lang (Lit p) s \/ lang (AltOf (map Lit (q :: l))) s).
    rewrite lang_Lit, IH. cbn [In]. split; intros [H|H]; auto.
Qed.

Lemma lang_star_byte p : forall s,
  star (lang (Byte p)) s <-> forallb p s = true.
Proof.
  intros s. split.
  - induction 1 as [|s1 s2 (c & -> & Hc) _ IH]; [reflexivity|].
    cbn [app forallb]. rewrite Hc. exact IH.
  - induction s as [|c s IH]; intros H; [constructor|].
    cbn [forallb] in H. apply andb_true_iff in H as [Hc Hs].
    change (c :: s) with ([c] ++ s). constructor; [|apply IH, Hs].
    exists c. auto.
Qed.

Lemma forallb_ext_in {A : Type} (f g : A -> bool) l :
  (forall x, f x = g x) -> forallb f l = forallb g l.
Proof.
  intros E. induction l as [|x l IH]; [reflexivity|].
  cbn [forallb]. rewrite E, IH. reflexivity.
Qed.

Lemma space_white c :
  (isb 9 c || isb 10 c || isb 12 c || isb 13 c || isb 32 c)
  = Spec.white c.
Proof.
  unfold Spec.white. cbn [existsb].
  destruct (isb 9 c), (isb 10 c), (isb 12 c), (isb 13 c), (isb 32 c);
    reflexivity.
Qed.

(** The prompt-only pattern of the program matches the lines that the
    documented pattern describes. *)
Lemma promptOnly_matches line :
  matches UI.agentPromptOnlyRe line = true <-> Spec.promptOnly line.
Proof.
  rewrite matches_lang. unfold UI.agentPromptOnlyRe, UI.prompt, space.
  cbn [lang]. unfold Spec.promptOnly. split.
  - intros (p & ws & -> & Hp & Hws). exists p, ws.
    apply lang_AltOf in Hp. apply lang_star_byte in Hws.
    rewrite (forallb_ext_in _ _ _ space_white) in Hws. auto.
  - intros (p & ws & Hp & Hws & ->). exists p, ws.
    split; [reflexivity|]. split.
    + apply lang_AltOf. exact Hp.
    + apply lang_star_byte.
      rewrite (forallb_ext_in _ _ _ space_white). exact Hws.
Qed.

(** And so does the prompt-with-text pattern. *)
Lemma promptWithText_matches line :
  matches UI.agentPromptInputRe line = true <-> Spec.promptWithText line.
Proof.
  rewrite matches_lang. unfold UI.agentPromptInputRe, UI.prompt, Plus,
    space, dot.
  cbn [lang]. unfold Spec.promptWithText. split.
  - intros (p & rest & -> & Hp & (ws & text & -> &
              (w1 & ws' & -> & (c & -> & Hc) & Hws) & Htext)).
    exists p, (c :: ws'), text.
    apply lang_AltOf in Hp. apply lang_star_byte in Hws, Htext.
    split; [exact Hp|]. split; [discriminate|]. split.
    + cbn [forallb]. rewrite <- space_white, Hc.
      rewrite <- (forallb_ext_in _ _ _ space_white). exact Hws.
    + split; [exact Htext | reflexivity].
  - intros (p & ws & text & Hp & Hne & Hws & Htext & ->).
    destruct ws as [|c ws']; [congruence|].
    cbn [forallb] in Hws. apply andb_true_iff in Hws as [Hc Hws].
    exists p, ((c :: ws') ++ text). split; [reflexivity|]. split.
    + apply lang_AltOf. exact Hp.
    + exists (c :: ws'), text. split; [reflexivity|]. split.
      * exists [c], ws'. split; [reflexivity|]. split.
        -- exists c. split; [reflexivity|]. rewrite space_white. exact Hc.
        -- apply lang_star_byte.
           rewrite (forallb_ext_in _ _ _ space_white). exact Hws.
      * apply lang_star_byte. exact Htext.
Qed.

End LangFacts.

(** *** Stripping the escape sequences *)

Module AnsiFacts.
Import Strings UI Spec Notions2.

Lemma strip_csi : forall body tail,
  csiBody body = true ->
  stripFrom CSI (body ++ tail) = stripFrom CSI tail.
Proof.
  induction body as [|c body IH]; intros tail H; [reflexivity|].
  cbn [csiBody forallb] in H. apply andb_true_iff in H as [Hc Hb].
  cbn [app stripFrom]. unfold csiFinal in Hc.
  apply negb_true_iff in Hc. rewrite Hc. apply IH, Hb.
Qed.

Lemma strip_osc : forall body tail,
  oscBody body = true -> noBackslash tail ->
  stripFrom OSC (body ++ tail) = stripFrom OSC tail.
Proof.
  induction body as [|c body IH]; intros tail H Ht; [reflexivity|].
  cbn [oscBody] in H.
  apply andb_true_iff in H as [H Hb]. apply andb_true_iff in H as [H7 H27].
  apply negb_true_iff in H7, H27.
  cbn [app stripFrom]. rewrite H7.
  destruct (isb 27 c) eqn:E27; [|apply IH; assumption].
  cbn [andb] in H27.
  destruct body as [|d body'].
  - cbn [app]. destruct tail as [|d tail']; [reflexivity|].
    cbn [noBackslash] in Ht. rewrite Ht. reflexivity.
  - cbn [app]. rewrite H27. apply (IH tail Hb Ht).
Qed.

Lemma esc_is : isb 27 esc = true.
Proof. reflexivity. Qed.

(** A complete piece is dropped, or kept when it is a visible byte, and
    the scan goes on after it. *)
Lemma strip_complete p more :
  complete p = true ->
  stripFrom Text (render1 p ++ more) = visible1 p ++ stripFrom Text more.
Proof.
  destruct p as [c|body final|body st|c| | |]; cbn [complete];
    intros H; try discriminate.
  - apply negb_true_iff in H. cbn [render1 app stripFrom visible1].
    rewrite H. reflexivity.
  - apply andb_true_iff in H as [Hb Hf].
    cbn [render1 visible1 app]. cbn [stripFrom]. rewrite esc_is.
    change (isb 91 (chr 91)) with true. cbv iota.
    rewrite <- app_assoc. rewrite (strip_csi _ _ Hb).
    cbn [app stripFrom]. unfold csiFinal in Hf. rewrite Hf. reflexivity.
  - destruct st; cbn [render1 visible1 app]; cbn [stripFrom];
      rewrite esc_is; change (isb 91 (chr 93)) with false;
      change (isb 93 (chr 93)) with true; cbv iota;
      rewrite <- app_assoc.
    + rewrite (strip_osc _ _ H); [|reflexivity]. reflexivity.
    + rewrite (strip_osc _ _ H); [|reflexivity]. reflexivity.
  - apply andb_true_iff in H as [H1 H2]. apply negb_true_iff in H1, H2.
    cbn [render1 visible1 app stripFrom]. rewrite esc_is, H1, H2.
    reflexivity.
Qed.

(** A sequence that the end of the capture cuts short is dropped. *)
Lemma strip_cut p :
  cutShort p = true -> stripFrom Text (render1 p) = [].
Proof.
  destruct p as [c|body final|body st|c| |body|body]; cbn [cutShort];
    intros H; try discriminate.
  - reflexivity.
  - cbn [render1 stripFrom]. rewrite esc_is.
    change (isb 91 (chr 91)) with true. cbv iota.
    rewrite <- (app_nil_r body). rewrite (strip_csi _ _ H). reflexivity.
  - cbn [render1 stripFrom]. rewrite esc_is.
    change (isb 91 (chr 93)) with false.
    change (isb 93 (chr 93)) with true. cbv iota.
    rewrite <- (app_nil_r body). rewrite (strip_osc _ _ H); [|exact I].
    reflexivity.
Qed.

(** [stripANSI] leaves what is visible of a capture. *)
Lemma stripANSI_visible : forall pieces,
  wellFormed pieces = true ->
  stripANSI (render pieces) = visible pieces.
Proof.
  unfold stripANSI, render, visible.
  induction pieces as [|p rest IH]; intros H; [reflexivity|].
  cbn [map concat].
  destruct rest as [|q rest].
  - cbn [wellFormed] in H. cbn [map concat]. rewrite !app_nil_r.
    apply orb_true_iff in H as [H|H].
    + pose proof (strip_complete p [] H) as E.
      rewrite !app_nil_r in E. exact E.
    + rewrite (strip_cut p H).
      destruct p; try discriminate H; reflexivity.
  - change (wellFormed (p :: q :: rest))
      with (complete p && wellFormed (q :: rest)) in H.
    apply andb_true_iff in H as [Hp Hr].
    rewrite (strip_complete p _ Hp). rewrite (IH Hr). reflexivity.
Qed.

(** *** Every capture is made of such pieces *)

Lemma wellFormed_cons p pieces :
  complete p = true -> wellFormed pieces = true ->
  wellFormed (p :: pieces) = true.
Proof.
  intros Hp H. destruct pieces as [|q rest].
  - cbn [wellFormed]. rewrite Hp. reflexivity.
  - change (wellFormed (p :: q :: rest))
      with (complete p && wellFormed (q :: rest)).
    rewrite Hp. exact H.
Qed.

(** A CSI sequence ends at its first final byte, or runs to the end. *)
Lemma csi_split : forall s,
  csiBody s = true
  \/ exists body final rest,
       s = body ++ final :: rest
       /\ csiBody body = true /\ csiFinal final = true.
Proof.
  induction s as [|c s IH]; [left; reflexivity|].
  destruct (csiFinal c) eqn:F.
  - right. exists [], c, s. auto.
  - destruct IH as [H | (body & final & rest & -> & Hb & Hf)].
    + left. cbn [csiBody forallb]. rewrite F. exact H.
    + right. exists (c :: body), final, rest. split; [reflexivity|].
      split; [|exact Hf]. cbn [csiBody forallb]. rewrite F. exact Hb.
Qed.

Lemma oscBody_cons c s :
  isb 7 c = false -> isb 27 c = false -> oscBody s = true ->
  oscBody (c :: s) = true.
Proof.
  intros H7 H27 H. cbn [oscBody]. rewrite H7, H27, H. reflexivity.
Qed.

(** An OSC sequence ends at its first [BEL] or [ESC \], or runs to the
    end. *)
Lemma osc_split : forall n s, (length s <= n)%nat ->
  oscBody s = true
  \/ exists body st rest,
       s = body ++ (if st : bool then [esc; chr 92] else [chr 7]) ++ rest
       /\ oscBody body = true.
Proof.
  induction n as [|n IH]; intros s Hn.
  - destruct s; [left; reflexivity | cbn in Hn; lia].
  - destruct s as [|c s]; [left; reflexivity|]. cbn [length] in Hn.
    destruct (isb 7 c) eqn:E7.
    { right. exists [], false, s. split; [|reflexivity].
      apply Z.eqb_eq in E7. unfold code in E7.
      assert (c = chr 7) as ->; [|reflexivity].
      rewrite <- (ascii_N_embedding c). unfold chr. f_equal. lia. }
    destruct (isb 27 c) eqn:E27.
    + assert (c = esc) as ->.
      { apply Z.eqb_eq in E27. unfold code in E27.
        rewrite <- (ascii_N_embedding c). unfold esc, chr. f_equal. lia. }
      destruct s as [|d s'].
      * left. reflexivity.
      * destruct (isb 92 d) eqn:E92.
        -- right. exists [], true, s'. split; [|reflexivity].
           assert (d = chr 92) as ->; [|reflexivity].
           apply Z.eqb_eq in E92. unfold code in E92.
           rewrite <- (ascii_N_embedding d). unfold chr. f_equal. lia.
        -- destruct (IH (d :: s') ltac:(lia))
             as [H | (body & st & rest & E & Hb)].
           ++ left. change (oscBody (esc :: d :: s'))
                with (negb (isb 7 esc) && negb (isb 27 esc && isb 92 d)
                      && oscBody (d :: s')).
              rewrite E92, H. reflexivity.
           ++ right. exists (esc :: body), st, rest.
              split; [rewrite E; reflexivity|].
              destruct body as [|b body'].
              ** reflexivity.
              ** assert (b = d) as ->.
                 { destruct st; cbn [app] in E; injection E as <- _;
                     reflexivity. }
                 change (oscBody (esc :: d :: body'))
                   with (negb (isb 7 esc) && negb (isb 27 esc && isb 92 d)
                         && oscBody (d :: body')).
                 rewrite E92, Hb. reflexivity.
    + destruct (IH s ltac:(lia)) as [H | (body & st & rest & -> & Hb)].
      * left. apply oscBody_cons; assumption.
      * right. exists (c :: body), st, rest. split; [reflexivity|].
        apply oscBody_cons; assumption.
Qed.

(** Every capture has a reading as pieces. *)
Lemma pieces_exist : forall n input, (length input <= n)%nat ->
  exists pieces, wellFormed pieces = true /\ render pieces = input.
Proof.
  induction n as [|n IH]; intros input Hn.
  - destruct input; [|cbn in Hn; lia]. exists []. split; reflexivity.
  - destruct input as [|c input]; [exists []; split; reflexivity|].
    cbn [length] in Hn.
    destruct (isb 27 c) eqn:E27.
    2:{ destruct (IH input ltac:(lia)) as (ps & Hw & <-).
        exists (Plain c :: ps). split; [|reflexivity].
        apply wellFormed_cons; [|exact Hw]. cbn [complete].
        rewrite E27. reflexivity. }
    assert (c = esc) as ->.
    { apply Z.eqb_eq in E27. unfold code in E27.
      rewrite <- (ascii_N_embedding c). unfold esc, chr. f_equal. lia. }
    destruct input as [|d input].
    { exists [EscEnd]. split; reflexivity. }
    cbn [length] in Hn.
    destruct (isb 91 d) eqn:E91.
    { assert (d = chr 91) as ->.
      { apply Z.eqb_eq in E91. unfold code in E91.
        rewrite <- (ascii_N_embedding d). unfold chr. f_equal. lia. }
      destruct (csi_split input)
        as [H | (body & final & rest & -> & Hb & Hf)].
      - exists [CsiOpen input]. split.
        + cbn [wellFormed complete cutShort orb]. exact H.
        + unfold render. cbn [map concat render1]. rewrite app_nil_r.
          reflexivity.
      - destruct (IH rest) as (ps & Hw & <-).
        { rewrite length_app in Hn. cbn [length] in Hn. lia. }
        exists (Csi body final :: ps). split.
        + apply wellFormed_cons; [|exact Hw]. cbn [complete].
          rewrite Hb, Hf. reflexivity.
        + unfold render. cbn [map concat render1 app].
          rewrite <- app_assoc. reflexivity. }
    destruct (isb 93 d) eqn:E93.
    { assert (d = chr 93) as ->.
      { apply Z.eqb_eq in E93. unfold code in E93.
        rewrite <- (ascii_N_embedding d). unfold chr. f_equal. lia. }
      destruct (osc_split (length input) input (le_n _))
        as [H | (body & st & rest & -> & Hb)].
      - exists [OscOpen input]. split.
        + cbn [wellFormed complete cutShort orb]. exact H.
        + unfold render. cbn [map concat render1]. rewrite app_nil_r.
          reflexivity.
      - destruct (IH rest) as (ps & Hw & <-).
        { rewrite !length_app in Hn. lia. }
        exists (Osc body st :: ps). split.
        + apply wellFormed_cons; [|exact Hw]. exact Hb.
        + unfold render. cbn [map concat].
          destruct st; cbn [render1 app]; rewrite <- app_assoc;
            reflexivity. }
    destruct (IH input ltac:(lia)) as (ps & Hw & <-).
    exists (Esc2 d :: ps). split; [|reflexivity].
    apply wellFormed_cons; [|exact Hw]. cbn [complete].
    rewrite E91, E93. reflexivity.
Qed.

End AnsiFacts.

(** *** The loop over the lines *)

Module ReadyFacts.
Import Strings UI.

Section Ready.
Variable unicodeLower : str -> str.

Lemma lineReady_spec line :
  lineReady unicodeLower line = true
  <-> Spec.showsReady unicodeLower line.
Proof.
  unfold Spec.showsReady.
  rewrite <- LangFacts.promptOnly_matches, <- LangFacts.promptWithText_matches.
  unfold lineReady, Spec.readyMarkers.
  change Spec.blockGlyph with block.
  set (lower := ToLower unicodeLower line).
  split.
  - intros H.
    destruct (Contains lower (lit "for shortcuts")) eqn:M1;
      [right; right; eexists; split; [|exact M1]; simpl; tauto|].
    destruct (Contains lower (lit "context left")) eqn:M2;
      [right; right; eexists; split; [|exact M2]; simpl; tauto|].
    cbn [orb] in H.
    destruct (Re.matches agentPromptOnlyRe line) eqn:P1; [left; reflexivity|].
    destruct (Contains line block && Re.matches agentPromptInputRe line)
             eqn:P2.
    { apply andb_true_iff in P2. right. left. exact P2. }
    destruct (Contains lower (lit "awaiting your input")) eqn:M3;
      [right; right; eexists; split; [|exact M3]; simpl; tauto|].
    destruct (Contains lower (lit "waiting for your input")) eqn:M4;
      [right; right; eexists; split; [|exact M4]; simpl; tauto|].
    destruct (Contains lower (lit "ready for your next instruction"))
             eqn:M5;
      [right; right; eexists; split; [|exact M5]; simpl; tauto|].
    destruct (Contains lower (lit "what would you like to do next"))
             eqn:M6;
      [right; right; eexists; split; [|exact M6]; simpl; tauto|].
    destruct (Contains lower (lit "enter your prompt")) eqn:M7;
      [right; right; eexists; split; [|exact M7]; simpl; tauto|].
    discriminate.
  - intros [H | [[H1 H2] | (marker & Hin & Hc)]].
    + rewrite H.
      destruct (Contains lower (lit "for shortcuts")
                || Contains lower (lit "context left")); reflexivity.
    + rewrite H1, H2.
      destruct (Contains lower (lit "for shortcuts")
                || Contains lower (lit "context left")); [reflexivity|].
      destruct (Re.matches agentPromptOnlyRe line); reflexivity.
    + cbn [In] in Hin.
      destruct Hin as [<-|[<-|[<-|[<-|[<-|[<-|[<-|[]]]]]]]];
        rewrite Hc;
        repeat first [ reflexivity
                     | rewrite orb_true_r
                     | match goal with
                       | |- (if ?b then true else _) = true =>
                           destruct b; [reflexivity|]
                       end ].
Qed.

Lemma readyLoop_exists : forall backwards seen,
  readyLoop unicodeLower seen backwards
  = existsb (lineReady unicodeLower)
      (firstn (Z.to_nat (12 - seen))
         (filter (fun l => negb (str_eqb l []))
                 (map TrimSpace backwards))).
Proof.
  induction backwards as [|l rest IH]; intros seen.
  - simpl. rewrite firstn_nil. reflexivity.
  - cbn [readyLoop map filter].
    destruct (seen <? 12) eqn:L.
    + apply Z.ltb_lt in L.
      destruct (str_eqb (TrimSpace l) []) eqn:E; cbn [negb].
      * apply IH.
      * replace (Z.to_nat (12 - seen))
          with (S (Z.to_nat (12 - (seen + 1)))) by lia.
        cbn [firstn existsb].
        destruct (lineReady unicodeLower (TrimSpace l)); [reflexivity|].
        apply IH.
    + apply Z.ltb_ge in L.
      replace (Z.to_nat (12 - seen)) with 0%nat by lia. reflexivity.
Qed.

(** The check is a search through the last twelve non-empty lines of
    the stripped capture. *)
Lemma ready_search output :
  agentReadyForInstruction unicodeLower output = true
  <-> exists line,
        In line (Spec.lastNonEmptyLines 12 (stripANSI output))
        /\ Spec.showsReady unicodeLower line.
Proof.
  unfold agentReadyForInstruction, Spec.lastNonEmptyLines.
  rewrite readyLoop_exists. change (Z.to_nat (12 - 0)) with 12%nat.
  rewrite existsb_exists. split.
  - intros (line & Hin & Hr). exists line. split; [exact Hin|].
    apply lineReady_spec. exact Hr.
  - intros (line & Hin & Hr). exists line. split; [exact Hin|].
    apply lineReady_spec. exact Hr.
Qed.
End Ready.

End ReadyFacts.

(** C9.  Every capture is a sequence of visible bytes and escape
    sequences (CSI, OSC, two-byte, or cut short by the end of the capture),
    and whatever such reading it has, [agentReadyForInstruction] answers ready
    exactly when one of the last twelve non-empty lines of the visible
    bytes, trimmed, is one of the nine prompts optionally followed by white
    space, or contains the block glyph and is a prompt followed by white
    space and text, or contains, in lower case, one of the seven ready
    phrases; otherwise it answers busy. *)
Theorem agentReadyForInstruction_spec (unicodeLower : str -> str)
        (output : str) :
  (exists pieces,
      Spec.wellFormed pieces = true /\ Spec.render pieces = output)
  /\ forall pieces,
       Spec.wellFormed pieces = true -> Spec.render pieces = output ->
       (UI.agentReadyForInstruction unicodeLower output = true
        <-> exists line,
              In line (Spec.lastNonEmptyLines 12 (Spec.visible pieces))
              /\ Spec.showsReady unicodeLower line)
       /\ (UI.agentReadyForInstruction unicodeLower output = false
           <-> forall line,
                 In line (Spec.lastNonEmptyLines 12 (Spec.visible pieces)) ->
                 ~ Spec.showsReady unicodeLower line).
Proof.
  split; [apply (AnsiFacts.pieces_exist (length output)), le_n|].
  intros pieces Hw <-.
  pose proof (ReadyFacts.ready_search unicodeLower (Spec.render pieces))
    as Hs.
  rewrite (AnsiFacts.stripANSI_visible pieces Hw) in Hs.
  split; [exact Hs|].
  destruct (UI.agentReadyForInstruction unicodeLower (Spec.render pieces)).
  - split; [discriminate|]. intros Hno.
    destruct (proj1 Hs eq_refl) as (line & Hin & Hr).
    destruct (Hno line Hin Hr).
  - split; [|reflexivity]. intros _ line Hin Hr.
    assert (E : false = true) by (apply Hs; exists line; auto).
    discriminate.
Qed.

(** A green prompt U+276F, written between two colour sequences, on the
    last line of a capture. *)
Lemma agentReadyForInstruction_spec_witness :
  let pieces :=
    map Spec.Plain (lit "Applying patch") ++
    [Spec.Plain (chr 10);
     Spec.Csi (lit "32") "m"%char;
     Spec.Plain (chr 226); Spec.Plain (chr 157); Spec.Plain (chr 175);
     Spec.Csi (lit "0") "m"%char;
     Spec.Plain " "%char; Spec.Plain (chr 10)] in
  Spec.render pieces
  = lit "Applying patch" ++ [chr 10] ++ [chr 27] ++ lit "[32m"
    ++ bytes [226; 157; 175] ++ [chr 27] ++ lit "[0m " ++ [chr 10]
  /\ UI.agentReadyForInstruction (fun s => s) (Spec.render pieces) = true.
Proof.
  cbv zeta.
  match goal with |- context [Spec.render ?p] => set (pieces := p) end.
  split; [reflexivity|].
  apply (proj1 (proj2 (agentReadyForInstruction_spec (fun s => s)
                         (Spec.render pieces)) pieces eq_refl eq_refl)).
  exists (bytes [226; 157; 175]). split.
  - vm_compute. left. reflexivity.
  - left. exists (bytes [226; 157; 175]), [].
    split; [|split; reflexivity].
    cbn [In Spec.promptsAsDocumented]. tauto.
Defined.

(** ** The tests of the repository, run on the model *)

Example TestSlugify :
  Naming.Slugify (fun s => s) (lit "Checkout Redesign_v2")
  = Ok (lit "checkout-redesign-v2").
Proof. reflexivity. Qed.

Example TestMakeBranchName :
  Naming.MakeBranchName (fun s => s) (lit "feat") (lit "my feature")
  = Ok (lit "feat/my-feature")
  /\ Naming.MakeBranchName (fun s => s) (lit "unknown") (lit "x")
     = Err (lit "invalid type 'unknown' (expected: feat|fix|chore|docs|refactor|test)").
Proof. split; reflexivity. Qed.

Example TestTmuxWorktreeSessionName :
  Naming.tmuxWorktreeSessionNameOf (lit "sprout") (lit "dotnet")
    (lit "feat/my feature") (lit "/tmp/work/dotnet/.worktrees/feat/my-feature")
  = lit "sprout-dotnet-feat-my-feature".
Proof. reflexivity. Qed.

Example TestShouldRetryWorktreeAdd :
  map (fun msg => Manager.shouldRetryWorktreeAdd (fun s => s) (Some msg))
      [lit "git worktree add timed out after 45s";
       lit "fatal: branch is already checked out at '/tmp/wt'";
       lit "fatal: cannot lock ref"; lit "fatal: invalid reference"]
  = [true; true; true; false].
Proof. reflexivity. Qed.

Example TestShouldRetryWorktreeRemove :
  map (fun msg => Manager.shouldRetryWorktreeRemove (fun s => s) (Some msg))
      [lit "git worktree remove timed out after 45s";
       lit "fatal: '/tmp/wt' is locked";
       lit "fatal: cannot lock ref"; lit "fatal: not a working tree"]
  = [true; true; true; false].
Proof. reflexivity. Qed.

Example TestGitWorktreeCommandTimeout :
  map Manager.timeoutSeconds [lit "2"; lit "120"; lit "10000"]
  = [5; 120; 600].
Proof. reflexivity. Qed.

(** * Further properties of the code *)

(** ** Safe names *)

Module SafeFacts.
Import Strings Regexp Naming Notions StringFacts.

Lemma forallb_firstn {A : Type} (Q : A -> bool) (n : nat) (l : list A) :
  forallb Q l = true -> forallb Q (firstn n l) = true.
Proof.
  intros H. rewrite <- (firstn_skipn n l), forallb_app in H.
  apply andb_true_iff in H as [H _]. exact H.
Qed.

Lemma isDash_safe c : isDash c = true -> safeChar c = true.
Proof. each_byte c; vm_compute; congruence. Qed.

Lemma isDash_char c : isDash c = true <-> c = "-"%char.
Proof. each_byte c; vm_compute; split; congruence. Qed.

Lemma startsIn_dash_prefix s :
  startsIn isDash s = false -> HasPrefix s (lit "-") = false.
Proof.
  change (lit "-") with ["-"%char].
  destruct s as [|c s]; cbn [HasPrefix startsIn]; intros H; [reflexivity|].
  destruct (ascii_dec "-"%char c) as [<-|]; [discriminate | reflexivity].
Qed.

Lemma safeName_closed value :
  let r := safeName value in
  forallb safeChar r = true
  /\ dbl "-"%char r = false
  /\ startsIn isDash r = false
  /\ startsIn isDash (rev r) = false
  /\ r <> [].
Proof.
  unfold safeName, ReplaceAllRuns.
  set (s1 := replaceRuns safeBad _ false value).
  set (s2 := replaceRuns isDash _ false s1).
  assert (H1 : forallb safeChar s1 = true).
  { apply replaceRuns_forallb; [reflexivity|].
    intros c _ Hc. unfold safeBad in Hc.
    apply negb_false_iff in Hc. exact Hc. }
  assert (H2 : forallb safeChar s2 = true).
  { apply replaceRuns_forallb; [reflexivity|].
    intros c Hin _. rewrite forallb_forall in H1. auto. }
  assert (D2 : dbl "-"%char s2 = false)
    by apply (squeeze_dbl isDash "-"%char isDash_char s1 false).
  cbv zeta. destruct (str_eqb (TrimIn isDash s2) []) eqn:E.
  - vm_compute. repeat split. discriminate.
  - apply str_eqb_neq in E. repeat split.
    + apply TrimIn_forallb, H2.
    + rewrite <- dbl_Contains. apply TrimIn_Contains.
      rewrite dbl_Contains. exact D2.
    + apply TrimIn_starts.
    + apply TrimIn_ends.
    + exact E.
Qed.

Lemma safeName_fixed r :
  forallb safeChar r = true ->
  dbl "-"%char r = false ->
  startsIn isDash r = false ->
  startsIn isDash (rev r) = false ->
  r <> [] ->
  safeName r = r.
Proof.
  intros Hc Hd Hl Hr Hne. unfold safeName, ReplaceAllRuns.
  rewrite (replaceRuns_id safeBad (lit "-") r false).
  2:{ rewrite forallb_forall in Hc. apply forallb_forall.
      intros c Hin. unfold safeBad. rewrite (Hc c Hin). reflexivity. }
  change (lit "-") with ["-"%char].
  rewrite (squeeze_id isDash "-"%char isDash_char r false Hd)
    by discriminate.
  rewrite (TrimIn_id isDash r Hl Hr).
  destruct (str_eqb r []) eqn:E; [|reflexivity].
  apply str_eqb_eq in E. contradiction.
Qed.

Lemma safeChar_not_colon c : safeChar c = true -> c <> ":"%char.
Proof. each_byte c; vm_compute; congruence. Qed.

End SafeFacts.

(** X1.  [safeName] always returns a non-empty string of bytes of
    [[A-Za-z0-9._-]] that has no two adjacent dashes and neither starts
    nor ends with a dash, and it maps every such result to itself. *)
Theorem safeName_closed_idempotent (value : str) :
  let r := Naming.safeName value in
  forallb Naming.safeChar r = true
  /\ Strings.Contains r (lit "--") = false
  /\ Strings.HasPrefix r (lit "-") = false
  /\ Strings.HasSuffix r (lit "-") = false
  /\ r <> []
  /\ Naming.safeName r = r.
Proof.
  destruct (SafeFacts.safeName_closed value) as (Hc & Hd & Hl & Hr & Hne).
  cbv zeta. repeat split.
  - exact Hc.
  - exact (eq_trans (StringFacts.dbl_Contains "-"%char _) Hd).
  - apply SafeFacts.startsIn_dash_prefix, Hl.
  - unfold Strings.HasSuffix. apply SafeFacts.startsIn_dash_prefix, Hr.
  - exact Hne.
  - apply SafeFacts.safeName_fixed; assumption.
Qed.

(** X2.  The session name of a working copy is made of bytes of
    [[A-Za-z0-9._-]] only, so it never contains the [:] that separates a
    session from a window in a target; and the repository session name
    always carries a prefix: an empty configured prefix gives
    [default-<repo>], never the bare repository name. *)
Theorem session_name_safe (sessionPrefix repoName branch path : str) :
  let base := Naming.tmuxSessionNameOf sessionPrefix repoName in
  let name :=
    Naming.tmuxWorktreeSessionNameOf sessionPrefix repoName branch path in
  base = Naming.safeName sessionPrefix ++ lit "-" ++ Naming.safeName repoName
  /\ forallb Naming.safeChar base = true
  /\ forallb Naming.safeChar name = true
  /\ ~ In ":"%char name
  /\ name <> [].
Proof.
  cbv zeta.
  assert (B : Naming.tmuxSessionNameOf sessionPrefix repoName
              = Naming.safeName sessionPrefix ++ lit "-"
                ++ Naming.safeName repoName).
  { unfold Naming.tmuxSessionNameOf.
    destruct (str_eqb (Naming.safeName sessionPrefix) []) eqn:E;
      [|reflexivity].
    apply str_eqb_eq in E. exfalso. revert E.
    apply NameFacts.safeName_nonempty. }
  assert (Hb : forallb Naming.safeChar
                 (Naming.tmuxSessionNameOf sessionPrefix repoName) = true).
  { rewrite B, !forallb_app.
    rewrite (proj1 (SafeFacts.safeName_closed sessionPrefix)).
    rewrite (proj1 (SafeFacts.safeName_closed repoName)). reflexivity. }
  assert (Hn : forallb Naming.safeChar
                 (Naming.tmuxWorktreeSessionNameOf sessionPrefix repoName
                    branch path) = true).
  { unfold Naming.tmuxWorktreeSessionNameOf.
    rewrite NameFacts.session_name_eq. unfold slice_to.
    apply SafeFacts.forallb_firstn. rewrite !forallb_app, Hb.
    unfold Notions.safeToken.
    rewrite (proj1 (SafeFacts.safeName_closed _)). reflexivity. }
  split; [exact B|]. split; [exact Hb|]. split; [exact Hn|]. split.
  - intros Hin. rewrite forallb_forall in Hn.
    exact (SafeFacts.safeChar_not_colon _ (Hn _ Hin) eq_refl).
  - unfold Naming.tmuxWorktreeSessionNameOf.
    rewrite NameFacts.session_name_eq, B.
    destruct (Naming.safeName sessionPrefix) eqn:E.
    + exfalso. revert E. apply NameFacts.safeName_nonempty.
    + discriminate.
Qed.

(** X3.  The three window names derived from a branch are at most 60
    bytes long, are made of bytes of [[A-Za-z0-9._-]] only and are not
    empty; the agent and lazygit names keep their [agent-] and [git-]
    prefixes, so they never coincide. *)
Theorem window_names_bounded (branch : str) :
  let names := [Windows.tmuxWindowName branch;
                Manager.tmuxAgentWindowName branch;
                Windows.tmuxLazygitWindowName branch] in
  Forall (fun n => len n <= 60 /\ forallb Naming.safeChar n = true
                   /\ n <> []) names
  /\ Strings.HasPrefix (Manager.tmuxAgentWindowName branch) (lit "agent-")
     = true
  /\ Strings.HasPrefix (Windows.tmuxLazygitWindowName branch) (lit "git-")
     = true
  /\ Manager.tmuxAgentWindowName branch
     <> Windows.tmuxLazygitWindowName branch.
Proof.
  destruct (SafeFacts.safeName_closed branch) as (Hc & _ & _ & _ & Hne).
  assert (cut : forall name,
             forallb Naming.safeChar name = true -> name <> [] ->
             let n := if len name >? 60 then slice_to 60 name else name in
             len n <= 60 /\ forallb Naming.safeChar n = true /\ n <> []).
  { intros name Hs Hn. cbv zeta.
    destruct (len name >? 60) eqn:L.
    - unfold slice_to, len in *. rewrite Z.gtb_ltb in L.
      apply Z.ltb_lt in L. split; [rewrite length_firstn; lia|].
      split; [apply SafeFacts.forallb_firstn, Hs|].
      destruct name; [contradiction | discriminate].
    - rewrite Z.gtb_ltb in L. apply Z.ltb_ge in L. auto. }
  cbv zeta. split; [|split; [|split]].
  - assert (A : forall p, p <> [] -> forallb Naming.safeChar p = true ->
                forallb Naming.safeChar (p ++ Naming.safeName branch) = true
                /\ p ++ Naming.safeName branch <> []).
    { intros p Hp Hs. rewrite forallb_app, Hs, Hc. split; [reflexivity|].
      destruct p; [contradiction | discriminate]. }
    constructor; [exact (cut (Naming.safeName branch) Hc Hne)|].
    constructor.
    { apply (cut (lit "agent-" ++ Naming.safeName branch));
        apply (A (lit "agent-")); (discriminate || reflexivity). }
    constructor; [|constructor].
    apply (cut (lit "git-" ++ Naming.safeName branch));
      apply (A (lit "git-")); (discriminate || reflexivity).
  - unfold Manager.tmuxAgentWindowName.
    destruct (len _ >? 60); reflexivity.
  - unfold Windows.tmuxLazygitWindowName.
    destruct (len _ >? 60); reflexivity.
  - unfold Manager.tmuxAgentWindowName, Windows.tmuxLazygitWindowName.
    destruct (len (lit "agent-" ++ _) >? 60),
             (len (lit "git-" ++ _) >? 60); discriminate.
Qed.

(** ** Branch names *)



(** ** Stripping escape sequences *)

Module StripFacts.
Import UI Notions2.



Lemma stripFrom_noEsc : forall n input st,
  (length input <= n)%nat ->
  forallb noEsc (stripFrom st input) = true.
Proof.
  induction n as [|n IH]; intros input st Hlen.
  - destruct input; [reflexivity | simpl in Hlen; lia].
  - destruct input as [|c rest]; [reflexivity|].
    simpl in Hlen. assert (Hr : (length rest <= n)%nat) by lia.
    destruct st; cbn [stripFrom].
    + destruct (isb 27 c) eqn:E; [apply IH, Hr|].
      cbn [forallb]. unfold noEsc at 1. rewrite E. apply IH, Hr.
    + destruct (isb 91 c); [apply IH, Hr|].
      destruct (isb 93 c); apply IH, Hr.
    + destruct (between 64 126 c); apply IH, Hr.
    + destruct (isb 7 c); [apply IH, Hr|].
      destruct (isb 27 c); [|apply IH, Hr].
      destruct rest as [|d rest']; [reflexivity|].
      destruct (isb 92 d); [|apply IH, Hr].
      apply IH. simpl in Hr. lia.
Qed.

Lemma stripFrom_plain : forall input,
  forallb noEsc input = true -> stripFrom Text input = input.
Proof.
  induction input as [|c rest IH]; intros H; [reflexivity|].
  cbn [forallb] in H. apply andb_true_iff in H as [Hc Hr].
  cbn [stripFrom]. unfold noEsc in Hc. apply negb_true_iff in Hc.
  rewrite Hc, (IH Hr). reflexivity.
Qed.

End StripFacts.

(** X5.  The output of [stripANSI] contains no [ESC] byte; an input
    without [ESC] is returned unchanged; hence stripping twice is the
    same as stripping once. *)
Theorem stripANSI_no_escape (input : str) :
  forallb Notions2.noEsc (UI.stripANSI input) = true
  /\ (forallb Notions2.noEsc input = true -> UI.stripANSI input = input)
  /\ UI.stripANSI (UI.stripANSI input) = UI.stripANSI input.
Proof.
  assert (H : forallb Notions2.noEsc (UI.stripANSI input) = true)
    by (apply (StripFacts.stripFrom_noEsc (length input)); lia).
  split; [exact H|]. split.
  - apply StripFacts.stripFrom_plain.
  - apply StripFacts.stripFrom_plain, H.
Qed.

(** ** The order of strings and sorted sets *)

Module OrderFacts.
Import Lib Notions2.

Lemma code_inj x y : code x = code y -> x = y.
Proof.
  unfold code. intros H. apply N2Z.inj in H.
  rewrite <- (ascii_N_embedding x), <- (ascii_N_embedding y), H.
  reflexivity.
Qed.


Lemma str_ltb_trans : forall a b c,
  str_ltb a b = true -> str_ltb b c = true -> str_ltb a c = true.
Proof.
  induction a as [|x a IH]; intros [|y b] [|z c]; cbn [str_ltb];
    try congruence.
  destruct (Z.ltb_spec (code x) (code y)), (Z.ltb_spec (code y) (code x)),
    (Z.ltb_spec (code y) (code z)), (Z.ltb_spec (code z) (code y)),
    (Z.ltb_spec (code x) (code z)), (Z.ltb_spec (code z) (code x));
    try congruence; try lia.
  apply IH.
Qed.

Lemma str_ltb_total : forall a b,
  str_eqb a b = false -> str_ltb a b = false -> str_ltb b a = true.
Proof.
  induction a as [|x a IH]; intros [|y b] Hne Hlt; cbn [str_ltb] in *;
    try congruence.
  - apply str_eqb_neq in Hne. congruence.
  - destruct (Z.ltb_spec (code x) (code y)); [discriminate|].
    destruct (Z.ltb_spec (code y) (code x)); [reflexivity|].
    assert (x = y) by (apply code_inj; lia). subst y.
    apply IH; [|exact Hlt].
    apply str_eqb_neq. apply str_eqb_neq in Hne. congruence.
Qed.

Lemma insertString_In x : forall l p,
  In p (insertString x l) <-> p = x \/ In p l.
Proof.
  induction l as [|y ys IH]; intros p; cbn [insertString].
  - simpl. intuition.
  - destruct (str_eqb x y) eqn:E.
    + apply str_eqb_eq in E. subst y. simpl. intuition.
    + destruct (str_ltb x y); simpl; [intuition|].
      rewrite IH. intuition.
Qed.

Lemma insertString_sorted x : forall l,
  StronglySorted strLt l -> StronglySorted strLt (insertString x l).
Proof.
  induction l as [|y ys IH]; intros H; cbn [insertString].
  - repeat constructor.
  - inversion H as [|? ? Hs Hall]; subst.
    destruct (str_eqb x y) eqn:E; [exact H|].
    destruct (str_ltb x y) eqn:L.
    + constructor; [exact H|]. constructor; [exact L|].
      rewrite Forall_forall in *. intros z Hz.
      apply (str_ltb_trans x y z L). apply Hall, Hz.
    + constructor; [apply IH, Hs|].
      rewrite Forall_forall in *. intros z Hz.
      apply insertString_In in Hz as [->|Hz]; [|apply Hall, Hz].
      apply str_ltb_total; [|exact L]. exact E.
Qed.

Lemma sortedSet_spec l :
  StronglySorted strLt (sortedSet l)
  /\ forall p, In p (sortedSet l) <-> In p l.
Proof.
  unfold sortedSet.
  assert (G : forall acc,
             StronglySorted strLt acc ->
             StronglySorted strLt
               (fold_left (fun acc x => insertString x acc) l acc)
             /\ forall p,
                  In p (fold_left (fun acc x => insertString x acc) l acc)
                  <-> In p acc \/ In p l).
  { induction l as [|x l IH]; intros acc Hs; cbn [fold_left].
    - split; [exact Hs|]. simpl. intuition.
    - destruct (IH (insertString x acc) (insertString_sorted x acc Hs))
        as [H1 H2].
      split; [exact H1|]. intros p. rewrite H2, insertString_In.
      simpl. intuition. }
  destruct (G [] (SSorted_nil _)) as [H1 H2]. split; [exact H1|].
  intros p. rewrite H2. simpl. intuition.
Qed.


End OrderFacts.



(** ** The list of working copies *)

Module ListFacts.
Import Strings Sys Runner Manager Notions2.

Lemma flush_bare st :
  Forall bare (fst (fst st)) -> Forall bare (fst (fst (flush st))).
Proof.
  destruct st as [[res curPath] curBranch]. unfold flush. cbn [fst].
  intros H. destruct (str_eqb curPath []) eqn:E; cbn [negb]; [exact H|].
  apply Forall_app. split; [exact H|]. constructor; [|constructor].
  apply str_eqb_neq in E. repeat split. exact E.
Qed.

Lemma parseLine_bare st line :
  Forall bare (fst (fst st)) -> Forall bare (fst (fst (parseLine st line))).
Proof.
  intros H. unfold parseLine.
  destruct (str_eqb _ []); [apply flush_bare, H|].
  destruct st as [[res curPath] curBranch]. cbn [fst] in H.
  repeat match goal with
         | |- context [if ?b then _ else _] => destruct b
         end; exact H.
Qed.

Lemma fold_parseLine_bare lines : forall st,
  Forall bare (fst (fst st)) ->
  Forall bare (fst (fst (fold_left parseLine lines st))).
Proof.
  induction lines as [|l lines IH]; intros st H; [exact H|].
  cbn [fold_left]. apply IH, parseLine_bare, H.
Qed.

End ListFacts.

(** X7.  Every record that [parseWorktreeList] returns has a non-empty
    path, and none is marked current or dirty or carries a session or
    agent state yet: a block of the porcelain output without a
    [worktree] line yields no record. *)
Theorem parseWorktreeList_records
        (W : Type) (world : Sys.World W) (repoRoot : str) (w w' : W)
        (items : list Manager.Worktree) (tr : list Sys.Event) :
  Sys.run world (Manager.parseWorktreeList repoRoot) w
    = (Ok items, w', tr) ->
  Forall Notions2.bare items.
Proof.
  unfold Manager.parseWorktreeList, Runner.runCmdOutput, Runner.runCmdBytes,
    Runner.runCmdBytesWithTimeout, Sys.call, Sys.ret.
  cbn [Sys.pbind Sys.run].
  destruct (world _ _ w) as [r w1]. cbn [Sys.pbind Sys.run].
  destruct (Sys.pr_err r); cbn [Sys.pbind Sys.run]; intros H;
    [congruence|].
  injection H as <- _ _.
  apply ListFacts.flush_bare, ListFacts.fold_parseLine_bare. constructor.
Qed.

Lemma parseWorktreeList_records_witness :
  Forall Notions2.bare
         [Manager.bareWorktree (lit "/r/repo") (lit "main");
          Manager.bareWorktree (lit "/r/wt") (lit "")].
Proof.
  eapply (parseWorktreeList_records unit
            (Fake.world
               (fun _ _ _ =>
                  Fake.ok (lit "worktree /r/repo" ++ [chr 10]
                           ++ lit "HEAD 1234" ++ [chr 10]
                           ++ lit "branch refs/heads/main" ++ [chr 10]
                           ++ [chr 10]
                           ++ lit "branch refs/heads/lost" ++ [chr 10]
                           ++ [chr 10]
                           ++ lit "worktree /r/wt" ++ [chr 10]
                           ++ lit "detached" ++ [chr 10]))
               [])
            (lit "/r/repo") tt tt).
  reflexivity.
Defined.

(** ** Error messages of the process runner *)

Module RunnerFacts.
Import Strings Runner.

Lemma truncated_len out : len (truncated out) <= 614.
Proof.
  unfold truncated. destruct (len (TrimSpace out) >? 600) eqn:L.
  - unfold len, slice_to. rewrite length_app, length_firstn.
    change (length (lit "...(truncated)")) with 14%nat. lia.
  - rewrite Z.gtb_ltb in L. apply Z.ltb_ge in L. lia.
Qed.

Lemma withTail_len msg trimmed :
  len (withTail msg trimmed) <= len msg + 2 + len trimmed.
Proof.
  unfold withTail, len. destruct (str_eqb trimmed []).
  - lia.
  - rewrite !length_app. change (length (lit ": ")) with 2%nat. lia.
Qed.

Lemma withTail_prefix msg trimmed p :
  HasPrefix msg p = true -> HasPrefix (withTail msg trimmed) p = true.
Proof.
  intros H. unfold withTail. destruct (str_eqb trimmed []); [exact H|].
  apply StringFacts.HasPrefix_app_l, H.
Qed.

Lemma HasPrefix_self p : forall s, HasPrefix (p ++ s) p = true.
Proof.
  induction p as [|c p IH]; intros s; [reflexivity|].
  change ((c :: p) ++ s) with (c :: (p ++ s)). cbn [HasPrefix].
  destruct (ascii_dec c c); [apply IH | contradiction].
Qed.

End RunnerFacts.

(** X8.  The error of a failed command starts with the command line and
    quotes at most 614 bytes of the command's output: its length exceeds
    that of the command line and of the reason (the failure text, or the
    time limit when the deadline passed) by at most 633 bytes. *)
Theorem cmdError_bounded (timeout : Z) (name : str) (args : list str)
        (r : Sys.ProcResult) (err : str) :
  let cmd := name ++ lit " " ++ Strings.Join args (lit " ") in
  let reason := if (0 <? timeout) && Sys.pr_deadline r
                then Lib.durationString timeout else err in
  let e := Runner.cmdError timeout name args r err in
  Strings.HasPrefix e cmd = true
  /\ len (Runner.truncated (Sys.pr_out r)) <= 614
  /\ len e <= len cmd + len reason + 633.
Proof.
  cbv zeta. unfold Runner.cmdError.
  pose proof (RunnerFacts.truncated_len (Sys.pr_out r)) as T.
  destruct ((0 <? timeout) && Sys.pr_deadline r).
  - split; [|split; [exact T|]].
    + apply RunnerFacts.withTail_prefix.
      apply RunnerFacts.HasPrefix_self.
    + match goal with |- len (Runner.withTail ?m ?t) <= _ =>
        pose proof (RunnerFacts.withTail_len m t) as L end.
      unfold len in *. rewrite !length_app in *.
      change (length (lit " timed out after ")) with 17%nat in *.
      change (length (lit " ")) with 1%nat in *. lia.
  - split; [|split; [exact T|]].
    + apply RunnerFacts.withTail_prefix.
      apply RunnerFacts.HasPrefix_self.
    + match goal with |- len (Runner.withTail ?m ?t) <= _ =>
        pose proof (RunnerFacts.withTail_len m t) as L end.
      unfold len in *. rewrite !length_app in *.
      change (length (lit " failed: ")) with 9%nat in *.
      change (length (lit " ")) with 1%nat in *. lia.
Qed.

(** ** What a program can ask of the world *)

Module TraceFacts.
Import Sys Runner Manager Traces.

Section Always.
Variable P : Event -> Prop.

Lemma always_bind {A B : Type} (p : Prog A) (f : A -> Prog B) :
  always P p -> (forall a, always P (f a)) -> always P (pbind p f).
Proof.
  intros Hp Hf. induction p as [a | X c k IH]; cbn [pbind always].
  - apply Hf.
  - intros x. destruct (Hp x) as [H1 H2]. split; [exact H1|].
    apply IH, H2.
Qed.

Lemma always_call {X : Type} (c : Call X) :
  (forall x, P (Ev c x)) -> always P (call c).
Proof. intros H x. split; [apply H | exact I]. Qed.

Lemma always_bytes dir timeout name args :
  (forall r, P (Ev (Exec dir timeout name args) r)) ->
  always P (runCmdBytesWithTimeout dir timeout name args).
Proof.
  intros H. unfold runCmdBytesWithTimeout. apply always_bind.
  - apply always_call, H.
  - intros r. destruct (pr_err r); exact I.
Qed.

Lemma always_output dir name args :
  (forall r, P (Ev (Exec dir 0 name args) r)) ->
  always P (runCmdOutput dir name args).
Proof.
  intros H. unfold runCmdOutput, runCmdBytes. apply always_bind.
  - apply always_bytes, H.
  - intros [out|e]; exact I.
Qed.

Lemma always_quietTimeout dir timeout name args :
  (forall r, P (Ev (Exec dir timeout name args) r)) ->
  always P (runCmdQuietTimeout dir timeout name args).
Proof.
  intros H. unfold runCmdQuietTimeout. apply always_bind.
  - apply always_bytes, H.
  - intros r. exact I.
Qed.

Lemma always_quiet dir name args :
  (forall r, P (Ev (Exec dir 0 name args) r)) ->
  always P (runCmdQuiet dir name args).
Proof.
  intros H. unfold runCmdQuiet, runCmdBytes. apply always_bind.
  - apply always_bytes, H.
  - intros r. exact I.
Qed.

Lemma always_mapM {A B : Type} (f : A -> Prog B) (l : list A) :
  (forall x, always P (f x)) -> always P (mapM f l).
Proof.
  intros H. induction l as [|x l IH]; cbn [mapM]; [exact I|].
  apply always_bind; [apply H|]. intros y.
  apply always_bind; [exact IH|]. intros ys. exact I.
Qed.

Lemma always_forErr {A : Type} (f : A -> Prog (option str)) (l : list A) :
  (forall x, always P (f x)) -> always P (forErr f l).
Proof.
  intros H. induction l as [|x l IH]; cbn [forErr]; [exact I|].
  apply always_bind; [apply H|]. intros [e|]; [exact I | exact IH].
Qed.

Lemma always_run {W A : Type} (world : World W) (p : Prog A) :
  always P p -> forall w, Forall P (trace (run world p w)).
Proof.
  unfold trace. induction p as [a | X c k IH]; intros Hp w; cbn [run].
  - constructor.
  - destruct (world X c w) as [x w1]. destruct (Hp x) as [H1 H2].
    specialize (IH x H2 w1).
    destruct (run world (k x) w1) as [[a w2] tr]. cbn [snd] in *.
    constructor; assumption.
Qed.

Lemma always_weaken {A : Type} (Q : Event -> Prop) (p : Prog A) :
  (forall e, Q e -> P e) -> always Q p -> always P p.
Proof.
  intros H. induction p as [a | X c k IH]; cbn [always]; [auto|].
  intros Hq x. destruct (Hq x). split; auto.
Qed.

End Always.

Lemma actions_app t1 t2 : actions (t1 ++ t2) = actions t1 ++ actions t2.
Proof. apply filter_app. Qed.

Lemma In_actions e tr : In e (actions tr) <-> In e tr /\ acts e = true.
Proof. apply filter_In. Qed.

Lemma actions_all tr :
  Forall (fun e => acts e = true) tr -> actions tr = tr.
Proof.
  induction 1 as [|e tr He _ IH]; [reflexivity|].
  unfold actions in *. cbn [filter]. rewrite He, IH. reflexivity.
Qed.

Lemma inspects_acts e : inspects e = true -> acts e = true.
Proof.
  destruct e as [X [dir timeout name args| | | | | | | | | |] x];
    try reflexivity; intros H; vm_compute in H; discriminate.
Qed.

Lemma actions_inspections tr :
  Forall (fun e => inspects e = true) tr -> actions tr = tr.
Proof.
  intros H. apply actions_all. eapply Forall_impl; [|exact H].
  exact inspects_acts.
Qed.

(** What holds of the requests of a trace holds of its actions. *)
Lemma Forall_actions (P Q : Event -> Prop) tr :
  (forall e, Q e -> acts e = true -> P e) ->
  Forall Q tr -> Forall P (actions tr).
Proof.
  intros H Hq. apply Forall_forall. intros e He.
  apply In_actions in He as [Hin Ha]. rewrite Forall_forall in Hq. auto.
Qed.

(** Walks through a program built from the runner's functions: every
    leaf is left as the obligation on its request. *)
Ltac walk :=
  repeat match goal with
         | |- always _ (Ret _) => exact I
         | |- always _ (ret _) => exact I
         | |- always _ (pbind _ _) => apply always_bind; [|intros ?]
         | |- always _ (runCmdOutput _ _ _) => apply always_output; intros ?
         | |- always _ (runCmdQuiet _ _ _) => apply always_quiet; intros ?
         | |- always _ (runCmdQuietTimeout _ _ _ _) =>
             apply always_quietTimeout; intros ?
         | |- always _ (runCmdBytes _ _ _) => apply always_bytes; intros ?
         | |- always _ (runCmdBytesWithTimeout _ _ _ _) =>
             apply always_bytes; intros ?
         | |- always _ (call _) => apply always_call; intros ?
         | |- always _ (commandExists _) => apply always_call; intros ?
         | |- always _ (mapM _ _) => apply always_mapM; intros ?
         | |- always _ (forErr _ _) => apply always_forErr; intros ?
         | |- always _ (match ?x with _ => _ end) => destruct x
         end.

Section Inspect.

Lemma RequireRepo_inspects : always inspecting RequireRepo.
Proof. unfold RequireRepo. walk. reflexivity. Qed.

Lemma RepoName_inspects repoRoot : always inspecting (RepoName repoRoot).
Proof. unfold RepoName. walk. reflexivity. Qed.

Lemma absPath_inspects path : always inspecting (absPath path).
Proof. unfold absPath, filepath_Abs. walk. reflexivity. Qed.

Lemma parseWorktreeList_inspects repoRoot :
  always inspecting (parseWorktreeList repoRoot).
Proof. unfold parseWorktreeList. walk. reflexivity. Qed.

Lemma WorktreeDirty_inspects path : always inspecting (WorktreeDirty path).
Proof. unfold WorktreeDirty. walk. reflexivity. Qed.

Lemma sessionName_inspects m repoRoot wt :
  always inspecting (tmuxWorktreeSessionName m repoRoot wt).
Proof.
  unfold tmuxWorktreeSessionName, tmuxWorktreeSessionNameFrom,
    tmuxSessionName.
  apply always_bind; [|intros; exact I].
  apply always_bind; [apply RepoName_inspects | intros; exact I].
Qed.

Lemma tmuxHasSession_inspects session : always inspecting (tmuxHasSession session).
Proof. unfold tmuxHasSession. walk. reflexivity. Qed.

Lemma tmuxWindowExists_inspects session window :
  always inspecting (tmuxWindowExists session window).
Proof. unfold tmuxWindowExists. walk. reflexivity. Qed.

Lemma describeWorktree_inspects m repoRoot current hasTmux item :
  always inspecting (describeWorktree m repoRoot current hasTmux item).
Proof.
  unfold describeWorktree.
  apply always_bind; [apply absPath_inspects | intros path].
  apply always_bind; [apply WorktreeDirty_inspects | intros dirty].
  destruct hasTmux; cbn [negb]; [|exact I].
  apply always_bind; [apply sessionName_inspects | intros session].
  apply always_bind; [apply tmuxHasSession_inspects | intros alive].
  destruct alive; [|exact I].
  apply always_bind; [apply tmuxWindowExists_inspects | intros; exact I].
Qed.

Lemma ListWorktrees_inspects m sort : always inspecting (ListWorktrees m sort).
Proof.
  unfold ListWorktrees.
  apply always_bind; [apply RequireRepo_inspects | intros [repoRoot|e]];
    [|exact I].
  apply always_bind; [apply parseWorktreeList_inspects | intros [items|e]];
    [|exact I].
  apply always_bind; [apply absPath_inspects | intros current].
  apply always_bind;
    [apply always_call; intros; reflexivity | intros hasTmux].
  apply always_bind; [|intros; exact I].
  apply always_mapM. intros item. apply describeWorktree_inspects.
Qed.

Lemma FindWorktree_inspects m sort target :
  always inspecting (FindWorktree m sort target).
Proof.
  unfold FindWorktree.
  apply always_bind; [apply ListWorktrees_inspects | intros [items|e]];
    [|exact I].
  apply always_bind; [apply always_call; intros; reflexivity | intros st].
  apply always_bind.
  - destruct st as [[|]| |]; try exact I. apply absPath_inspects.
  - intros targetAbs. destruct (find _ items); exact I.
Qed.

Lemma BranchCheckedOutAnywhere_inspects m sort branch :
  always inspecting (BranchCheckedOutAnywhere m sort branch).
Proof.
  unfold BranchCheckedOutAnywhere.
  apply always_bind; [apply ListWorktrees_inspects | intros [items|e]];
    exact I.
Qed.

End Inspect.

End TraceFacts.

(** X9.  The log apart, listing the working copies changes nothing:
    whatever the world answers, every process that [ListWorktrees],
    [FindWorktree] and [BranchCheckedOutAnywhere] start is one of
    [git rev-parse], [git worktree list], [git status] and
    [tmux has-session], and their other actions are [os.Stat], [os.Getwd]
    and [exec.LookPath]: they copy nothing and launch nothing. *)
Theorem listing_only_inspects
        (W : Type) (world : Sys.World W) (m : Manager.Manager)
        (sortSliceStable : (Manager.Worktree -> Manager.Worktree -> bool) ->
                           list Manager.Worktree -> list Manager.Worktree)
        (target branch : str) (w : W) :
  let looks tr :=
    Forall (fun e => Traces.inspects e = true) (Traces.actions tr) in
  looks (Traces.trace
           (Sys.run world (Manager.ListWorktrees m sortSliceStable) w))
  /\ looks (Traces.trace
              (Sys.run world
                 (Manager.FindWorktree m sortSliceStable target) w))
  /\ looks (Traces.trace
              (Sys.run world
                 (Manager.BranchCheckedOutAnywhere m sortSliceStable branch)
                 w)).
Proof.
  cbv zeta.
  assert (G : forall tr, Forall Traces.inspecting tr ->
                Forall (fun e => Traces.inspects e = true)
                       (Traces.actions tr)).
  { intros tr. apply TraceFacts.Forall_actions. intros e He _. exact He. }
  split; [|split]; apply G.
  - apply (TraceFacts.always_run _ world), TraceFacts.ListWorktrees_inspects.
  - apply (TraceFacts.always_run _ world), TraceFacts.FindWorktree_inspects.
  - apply (TraceFacts.always_run _ world),
      TraceFacts.BranchCheckedOutAnywhere_inspects.
Qed.

(** ** Results and traces together *)

Module HoldFacts.
Import Sys Runner Manager Traces Notions.

Lemma holds_conseq {A : Type} (p : Prog A) : forall (Q Q' : list Event -> A -> Prop),
  (forall tr a, Q tr a -> Q' tr a) -> holds Q p -> holds Q' p.
Proof.
  induction p as [a | X c k IH]; intros Q Q' H; cbn [holds]; [apply H|].
  intros Hq x. apply (IH x (fun tr a => Q (Ev c x :: tr) a)); [|apply Hq].
  intros tr a. apply H.
Qed.

Lemma holds_bind {A B : Type} (p : Prog A) (f : A -> Prog B) :
  forall Q : list Event -> B -> Prop,
    holds (fun t1 a => holds (fun t2 b => Q (t1 ++ t2) b) (f a)) p ->
    holds Q (pbind p f).
Proof.
  induction p as [a | X c k IH]; intros Q; cbn [holds pbind].
  - intros H. exact H.
  - intros H x. apply IH. exact (H x).
Qed.

Lemma holds_and {A : Type} (p : Prog A) :
  forall Q1 Q2 : list Event -> A -> Prop,
    holds Q1 p -> holds Q2 p -> holds (fun tr a => Q1 tr a /\ Q2 tr a) p.
Proof.
  induction p as [a | X c k IH]; intros Q1 Q2; cbn [holds]; [auto|].
  intros H1 H2 x. apply (IH x _ _ (H1 x) (H2 x)).
Qed.

Lemma always_holds {A : Type} (P : Event -> Prop) (p : Prog A) :
  always P p -> holds (fun tr _ => Forall P tr) p.
Proof.
  intros H.
  assert (G : forall pre, Forall P pre ->
                holds (fun tr _ => Forall P (pre ++ tr)) p).
  { induction p as [a | X c k IH]; intros pre Hpre; cbn [holds].
    - rewrite app_nil_r. exact Hpre.
    - intros x. destruct (H x) as [H1 H2].
      apply (holds_conseq (k x)
               (fun tr _ => Forall P ((pre ++ [Ev c x]) ++ tr))).
      + intros tr _. rewrite <- app_assoc. auto.
      + apply IH; [exact H2|]. apply Forall_app. split; [exact Hpre|].
        constructor; [exact H1 | constructor]. }
  exact (G [] (Forall_nil _)).
Qed.

Lemma holds_run {W A : Type} (world : World W) (p : Prog A) :
  forall (Q : list Event -> A -> Prop),
    holds Q p ->
    forall w, Q (trace (run world p w)) (outcome (run world p w)).
Proof.
  unfold trace, outcome.
  induction p as [a | X c k IH]; intros Q H w; cbn [run holds] in *.
  - exact H.
  - destruct (world X c w) as [x w1].
    specialize (IH x _ (H x) w1).
    destruct (run world (k x) w1) as [[a w2] tr]. exact IH.
Qed.

Lemma holds_call {X : Type} (c : Call X) (Q : list Event -> X -> Prop) :
  (forall x, Q [Ev c x] x) -> holds Q (call c).
Proof. intros H x. apply H. Qed.

Lemma holds_quiet dir name args (Q : list Event -> option str -> Prop) :
  (forall r, Q [Ev (Exec dir 0 name args) r] (quietError 0 name args r)) ->
  holds Q (runCmdQuiet dir name args).
Proof.
  intros H. unfold runCmdQuiet, runCmdBytes, runCmdBytesWithTimeout, call,
    ret. cbn [pbind holds]. intros r. specialize (H r).
  unfold quietError in H. destruct (pr_err r); exact H.
Qed.

Lemma holds_output dir name args (Q : list Event -> result str -> Prop) :
  (forall r, Q [Ev (Exec dir 0 name args) r] (outputOf name args r)) ->
  holds Q (runCmdOutput dir name args).
Proof.
  intros H. unfold runCmdOutput, runCmdBytes, runCmdBytesWithTimeout, call,
    ret. cbn [pbind holds]. intros r. specialize (H r).
  unfold outputOf in H. destruct (pr_err r); exact H.
Qed.

(** A program that only makes requests satisfying [P], followed by
    [f]. *)
Lemma holds_after {A B : Type} (P : Event -> Prop) (p : Prog A)
      (f : A -> Prog B) (Q : list Event -> B -> Prop) :
  always P p ->
  (forall a, holds (fun t2 b => forall t1, Forall P t1 -> Q (t1 ++ t2) b)
                   (f a)) ->
  holds Q (pbind p f).
Proof.
  intros Hp Hf. apply holds_bind.
  apply (holds_conseq p (fun tr _ => Forall P tr)); [|apply always_holds, Hp].
  intros t1 a H1.
  apply (holds_conseq (f a) _ _ (fun t2 b H => H t1 H1)), Hf.
Qed.

End HoldFacts.

(** ** Stopping a session and stopping an agent *)

Module StopFacts.
Import Sys Runner Manager Session Traces Notions TraceFacts HoldFacts.

Lemma holds_absorb {A B : Type} (P : Event -> Prop) (p : Prog A)
      (f : A -> Prog B) (Q : list Event -> B -> Prop) :
  (forall t1 tr b, Forall P t1 -> Q tr b -> Q (t1 ++ tr) b) ->
  always P p ->
  (forall a, holds Q (f a)) ->
  holds Q (pbind p f).
Proof.
  intros Habs Hp Hf. apply (holds_after P); [exact Hp|].
  intros a. apply (holds_conseq (f a) Q); [|apply Hf].
  intros tr b Hq t1 H1. apply Habs; assumption.
Qed.

Lemma inspectsThen_absorb c t1 tr done :
  Forall (fun e => inspects e = true) t1 ->
  inspectsThen c tr done -> inspectsThen c (t1 ++ tr) done.
Proof.
  intros H1 (pre & Hpre & H). exists (t1 ++ pre).
  split; [apply Forall_app; auto|].
  destruct H as [[-> Hd] | (r & -> & Hd)].
  - left. auto.
  - right. exists r. rewrite app_assoc. auto.
Qed.

Lemma stopsWith_absorb c t1 tr res :
  Forall (fun e => inspects e = true) t1 ->
  stopsWith c tr res -> stopsWith c (t1 ++ tr) res.
Proof.
  intros H1 (Ha & Hb & Hc). split; [|split].
  - apply inspectsThen_absorb; assumption.
  - exact Hb.
  - intros Hd He. apply Forall_app. auto.
Qed.

Lemma stopsWith_none c p e : stopsWith c [] (p, false, e).
Proof.
  split; [|split]; cbn [fst snd].
  - exists []. split; [constructor|]. left. auto.
  - discriminate.
  - constructor.
Qed.

Lemma stopsWith_one c r p (f : str -> str) :
  stopsWith c [c r]
    (match pr_err r with
     | None => (p, true, None)
     | Some err => (lit "", false, Some (f err))
     end).
Proof.
  split; [|split].
  - exists []. split; [constructor|]. right. exists r.
    destruct (pr_err r); auto.
  - destruct (pr_err r); cbn [fst snd]; [discriminate | reflexivity].
  - destruct (pr_err r); cbn [fst snd]; discriminate.
Qed.

(** The common shape of the two functions: inspections that decide
    whether to stop, then the stopping command. *)
Lemma holds_stop c dir name args p
      (Q : list Event -> str * bool * option str -> Prop) :
  (forall r res, stopsWith c [c r] res -> Q [c r] res) ->
  (forall r, c r = Ev (Exec dir 0 name args) r) ->
  holds Q (e <- runCmdQuiet dir name args ;;
           match e with
           | Some err => ret (lit "", false, Some err)
           | None => ret (p, true, None)
           end).
Proof.
  intros HQ Hc. apply holds_bind, holds_quiet. intros r.
  pose proof (HQ r _ (stopsWith_one c r p (cmdError 0 name args r))) as H.
  rewrite Hc in H.
  unfold quietError. destruct (pr_err r); cbn [holds ret app]; exact H.
Qed.

Lemma inspectsThen_actions c tr done :
  (forall r, acts (c r) = true) ->
  inspectsThen c tr done -> inspectsThen c (actions tr) done.
Proof.
  intros Hc (pre & Hpre & H). exists pre. split; [exact Hpre|].
  destruct H as [[-> Hd] | (r & -> & Hd)].
  - left. split; [apply actions_inspections, Hpre | exact Hd].
  - right. exists r. split; [|exact Hd].
    rewrite actions_app, (actions_inspections pre Hpre).
    unfold actions. cbn [filter]. rewrite Hc. reflexivity.
Qed.

Lemma stopsWith_actions c tr res :
  (forall r, acts (c r) = true) ->
  stopsWith c tr res -> stopsWith c (actions tr) res.
Proof.
  intros Hc (Ha & Hb & Hd). split; [|split].
  - apply inspectsThen_actions; assumption.
  - exact Hb.
  - intros H1 H2.
    apply (Forall_actions _ (fun e => inspects e = true));
      [intros e He _; exact He | auto].
Qed.

Section Runs.
Context {W : Type} (world : World W).
Variable m : Manager.
Variable sortSliceStable :
  (Worktree -> Worktree -> bool) -> list Worktree -> list Worktree.

Lemma run_inspects {A : Type} (p : Prog A) w a w1 t :
  always inspecting p -> run world p w = (a, w1, t) ->
  Forall (fun e => inspects e = true) t.
Proof.
  intros Hp Hr. pose proof (always_run _ world p Hp w) as H.
  rewrite Hr in H. exact H.
Qed.

(** The run of [Detach] once the working copy is found and [tmux] is
    there. *)
Lemma run_Detach target repoRoot wt session alive ans
      w w1 w2 w3 w4 w5 w6 t1 t2 t4 t5 :
  run world RequireRepo w = (Ok repoRoot, w1, t1) ->
  run world (FindWorktree m sortSliceStable target) w1 = (Ok wt, w2, t2) ->
  world _ (LookPath (lit "tmux")) w2 = (true, w3) ->
  run world (tmuxWorktreeSessionName m repoRoot wt) w3 = (session, w4, t4) ->
  run world (tmuxHasSession session) w4 = (alive, w5, t5) ->
  world _ (Notions2.killSession session) w5 = (ans, w6) ->
  let looked := t1 ++ t2 ++ [Ev (LookPath (lit "tmux")) true] ++ t4 ++ t5 in
  run world (Detach m sortSliceStable target) w
  = if alive
    then (Notions2.stopped (Path wt)
            [lit "kill-session"; lit "-t"; session] ans,
          w6, looked ++ [Ev (Notions2.killSession session) ans])
    else ((Path wt, false, None), w5, looked).
Proof.
  intros Hrepo Hfind Hlp Hname Halive Hkill looked.
  assert (G : forall res wz rest,
             run world
               (if negb alive then ret (Path wt, false, None)
                else
                  e <- runCmdQuiet (lit "") (lit "tmux")
                         [lit "kill-session"; lit "-t"; session] ;;
                  match e with
                  | Some err => ret (lit "", false, Some err)
                  | None => ret (Path wt, true, None)
                  end) w5 = (res, wz, rest) ->
             run world (Detach m sortSliceStable target) w
             = (res, wz, looked ++ rest)).
  { intros res wz rest Hrest. unfold Detach, looked.
    rewrite <- !app_assoc.
    apply (RunFacts.run_bind_eq world _ _ _ _ _ _ _ _ _ Hrepo).
    apply (RunFacts.run_bind_eq world _ _ _ _ _ _ _ _ _ Hfind).
    unfold commandExists, call. cbn [pbind run]. rewrite Hlp.
    cbn [negb pbind]. 
    match goal with
    | |- context [run world ?p w3] =>
        assert (H : run world p w3 = (res, wz, t4 ++ t5 ++ rest))
    end.
    { apply (RunFacts.run_bind_eq world _ _ _ _ _ _ _ _ _ Hname).
      apply (RunFacts.run_bind_eq world _ _ _ _ _ _ _ _ _ Halive).
      exact Hrest. }
    rewrite H. reflexivity. }
  destruct alive; cbn [negb] in G.
  - apply G. unfold Notions2.killSession in Hkill.
    rewrite <- (app_nil_r [Ev _ ans]).
    apply (RunFacts.run_bind_eq world _ _ _ _ _ _ _ _ _
             (RetryFacts.run_quiet world _ _ _ _ _ _ Hkill)).
    unfold Notions2.stopped. destruct (Notions.quietError _ _ _ ans);
      reflexivity.
  - rewrite <- (app_nil_r looked). apply G. reflexivity.
Qed.

(** The run of [StopAgent] once the working copy is found and [tmux] is
    there. *)
Lemma run_StopAgent target repoRoot wt session alive present ans
      w w1 w2 w3 w4 w5 w6 w7 t1 t2 t4 t5 t6 :
  let window := tmuxAgentWindowName (worktreeBranchOrName wt) in
  run world RequireRepo w = (Ok repoRoot, w1, t1) ->
  run world (FindWorktree m sortSliceStable target) w1 = (Ok wt, w2, t2) ->
  world _ (LookPath (lit "tmux")) w2 = (true, w3) ->
  run world (tmuxWorktreeSessionName m repoRoot wt) w3 = (session, w4, t4) ->
  run world (tmuxHasSession session) w4 = (alive, w5, t5) ->
  run world (if alive then tmuxWindowExists session window else ret false)
      w5 = (present, w6, t6) ->
  world _ (Notions2.killWindow session window) w6 = (ans, w7) ->
  let looked :=
    t1 ++ t2 ++ [Ev (LookPath (lit "tmux")) true] ++ t4 ++ t5 ++ t6 in
  run world (StopAgent m sortSliceStable target) w
  = if present
    then (Notions2.stopped (Path wt)
            [lit "kill-window"; lit "-t"; session ++ lit ":" ++ window] ans,
          w7, looked ++ [Ev (Notions2.killWindow session window) ans])
    else ((Path wt, false, None), w6, looked).
Proof.
  intros window Hrepo Hfind Hlp Hname Halive Hpresent Hkill looked.
  assert (G : forall res wz rest,
             run world
               (if negb present then ret (Path wt, false, None)
                else
                  e <- runCmdQuiet (lit "") (lit "tmux")
                         [lit "kill-window"; lit "-t";
                          session ++ lit ":" ++ window] ;;
                  match e with
                  | Some err => ret (lit "", false, Some err)
                  | None => ret (Path wt, true, None)
                  end) w6 = (res, wz, rest) ->
             run world (StopAgent m sortSliceStable target) w
             = (res, wz, looked ++ rest)).
  { intros res wz rest Hrest. unfold StopAgent, looked.
    rewrite <- !app_assoc.
    apply (RunFacts.run_bind_eq world _ _ _ _ _ _ _ _ _ Hrepo).
    apply (RunFacts.run_bind_eq world _ _ _ _ _ _ _ _ _ Hfind).
    unfold commandExists, call. cbn [pbind run]. rewrite Hlp.
    cbn [negb pbind].
    match goal with
    | |- context [run world ?p w3] =>
        assert (H : run world p w3 = (res, wz, t4 ++ t5 ++ t6 ++ rest))
    end.
    { apply (RunFacts.run_bind_eq world _ _ _ _ _ _ _ _ _ Hname).
      apply (RunFacts.run_bind_eq world _ _ _ _ _ _ _ _ _ Halive).
      apply (RunFacts.run_bind_eq world _ _ _ _ _ _ _ _ _ Hpresent).
      exact Hrest. }
    rewrite H. reflexivity. }
  destruct present; cbn [negb] in G.
  - apply G. unfold Notions2.killWindow in Hkill.
    rewrite <- (app_nil_r [Ev _ ans]).
    apply (RunFacts.run_bind_eq world _ _ _ _ _ _ _ _ _
             (RetryFacts.run_quiet world _ _ _ _ _ _ Hkill)).
    unfold Notions2.stopped. destruct (Notions.quietError _ _ _ ans);
      reflexivity.
  - rewrite <- (app_nil_r looked). apply G. reflexivity.
Qed.

End Runs.

End StopFacts.

Module KillFacts.
Import Sys Manager Session Traces.

Section Kill.
Context {W : Type} (world : World W).
Variable m : Manager.
Variable sortSliceStable :
  (Worktree -> Worktree -> bool) -> list Worktree -> list Worktree.

(** [Detach] inspects until, at most, one last [tmux kill-session]. *)
Lemma Detach_stops target w :
  let r := Sys.run world (Session.Detach m sortSliceStable target) w in
  exists session,
    Traces.stopsWith
      (fun ans => Sys.Ev (Sys.Exec (lit "") 0 (lit "tmux")
                            [lit "kill-session"; lit "-t"; session]) ans)
      (Traces.trace r) (Traces.outcome r).
Proof.
  cbv zeta.
  set (c := fun session ans =>
              Sys.Ev (Sys.Exec (lit "") 0 (lit "tmux")
                        [lit "kill-session"; lit "-t"; session]) ans).
  set (Q := fun (tr : list Sys.Event) (res : str * bool * option str) =>
              exists session, Traces.stopsWith (c session) tr res).
  apply (HoldFacts.holds_run world _ Q).
  assert (Habs : forall t1 tr b,
             Forall (fun e => Traces.inspects e = true) t1 ->
             Q tr b -> Q (t1 ++ tr) b).
  { intros t1 tr b H1 [session H]. exists session.
    apply StopFacts.stopsWith_absorb; assumption. }
  assert (Hnone : forall p e, Q [] (p, false, e)).
  { intros p e. exists []. apply StopFacts.stopsWith_none. }
  unfold Session.Detach.
  apply (StopFacts.holds_absorb _ _ _ Q Habs TraceFacts.RequireRepo_inspects).
  intros [repoRoot|e]; [|apply Hnone].
  apply (StopFacts.holds_absorb _ _ _ Q Habs
           (TraceFacts.FindWorktree_inspects _ _ _)).
  intros [wt|e]; [|apply Hnone].
  apply (StopFacts.holds_absorb _ _ _ Q Habs).
  { apply TraceFacts.always_call. reflexivity. }
  intros [|]; cbn [negb]; [|apply Hnone].
  apply (StopFacts.holds_absorb _ _ _ Q Habs
           (TraceFacts.sessionName_inspects _ _ _)).
  intros session.
  apply (StopFacts.holds_absorb _ _ _ Q Habs
           (TraceFacts.tmuxHasSession_inspects _)).
  intros [|]; cbn [negb]; [|apply Hnone].
  apply (StopFacts.holds_stop (c session)); [|reflexivity].
  intros r res H. exists session. exact H.
Qed.

(** [StopAgent] inspects until, at most, one last [tmux kill-window] of
    an agent window, and never kills a session. *)
Lemma StopAgent_stops target w :
  let r := Sys.run world (Session.StopAgent m sortSliceStable target) w in
  (exists session window,
     Strings.HasPrefix window (lit "agent-") = true
     /\ Traces.stopsWith
          (fun ans => Sys.Ev (Sys.Exec (lit "") 0 (lit "tmux")
                                [lit "kill-window"; lit "-t";
                                 session ++ lit ":" ++ window]) ans)
          (Traces.trace r) (Traces.outcome r))
  /\ Forall (fun e => Traces.tmux [lit "kill-session"] e = false)
            (Traces.trace r).
Proof.
  cbv zeta.
  set (c := fun session window ans =>
              Sys.Ev (Sys.Exec (lit "") 0 (lit "tmux")
                        [lit "kill-window"; lit "-t";
                         session ++ lit ":" ++ window]) ans).
  set (Q := fun (tr : list Sys.Event) (res : str * bool * option str) =>
              (exists session window,
                 Strings.HasPrefix window (lit "agent-") = true
                 /\ Traces.stopsWith (c session window) tr res)
              /\ Forall (fun e => Traces.tmux [lit "kill-session"] e = false)
                        tr).
  apply (HoldFacts.holds_run world _ Q).
  assert (Hins : forall t1,
             Forall (fun e => Traces.inspects e = true) t1 ->
             Forall (fun e => Traces.tmux [lit "kill-session"] e = false)
                    t1).
  { intros t1 H. eapply Forall_impl; [|exact H].
    intros e He. destruct e as [X [dir timeout name args| | | | | | | | | |] x];
      try reflexivity.
    unfold Traces.inspects, Traces.tmux, Sys.isExecOf in *.
    destruct (str_eqb name (lit "tmux")) eqn:En; [|reflexivity].
    apply str_eqb_eq in En. subst name. cbn [andb].
    destruct args as [|a args]; [reflexivity|].
    cbn [length firstn] in *.
    destruct (list_eq_dec (list_eq_dec ascii_dec) [a] [lit "kill-session"])
      as [Ea|]; [|reflexivity].
    injection Ea as ->. vm_compute in He. discriminate. }
  assert (Habs : forall t1 tr b,
             Forall (fun e => Traces.inspects e = true) t1 ->
             Q tr b -> Q (t1 ++ tr) b).
  { intros t1 tr b H1 [(session & window & Hw & H) Hk]. split.
    - exists session, window. split; [exact Hw|].
      apply StopFacts.stopsWith_absorb; assumption.
    - apply Forall_app. auto. }
  assert (Hnone : forall p e, Q [] (p, false, e)).
  { intros p e. split; [|constructor].
    exists [], (lit "agent-"). split; [reflexivity|].
    apply StopFacts.stopsWith_none. }
  unfold Session.StopAgent.
  apply (StopFacts.holds_absorb _ _ _ Q Habs TraceFacts.RequireRepo_inspects).
  intros [repoRoot|e]; [|apply Hnone].
  apply (StopFacts.holds_absorb _ _ _ Q Habs
           (TraceFacts.FindWorktree_inspects _ _ _)).
  intros [wt|e]; [|apply Hnone].
  apply (StopFacts.holds_absorb _ _ _ Q Habs).
  { apply TraceFacts.always_call. reflexivity. }
  intros [|]; cbn [negb]; [|apply Hnone].
  apply (StopFacts.holds_absorb _ _ _ Q Habs
           (TraceFacts.sessionName_inspects _ _ _)).
  intros session.
  apply (StopFacts.holds_absorb _ _ _ Q Habs
           (TraceFacts.tmuxHasSession_inspects _)).
  intros alive.
  apply (StopFacts.holds_absorb _ _ _ Q Habs).
  { destruct alive; [apply TraceFacts.tmuxWindowExists_inspects | exact I]. }
  intros [|]; cbn [negb]; [|apply Hnone].
  apply (StopFacts.holds_stop
           (c session (Manager.tmuxAgentWindowName
                         (Manager.worktreeBranchOrName wt))));
    [|reflexivity].
  intros r res H. split.
  - exists session, (Manager.tmuxAgentWindowName
                       (Manager.worktreeBranchOrName wt)).
    split; [|exact H].
    unfold Manager.tmuxAgentWindowName. destruct (len _ >? 60); reflexivity.
  - constructor; [reflexivity | constructor].
Qed.

End Kill.

End KillFacts.

(** X10.  The log apart, [Detach] only inspects the repository and the
    multiplexer until, at most, one last action: a [tmux kill-session].
    It reports that it killed a session exactly when that command was
    run and succeeded, and then returns no error; a run that reports
    [false] and no error has only inspected.  The session is that of the
    working copy: when the repository and the working copy are found and
    [tmux] is on the [PATH], [Detach] asks whether the session named by
    [tmuxWorktreeSessionName] for that working copy exists; if it does
    not, it returns the path, [false] and no error, and if it does, it
    kills that session and returns the path and [true], or the error of
    the command. *)
Theorem Detach_kills_last
        (W : Type) (world : Sys.World W) (m : Manager.Manager)
        (sortSliceStable : (Manager.Worktree -> Manager.Worktree -> bool) ->
                           list Manager.Worktree -> list Manager.Worktree)
        (target : str) (w : W) :
  let r := Sys.run world (Session.Detach m sortSliceStable target) w in
  (exists session,
     Traces.stopsWith
       (fun ans => Sys.Ev (Notions2.killSession session) ans)
       (Traces.actions (Traces.trace r)) (Traces.outcome r))
  /\ forall repoRoot wt session alive ans w1 w2 w3 w4 w5 w6 t1 t2 t4 t5,
       Sys.run world Manager.RequireRepo w = (Ok repoRoot, w1, t1) ->
       Sys.run world (Manager.FindWorktree m sortSliceStable target) w1
         = (Ok wt, w2, t2) ->
       world _ (Sys.LookPath (lit "tmux")) w2 = (true, w3) ->
       Sys.run world (Manager.tmuxWorktreeSessionName m repoRoot wt) w3
         = (session, w4, t4) ->
       Sys.run world (Manager.tmuxHasSession session) w4 = (alive, w5, t5) ->
       world _ (Notions2.killSession session) w5 = (ans, w6) ->
       let looked :=
         Traces.actions
           (t1 ++ t2 ++ [Sys.Ev (Sys.LookPath (lit "tmux")) true]
               ++ t4 ++ t5) in
       if alive
       then Traces.actions (Traces.trace r)
            = looked ++ [Sys.Ev (Notions2.killSession session) ans]
            /\ Traces.outcome r
               = Notions2.stopped (Manager.Path wt)
                   [lit "kill-session"; lit "-t"; session] ans
       else Traces.actions (Traces.trace r) = looked
            /\ Traces.outcome r = (Manager.Path wt, false, None).
Proof.
  cbv zeta. split.
  - destruct (KillFacts.Detach_stops world m sortSliceStable target w)
      as [session H].
    exists session. apply StopFacts.stopsWith_actions; [reflexivity|].
    exact H.
  - intros repoRoot wt session alive ans w1 w2 w3 w4 w5 w6 t1 t2 t4 t5
           Hrepo Hfind Hlp Hname Halive Hkill.
    rewrite (StopFacts.run_Detach world m sortSliceStable target _ _ _ _ _
               _ _ _ _ _ _ _ _ _ _ _ Hrepo Hfind Hlp Hname Halive Hkill).
    destruct alive; unfold Traces.trace, Traces.outcome; cbn [fst snd].
    + split; [|reflexivity]. rewrite TraceFacts.actions_app. reflexivity.
    + split; reflexivity.
Qed.

Lemma Detach_kills_last_witness :
  let world := Fake.world Cases2.live [lit "tmux"] in
  let r := Sys.run world
             (Session.Detach Sim.manager Sim.insertionSort (lit "feat")) tt in
  Traces.outcome r = (lit "/r/wt", true, None)
  /\ exists looked,
       Traces.actions (Traces.trace r)
       = looked ++ [Sys.Ev (Notions2.killSession (lit "sprout-repo-feat"))
                           (Fake.ok [])].
Proof.
  cbv zeta. set (world := Fake.world Cases2.live [lit "tmux"]).
  eassert (H1 : Sys.run world Manager.RequireRepo tt = (Ok _, _, _))
    by (vm_compute; reflexivity).
  eassert (H2 : Sys.run world
                  (Manager.FindWorktree Sim.manager Sim.insertionSort
                     (lit "feat")) tt = (Ok _, _, _))
    by (vm_compute; reflexivity).
  match type of H1 with
  | _ = (Ok ?root, _, _) =>
      match type of H2 with
      | _ = (Ok ?wt, _, _) =>
          eassert (H4 : Sys.run world
                          (Manager.tmuxWorktreeSessionName Sim.manager
                             root wt) tt
                        = (lit "sprout-repo-feat", _, _))
            by (vm_compute; reflexivity)
      end
  end.
  eassert (H5 : Sys.run world
                  (Manager.tmuxHasSession (lit "sprout-repo-feat")) tt
                = (true, _, _))
    by (vm_compute; reflexivity).
  pose proof (proj2 (Detach_kills_last unit world Sim.manager
                       Sim.insertionSort (lit "feat") tt)
                _ _ _ _ (Fake.ok []) _ _ tt _ _ tt _ _ _ _
                H1 H2 eq_refl H4 H5 eq_refl) as [Ha Ho].
  split.
  - rewrite Ho. reflexivity.
  - eexists. exact Ha.
Defined.

(** X11.  The log apart, [StopAgent] only inspects until, at most, one
    last action: a [tmux kill-window] of an agent window.  It never kills
    a session; it reports that it stopped an agent exactly when that
    command was run and succeeded, and then returns no error.  The window
    is that of the working copy: when the repository and the working
    copy are found and [tmux] is on the [PATH], [StopAgent] asks whether
    the session of the working copy exists and, if it does, whether it
    has the agent window of its branch; if not, it returns the path,
    [false] and no error, and if so, it kills that window of that session
    and returns the path and [true], or the error of the command. *)
Theorem StopAgent_kills_window
        (W : Type) (world : Sys.World W) (m : Manager.Manager)
        (sortSliceStable : (Manager.Worktree -> Manager.Worktree -> bool) ->
                           list Manager.Worktree -> list Manager.Worktree)
        (target : str) (w : W) :
  let r := Sys.run world (Session.StopAgent m sortSliceStable target) w in
  (exists session window,
     Strings.HasPrefix window (lit "agent-") = true
     /\ Traces.stopsWith
          (fun ans => Sys.Ev (Notions2.killWindow session window) ans)
          (Traces.actions (Traces.trace r)) (Traces.outcome r))
  /\ Forall (fun e => Traces.tmux [lit "kill-session"] e = false)
            (Traces.actions (Traces.trace r))
  /\ forall repoRoot wt session alive present ans
            w1 w2 w3 w4 w5 w6 w7 t1 t2 t4 t5 t6,
       let window :=
         Manager.tmuxAgentWindowName (Manager.worktreeBranchOrName wt) in
       Sys.run world Manager.RequireRepo w = (Ok repoRoot, w1, t1) ->
       Sys.run world (Manager.FindWorktree m sortSliceStable target) w1
         = (Ok wt, w2, t2) ->
       world _ (Sys.LookPath (lit "tmux")) w2 = (true, w3) ->
       Sys.run world (Manager.tmuxWorktreeSessionName m repoRoot wt) w3
         = (session, w4, t4) ->
       Sys.run world (Manager.tmuxHasSession session) w4 = (alive, w5, t5) ->
       Sys.run world
         (if alive then Manager.tmuxWindowExists session window
          else Sys.ret false) w5 = (present, w6, t6) ->
       world _ (Notions2.killWindow session window) w6 = (ans, w7) ->
       let looked :=
         Traces.actions
           (t1 ++ t2 ++ [Sys.Ev (Sys.LookPath (lit "tmux")) true]
               ++ t4 ++ t5 ++ t6) in
       (alive = false -> present = false)
       /\ if present
          then Traces.actions (Traces.trace r)
               = looked ++ [Sys.Ev (Notions2.killWindow session window) ans]
               /\ Traces.outcome r
                  = Notions2.stopped (Manager.Path wt)
                      [lit "kill-window"; lit "-t";
                       session ++ lit ":" ++ window] ans
          else Traces.actions (Traces.trace r) = looked
               /\ Traces.outcome r = (Manager.Path wt, false, None).
Proof.
  cbv zeta.
  destruct (KillFacts.StopAgent_stops world m sortSliceStable target w)
    as [(session & window & Hw & H) Hk].
  split; [|split].
  - exists session, window. split; [exact Hw|].
    apply StopFacts.stopsWith_actions; [reflexivity | exact H].
  - apply (TraceFacts.Forall_actions _
             (fun e => Traces.tmux [lit "kill-session"] e = false));
      [intros e He _; exact He | exact Hk].
  - intros repoRoot wt session' alive present ans
           w1 w2 w3 w4 w5 w6 w7 t1 t2 t4 t5 t6
           Hrepo Hfind Hlp Hname Halive Hpresent Hkill.
    split.
    { intros ->. cbn [Sys.run Sys.ret] in Hpresent.
      injection Hpresent as <- _ _. reflexivity. }
    rewrite (StopFacts.run_StopAgent world m sortSliceStable target
               _ _ _ _ _ _ _ _ _ _ _ _ _ _ _ _ _ _ _
               Hrepo Hfind Hlp Hname Halive Hpresent Hkill).
    destruct present; unfold Traces.trace, Traces.outcome; cbn [fst snd].
    + split; [|reflexivity]. rewrite TraceFacts.actions_app. reflexivity.
    + split; reflexivity.
Qed.

Lemma StopAgent_kills_window_witness :
  let world := Fake.world Cases2.live [lit "tmux"] in
  let r := Sys.run world
             (Session.StopAgent Sim.manager Sim.insertionSort (lit "feat"))
             tt in
  Traces.outcome r = (lit "/r/wt", true, None)
  /\ exists looked,
       Traces.actions (Traces.trace r)
       = looked
         ++ [Sys.Ev (Notions2.killWindow (lit "sprout-repo-feat")
                       (lit "agent-feat")) (Fake.ok [])].
Proof.
  cbv zeta. set (world := Fake.world Cases2.live [lit "tmux"]).
  eassert (H1 : Sys.run world Manager.RequireRepo tt = (Ok _, _, _))
    by (vm_compute; reflexivity).
  eassert (H2 : Sys.run world
                  (Manager.FindWorktree Sim.manager Sim.insertionSort
                     (lit "feat")) tt = (Ok _, _, _))
    by (vm_compute; reflexivity).
  match type of H1 with
  | _ = (Ok ?root, _, _) =>
      match type of H2 with
      | _ = (Ok ?wt, _, _) =>
          eassert (H4 : Sys.run world
                          (Manager.tmuxWorktreeSessionName Sim.manager
                             root wt) tt
                        = (lit "sprout-repo-feat", _, _))
            by (vm_compute; reflexivity)
      end
  end.
  eassert (H5 : Sys.run world
                  (Manager.tmuxHasSession (lit "sprout-repo-feat")) tt
                = (true, _, _))
    by (vm_compute; reflexivity).
  eassert (H6 : Sys.run world
                  (Manager.tmuxWindowExists (lit "sprout-repo-feat")
                     (lit "agent-feat")) tt
                = (true, _, _))
    by (vm_compute; reflexivity).
  pose proof (proj2 (proj2 (StopAgent_kills_window unit world Sim.manager
                              Sim.insertionSort (lit "feat") tt))
                _ _ _ _ _ (Fake.ok []) _ _ tt _ _ _ tt _ _ _ _ _
                H1 H2 eq_refl H4 H5 H6 eq_refl) as [_ [Ha Ho]].
  split.
  - rewrite Ho. reflexivity.
  - eexists. exact Ha.
Defined.

(** ** What removing a working copy may do *)

Module ScopeFacts.
Import Sys Runner Manager Traces TraceFacts.

(** Settles the obligation on a request: it is within the scope, or not
    an action. *)
Ltac scoped :=
  first [ reflexivity
        | intros _; reflexivity
        | let H := fresh "H" in intros H; discriminate H ].

Section Scope.
Variable deleteBranch : bool.

Lemma inspects_removal e : inspects e = true -> removing deleteBranch e.
Proof. unfold removing, removal. intros -> _. reflexivity. Qed.

Lemma looks {A : Type} (p : Prog A) :
  always inspecting p -> always (removing deleteBranch) p.
Proof. apply always_weaken. exact inspects_removal. Qed.

Lemma runGitWorktreeRemove_scope repoRoot path force :
  always (removing deleteBranch) (runGitWorktreeRemove repoRoot path force).
Proof.
  unfold runGitWorktreeRemove, gitWorktreeCommandTimeout.
  apply always_bind.
  - apply always_bind; [|intros; exact I].
    apply always_call. intros x. scoped.
  - intros timeout. apply always_quietTimeout. intros r.
    destruct force; scoped.
Qed.

Lemma killSession_scope session : always (removing deleteBranch) (killSession session).
Proof. unfold killSession. apply always_quiet. intros r. scoped. Qed.

Lemma stopSession_scope m repoRoot wt : always (removing deleteBranch) (stopSession m repoRoot wt).
Proof.
  unfold stopSession.
  apply always_bind; [apply looks, always_call; reflexivity | intros [|]];
    [|exact I].
  apply always_bind; [apply looks, sessionName_inspects | intros session].
  apply always_bind; [apply looks, tmuxHasSession_inspects | intros [|]];
    [|exact I].
  apply always_bind; [apply killSession_scope | intros [e|]; exact I].
Qed.

Lemma removeWithRetry_scope ul repoRoot wt force session warnings :
  always (removing deleteBranch) (removeWithRetry ul repoRoot wt force session warnings).
Proof.
  unfold removeWithRetry.
  apply always_bind; [apply runGitWorktreeRemove_scope | intros [err|]];
    [|exact I].
  destruct (shouldRetryWorktreeRemove ul (Some err)); [|exact I].
  apply always_bind;
    [apply always_quiet; intros; scoped | intros _].
  apply always_bind.
  - destruct (negb (str_eqb session [])); [|exact I].
    apply always_bind; [apply looks, tmuxHasSession_inspects | intros [|]];
      [|exact I].
    apply always_bind; [apply killSession_scope | intros; exact I].
  - intros _.
    apply always_bind; [apply runGitWorktreeRemove_scope | intros [e|]];
      exact I.
Qed.

End Scope.

Lemma deleteBranch_scope m sort repoRoot wt opts warnings :
  always (removing (rm_DeleteBranch opts))
         (deleteBranch m sort repoRoot wt opts warnings).
Proof.
  unfold deleteBranch. destruct (rm_DeleteBranch opts) eqn:E;
    cbn [andb]; [|exact I].
  destruct (negb (str_eqb (Branch wt) [])); [|exact I].
  apply always_bind;
    [apply looks, BranchCheckedOutAnywhere_inspects | intros [|]];
    [exact I|].
  apply always_bind; [|intros [e|]; exact I].
  apply always_quiet. intros r. unfold removing, removal.
  destruct (rm_Force opts); scoped.
Qed.

Lemma Remove_scope ul m sort opts :
  always (removing (rm_DeleteBranch opts)) (Remove ul m sort opts).
Proof.
  unfold Remove.
  apply always_bind; [apply looks, RequireRepo_inspects | intros [repoRoot|e]];
    [|exact I].
  apply always_bind; [apply looks, FindWorktree_inspects | intros [wt|e]];
    [|exact I].
  apply always_bind.
  - destruct (negb (rm_Force opts)); [|exact I].
    apply looks, WorktreeDirty_inspects.
  - intros [|]; [exact I|]. unfold removeClean.
    apply always_bind; [apply stopSession_scope | intros sw].
    apply always_bind; [apply removeWithRetry_scope | intros removed].
    destruct (snd removed); [exact I|]. apply deleteBranch_scope.
Qed.

End ScopeFacts.

(** X12.  The log apart, and whatever happens, the actions of [Remove]
    are inspections, [tmux kill-session], [git worktree remove],
    [git worktree prune] and, only when [DeleteBranch] is set,
    [git branch]: it starts no other process, copies nothing and launches
    nothing. *)
Theorem Remove_requests
        (W : Type) (world : Sys.World W) (unicodeLower : str -> str)
        (m : Manager.Manager)
        (sortSliceStable : (Manager.Worktree -> Manager.Worktree -> bool) ->
                           list Manager.Worktree -> list Manager.Worktree)
        (opts : Manager.RemoveOptions) (w : W) :
  Forall (fun e => Traces.removal (Manager.rm_DeleteBranch opts) e = true)
         (Traces.actions
            (Traces.trace
               (Sys.run world
                  (Manager.Remove unicodeLower m sortSliceStable opts) w))).
Proof.
  apply (TraceFacts.Forall_actions _
           (Traces.removing (Manager.rm_DeleteBranch opts))).
  - intros e He Ha. exact (He Ha).
  - apply (TraceFacts.always_run _ world), ScopeFacts.Remove_scope.
Qed.

(** X13.  When [git status --porcelain] prints something in the
    directory of the working copy that [Remove] found, and [Force] is not
    set, [Remove] returns the dirty-worktree error, no warnings and no
    path, and that [git status] is its last action: the log apart, it has
    only inspected, no session is stopped and nothing is removed. *)
Theorem Remove_refuses_dirty
        (W : Type) (world : Sys.World W) (unicodeLower : str -> str)
        (m : Manager.Manager)
        (sortSliceStable : (Manager.Worktree -> Manager.Worktree -> bool) ->
                           list Manager.Worktree -> list Manager.Worktree)
        (opts : Manager.RemoveOptions) (repoRoot : str)
        (wt : Manager.Worktree) (w w1 w2 w3 : W)
        (t1 t2 : list Sys.Event) (probe : Sys.ProcResult) :
  Manager.rm_Force opts = false ->
  Sys.run world Manager.RequireRepo w = (Ok repoRoot, w1, t1) ->
  Sys.run world (Manager.FindWorktree m sortSliceStable
                   (Manager.rm_Target opts)) w1 = (Ok wt, w2, t2) ->
  world _ (Sys.Exec (Manager.Path wt) 0 (lit "git") Manager.statusArgs) w2
    = (probe, w3) ->
  Sys.pr_err probe = None ->
  Strings.TrimSpace (Strings.TrimRight (Sys.pr_out probe) Runner.isNewline)
    <> [] ->
  let status :=
    Sys.Ev (Sys.Exec (Manager.Path wt) 0 (lit "git") Manager.statusArgs)
           probe in
  let r := Sys.run world (Manager.Remove unicodeLower m sortSliceStable opts)
             w in
  Traces.outcome r = (lit "", [], Some (Manager.dirtyError (Manager.Path wt)))
  /\ Traces.actions (Traces.trace r)
     = Traces.actions t1 ++ Traces.actions t2 ++ [status]
  /\ Forall (fun e => Traces.inspects e = true)
            (Traces.actions (Traces.trace r)).
Proof.
  intros Hforce Hrepo Hfind Hprobe Herr Hout status.
  pose proof (RemoveFacts.run_WorktreeDirty world _ _ _ _ Hprobe) as Hdirty.
  rewrite Herr in Hdirty. fold status in Hdirty.
  apply str_eqb_neq in Hout. rewrite Hout in Hdirty. cbn [negb] in Hdirty.
  assert (Hrun : Sys.run world
                   (Manager.Remove unicodeLower m sortSliceStable opts) w
                 = ((lit "", [], Some (Manager.dirtyError (Manager.Path wt))),
                    w3, t1 ++ t2 ++ [status])).
  { unfold Manager.Remove.
    apply (RunFacts.run_bind_eq world _ _ _ _ _ _ _ _ _ Hrepo).
    apply (RunFacts.run_bind_eq world _ _ _ _ _ _ _ _ _ Hfind).
    rewrite Hforce. cbn [negb].
    rewrite <- (app_nil_r [status]).
    apply (RunFacts.run_bind_eq world _ _ _ _ _ _ _ _ _ Hdirty).
    reflexivity. }
  cbv zeta. rewrite Hrun. unfold Traces.outcome, Traces.trace.
  cbn [fst snd].
  assert (H1 : Forall (fun e => Traces.inspects e = true) t1).
  { pose proof (TraceFacts.always_run _ world _
                  TraceFacts.RequireRepo_inspects w) as H.
    rewrite Hrepo in H. exact H. }
  assert (H2 : Forall (fun e => Traces.inspects e = true) t2).
  { pose proof (TraceFacts.always_run _ world _
                  (TraceFacts.FindWorktree_inspects m sortSliceStable
                     (Manager.rm_Target opts)) w1) as H.
    rewrite Hfind in H. exact H. }
  split; [reflexivity|]. split.
  - rewrite !TraceFacts.actions_app. reflexivity.
  - apply (TraceFacts.Forall_actions _ (fun e => Traces.inspects e = true)).
    + intros e He _. exact He.
    + apply Forall_app. split; [exact H1|]. apply Forall_app.
      split; [exact H2|]. constructor; [reflexivity | constructor].
Qed.

Lemma Remove_refuses_dirty_witness :
  Traces.outcome
    (Sys.run (Fake.world (Cases2.repo (lit " M main.go" ++ Cases2.nl)) [])
       (Manager.Remove (fun s => s) Sim.manager Sim.insertionSort
          Cases2.removeFeat) tt)
  = (lit "", [], Some (Manager.dirtyError (lit "/r/wt"))).
Proof.
  set (world := Fake.world (Cases2.repo (lit " M main.go" ++ Cases2.nl)) []).
  eassert (H1 : Sys.run world Manager.RequireRepo tt = _)
    by (vm_compute; reflexivity).
  eassert (H2 : Sys.run world
                  (Manager.FindWorktree Sim.manager Sim.insertionSort
                     (Manager.rm_Target Cases2.removeFeat)) tt = _)
    by (vm_compute; reflexivity).
  eassert (H3 : world _ (Sys.Exec (lit "/r/wt") 0 (lit "git")
                           Manager.statusArgs) tt = _)
    by (vm_compute; reflexivity).
  destruct (Remove_refuses_dirty unit world (fun s => s) Sim.manager
              Sim.insertionSort Cases2.removeFeat _ _ _ _ _ _ _ _ _
              eq_refl H1 H2 H3 eq_refl ltac:(vm_compute; discriminate))
    as [Hres _].
  exact Hres.
Defined.

(** ** Going to a working copy *)

Module GoFacts.
Import Sys Traces.

Lemma inspects_not_attaches e : inspects e = true -> attaches e = false.
Proof.
  destruct e as [X [dir timeout name args| | | | | | | | | |] x];
    try reflexivity.
  intros H. vm_compute in H. discriminate.
Qed.

End GoFacts.

(** X14.  The log apart, the actions of [Go] are inspections and the
    launch of the session.  Without [Launch] it only inspects; and it
    asks to attach a client from outside the multiplexer only when
    [Attach] is set and the [TMUX] variable it read was empty. *)
Theorem Go_launches_on_request
        (W : Type) (world : Sys.World W) (m : Manager.Manager)
        (sortSliceStable : (Manager.Worktree -> Manager.Worktree -> bool) ->
                           list Manager.Worktree -> list Manager.Worktree)
        (opts : Session.GoOptions) (w : W) :
  let tr := Traces.trace
              (Sys.run world (Session.Go m sortSliceStable opts) w) in
  Forall (fun e => Traces.inspects e || Traces.launches e = true)
         (Traces.actions tr)
  /\ (Session.go_Launch opts = false ->
      Forall (fun e => Traces.inspects e = true) (Traces.actions tr))
  /\ (forall e, In e tr -> Traces.attaches e = true ->
        Session.go_Attach opts = true
        /\ In (Sys.Ev (Sys.Getenv (lit "TMUX")) []) tr).
Proof.
  cbv zeta.
  set (Q := fun (tr : list Sys.Event) (res : result str) =>
              Forall (fun e => Traces.inspects e || Traces.launches e = true)
                     (Traces.actions tr)
              /\ (Session.go_Launch opts = false ->
                  Forall (fun e => Traces.inspects e = true)
                         (Traces.actions tr))
              /\ (forall e, In e tr -> Traces.attaches e = true ->
                    Session.go_Attach opts = true
                    /\ In (Sys.Ev (Sys.Getenv (lit "TMUX")) []) tr)).
  apply (HoldFacts.holds_run world _ Q).
  assert (Habs : forall t1 tr b,
             Forall (fun e => Traces.inspects e = true) t1 ->
             Q tr b -> Q (t1 ++ tr) b).
  { intros t1 tr b H1 (Ha & Hb & Hc). unfold Q.
    rewrite TraceFacts.actions_app, (TraceFacts.actions_inspections t1 H1).
    split; [|split].
    - apply Forall_app. split; [|exact Ha].
      eapply Forall_impl; [|exact H1]. intros e ->. reflexivity.
    - intros Hl. apply Forall_app. auto.
    - intros e Hin Hat. apply in_app_or in Hin as [Hin|Hin].
      + rewrite Forall_forall in H1.
        rewrite (GoFacts.inspects_not_attaches e (H1 e Hin)) in Hat.
        discriminate.
      + destruct (Hc e Hin Hat) as [H2 H3]. split; [exact H2|].
        apply in_or_app. auto. }
  assert (Hnone : Q [] (Err [])).
  { split; [constructor|]. split; [constructor|]. intros e []. }
  unfold Session.Go.
  apply (StopFacts.holds_absorb _ _ _ Q Habs TraceFacts.RequireRepo_inspects).
  intros [repoRoot|e]; [|exact Hnone].
  apply (StopFacts.holds_absorb _ _ _ Q Habs
           (TraceFacts.FindWorktree_inspects _ _ _)).
  intros [wt|e]; [|exact Hnone].
  destruct (Session.go_Launch opts) eqn:Hl.
  2:{ cbn [Sys.pbind Sys.ret]. exact Hnone. }
  apply (StopFacts.holds_absorb _ _ _ Q Habs).
  { apply TraceFacts.always_call. reflexivity. }
  intros [|]; [|exact Hnone].
  apply HoldFacts.holds_bind, HoldFacts.holds_call. intros env.
  apply HoldFacts.holds_bind, HoldFacts.holds_call. intros ans.
  assert (G : forall res,
             Q [Sys.Ev (Sys.Getenv (lit "TMUX")) env;
                Sys.Ev (Sys.LaunchOrFocus repoRoot
                          (if str_eqb (Manager.Branch wt) []
                           then Lib.filepath_Base (Manager.Path wt)
                           else Manager.Branch wt)
                          (Manager.Path wt)
                          (if str_eqb env [] then Session.go_Attach opts
                           else false)) ans] res).
  { intros res. split; [|split].
    - unfold Traces.actions. cbn [filter Traces.acts].
      constructor; [reflexivity | constructor].
    - discriminate.
    - intros e [<-|[<-|[]]] Hat; [discriminate|].
      cbn [Traces.attaches] in Hat.
      destruct (str_eqb env []) eqn:E; [|discriminate].
      apply str_eqb_eq in E. subst env. split; [exact Hat|].
      left. reflexivity. }
  destruct ans; cbn [Traces.holds Sys.ret app]; apply G.
Qed.

(** ** Talking to a pane *)

(** X15.  [tmuxSendPaneCommand] sends nothing for a blank command.
    Otherwise it types the trimmed command literally ([send-keys -l])
    and, only when that succeeded, presses Enter ([send-keys C-m]); its
    error is that of the first request that failed. *)
Theorem tmuxSendPaneCommand_protocol
        (W : Type) (world : Sys.World W) (pane command : str) (w : W) :
  let r := Sys.run world (Session.tmuxSendPaneCommand pane command) w in
  let text := Strings.TrimSpace command in
  let typed := Notions2.sendKeys pane [lit "-l"; text] in
  let enter := Notions2.sendKeys pane [lit "C-m"] in
  (text = [] ->
   Traces.trace r = []
   /\ Traces.outcome r = Some (lit "command cannot be empty"))
  /\ (text <> [] ->
      exists a1,
        (Notions2.succeeded a1 = false
         /\ Traces.trace r = [typed a1]
         /\ Traces.outcome r
            = Notions.quietError 0 (lit "tmux")
                [lit "send-keys"; lit "-t"; pane; lit "-l"; text] a1)
        \/ (Notions2.succeeded a1 = true
            /\ exists a2,
                 Traces.trace r = [typed a1; enter a2]
                 /\ Traces.outcome r
                    = Notions.quietError 0 (lit "tmux")
                        [lit "send-keys"; lit "-t"; pane; lit "C-m"] a2)).
Proof.
  cbv zeta. unfold Session.tmuxSendPaneCommand.
  destruct (str_eqb (Strings.TrimSpace command) []) eqn:E.
  - apply str_eqb_eq in E. split; [|congruence].
    intros _. split; reflexivity.
  - apply str_eqb_neq in E. split; [congruence|]. intros _.
    unfold Session.tmuxSendPaneKeys, Runner.runCmdQuiet, Runner.runCmdBytes,
      Runner.runCmdBytesWithTimeout, Sys.call, Sys.ret,
      Notions.quietError, Notions2.succeeded, Notions2.sendKeys,
      Traces.trace, Traces.outcome.
    cbn [Sys.pbind Sys.run app].
    destruct (world _ _ w) as [a1 w1]. exists a1.
    destruct (Sys.pr_err a1) as [err|];
      cbn [Sys.pbind Sys.run Runner.errorOf app fst snd].
    + left. auto.
    + right. split; [reflexivity|].
      destruct (world _ _ w1) as [a2 w2]. exists a2.
      destruct (Sys.pr_err a2); cbn [Sys.pbind Sys.run Runner.errorOf fst snd];
        auto.
Qed.

(** X16.  [tmuxSendPaneKeys] without keys, and [tmuxResizePane] with a
    blank target or a width or height that is not positive, return an
    error and ask nothing of the multiplexer; with a target and positive
    sizes [tmuxResizePane] makes exactly one request, [resize-pane] with
    the sizes in decimal. *)
Theorem pane_requests_are_validated
        (W : Type) (world : Sys.World W) (pane : str) (width height : Z)
        (w : W) :
  let keys := Sys.run world (Session.tmuxSendPaneKeys pane []) w in
  let size := Sys.run world (Session.tmuxResizePane pane width height) w in
  (Traces.trace keys = [] /\ Traces.outcome keys <> None)
  /\ (Strings.TrimSpace pane = [] \/ width <= 0 \/ height <= 0 ->
      Traces.trace size = [] /\ Traces.outcome size <> None)
  /\ (Strings.TrimSpace pane <> [] -> 0 < width -> 0 < height ->
      exists ans,
        Traces.trace size = [Notions2.resizePane pane width height ans]
        /\ (Traces.outcome size = None <-> Notions2.succeeded ans = true)).
Proof.
  cbv zeta. split; [|split].
  - split; [reflexivity | discriminate].
  - intros H. unfold Session.tmuxResizePane.
    destruct (str_eqb (Strings.TrimSpace pane) []) eqn:E.
    + split; [reflexivity | discriminate].
    + apply str_eqb_neq in E.
      destruct H as [H|H]; [contradiction|].
      assert (G : (width <=? 0) || (height <=? 0) = true).
      { apply orb_true_iff. destruct H; [left | right]; apply Z.leb_le; lia. }
      rewrite G. split; [reflexivity | discriminate].
  - intros Hp Hw Hh. unfold Session.tmuxResizePane.
    apply str_eqb_neq in Hp. rewrite Hp.
    assert (G : (width <=? 0) || (height <=? 0) = false).
    { apply orb_false_iff. split; apply Z.leb_gt; lia. }
    rewrite G.
    unfold Runner.runCmdQuiet, Runner.runCmdBytes,
      Runner.runCmdBytesWithTimeout, Sys.call, Sys.ret,
      Notions2.succeeded, Notions2.resizePane, Traces.trace, Traces.outcome.
    cbn [Sys.pbind Sys.run].
    destruct (world _ _ w) as [ans w1]. exists ans.
    destruct (Sys.pr_err ans);
      cbn [Sys.pbind Sys.run Runner.errorOf fst snd];
      (split; [reflexivity|]); split; congruence.
Qed.

Lemma pane_requests_are_validated_witness :
  exists ans,
    Traces.trace
      (Sys.run (Fake.world (fun _ _ _ => Fake.ok []) [])
         (Session.tmuxResizePane (lit "s:w.0") 80 24) tt)
    = [Notions2.resizePane (lit "s:w.0") 80 24 ans].
Proof.
  destruct (proj2 (proj2 (pane_requests_are_validated unit
                            (Fake.world (fun _ _ _ => Fake.ok []) [])
                            (lit "s:w.0") 80 24 tt))
                  ltac:(vm_compute; discriminate) ltac:(lia) ltac:(lia))
    as [ans [H _]].
  exists ans. exact H.
Defined.

(** ** Making sure a session exists *)

Module EnsureFacts.
Import Sys Runner Manager Session Windows Traces Notions Notions2 HoldFacts.


Section Create.
Variable unicodeLower : str -> str.
Variables session window repoRoot : str.


End Create.

End EnsureFacts.


(** ** The base branch *)

(** X18.  An explicit request is never replaced: with a non-empty
    [requested], [ResolveBaseBranch] runs the one [git show-ref] for that
    branch and returns the branch when it exists and the error
    [base branch not found] otherwise.  Without a request it runs
    [git show-ref] for the configured branch and returns it when it exists;
    when it does not, it runs [git symbolic-ref --quiet --short HEAD] and
    returns the current branch, trimmed, or the error
    [unable to infer base branch] when the command fails or names no
    branch. *)
Theorem ResolveBaseBranch_honours_request
        (W : Type) (world : Sys.World W) (m : Manager.Manager)
        (repoRoot requested : str) (w : W) :
  let r := Sys.run world (Manager.ResolveBaseBranch m repoRoot requested) w
  in
  let base := Manager.BaseBranch (Manager.Cfg m) in
  (requested <> [] ->
   exists ans,
     Traces.trace r
     = [Sys.Ev (Sys.Exec repoRoot 0 (lit "git")
                  (Manager.showRefArgs requested)) ans]
     /\ Traces.outcome r
        = if Notions2.succeeded ans then Ok requested
          else Err (lit "base branch not found: " ++ requested))
  /\ (requested = [] ->
      exists a0,
        let show := Sys.Ev (Sys.Exec repoRoot 0 (lit "git")
                              (Manager.showRefArgs base)) a0 in
        if Notions2.succeeded a0
        then Traces.trace r = [show] /\ Traces.outcome r = Ok base
        else
          exists a1,
            Traces.trace r
            = [show;
               Sys.Ev (Sys.Exec repoRoot 0 (lit "git") Notions2.currentArgs)
                      a1]
            /\ Traces.outcome r
               = if str_eqb (Notions2.currentOf a1) []
                 then Err (lit "unable to infer base branch (detached HEAD and '"
                           ++ base ++ lit "' missing)")
                 else Ok (Notions2.currentOf a1)).
Proof.
  cbv zeta. unfold Manager.ResolveBaseBranch, Manager.BranchExists,
    Manager.CurrentBranch, Runner.runCmdOutput, Runner.runCmdBytes,
    Runner.runCmdBytesWithTimeout, Sys.call, Sys.ret, Notions2.currentOf,
    Notions2.currentArgs, Notions2.succeeded, Traces.trace, Traces.outcome.
  destruct (str_eqb requested []) eqn:E; cbn [negb].
  - apply str_eqb_eq in E. split; [congruence|]. intros _.
    cbn [Sys.pbind Sys.run].
    destruct (world _ _ w) as [a0 w1]. cbn [Sys.pbind Sys.run].
    exists a0.
    destruct (Sys.pr_err a0); cbn [Sys.pbind Sys.run fst snd].
    + destruct (world _ _ w1) as [a1 w2]. cbn [Sys.pbind Sys.run].
      exists a1.
      destruct (Sys.pr_err a1); cbn [Sys.pbind Sys.run fst snd].
      * split; reflexivity.
      * match goal with |- context [str_eqb ?c []] =>
          destruct (str_eqb c []) eqn:Ec end;
          cbn [Sys.run fst snd]; split; reflexivity.
    + split; reflexivity.
  - apply str_eqb_neq in E. split; [|congruence]. intros _.
    cbn [Sys.pbind Sys.run].
    destruct (world _ _ w) as [ans w1]. cbn [Sys.pbind Sys.run].
    exists ans.
    destruct (Sys.pr_err ans); cbn [Sys.pbind Sys.run fst snd negb];
      split; reflexivity.
Qed.

Lemma ResolveBaseBranch_honours_request_witness :
  let r := Sys.run Sim.world
             (Manager.ResolveBaseBranch Sim.manager (lit "/r/repo")
                (lit "gone")) Sim.fresh in
  exists ans,
    Traces.trace r
    = [Sys.Ev (Sys.Exec (lit "/r/repo") 0 (lit "git")
                 (Manager.showRefArgs (lit "gone"))) ans]
    /\ Traces.outcome r
       = if Notions2.succeeded ans then Ok (lit "gone")
         else Err (lit "base branch not found: " ++ lit "gone").
Proof.
  apply (proj1 (ResolveBaseBranch_honours_request Sim.state Sim.world
                  Sim.manager (lit "/r/repo") (lit "gone") Sim.fresh)).
  discriminate.
Defined.

(** ** Names that are refused *)

(** X19.  When no branch is given and the type and name do not make a
    branch name, [NewWorktree] fails with the error of [MakeBranchName]
    (or with that of [RequireRepo]).  The log apart, its one action is
    the [git rev-parse] that locates the repository: no working copy is
    added, nothing is copied and nothing is launched. *)
Theorem NewWorktree_refuses_bad_name
        (W : Type) (world : Sys.World W) (unicodeLower : str -> str)
        (m : Manager.Manager) (opts : Manager.NewOptions) (e : str)
        (w : W) :
  Strings.TrimSpace (Manager.opt_Branch opts) = [] ->
  Manager.opt_FromBranch opts = [] ->
  Naming.MakeBranchName unicodeLower (Manager.opt_Type opts)
    (Manager.opt_Name opts) = Err e ->
  let r := Sys.run world (Manager.NewWorktree unicodeLower m opts) w in
  exists ans,
    Traces.actions (Traces.trace r)
    = [Sys.Ev (Sys.Exec (lit "") 0 (lit "git")
                 [lit "rev-parse"; lit "--show-toplevel"]) ans]
    /\ Traces.outcome r
       = Err (if Notions2.succeeded ans then e else Manager.ErrNotGitRepo).
Proof.
  intros Hb Hf Hn. cbv zeta.
  unfold Manager.NewWorktree, Manager.RequireRepo, Runner.runCmdOutput,
    Runner.runCmdBytes, Runner.runCmdBytesWithTimeout, Sys.call, Sys.ret,
    Notions2.succeeded, Traces.trace, Traces.outcome.
  cbn [Sys.pbind Sys.run].
  destruct (world _ _ w) as [ans w1]. cbn [Sys.pbind Sys.run].
  exists ans.
  destruct (Sys.pr_err ans); cbn [Sys.pbind Sys.run fst snd].
  - split; reflexivity.
  - rewrite Hf, Hb. cbn [str_eqb negb]. rewrite Hn.
    cbn [Sys.run fst snd]. split; reflexivity.
Qed.

Lemma NewWorktree_refuses_bad_name_witness :
  let opts := {| Manager.opt_Branch := lit "  ";
                 Manager.opt_Type := lit "feature";
                 Manager.opt_Name := lit "login";
                 Manager.opt_BaseBranch := lit "";
                 Manager.opt_FromBranch := lit "";
                 Manager.opt_Launch := true |} in
  exists ans e,
    Traces.actions
      (Traces.trace
         (Sys.run Sim.world
            (Manager.NewWorktree (fun s => s) Sim.manager opts) Sim.fresh))
    = [Sys.Ev (Sys.Exec (lit "") 0 (lit "git")
                 [lit "rev-parse"; lit "--show-toplevel"]) ans]
    /\ Traces.outcome
         (Sys.run Sim.world
            (Manager.NewWorktree (fun s => s) Sim.manager opts) Sim.fresh)
       = Err e.
Proof.
  intros opts.
  destruct (NewWorktree_refuses_bad_name Sim.state Sim.world (fun s => s)
              Sim.manager opts _ Sim.fresh eq_refl eq_refl eq_refl)
    as (ans & Htr & Hres).
  exists ans. eexists. split; [exact Htr | exact Hres].
Defined.

(** ** Splitting and joining lines *)

Module LineFacts.
Import Strings Manager Notions.

Lemma SplitByte_nonempty sep s : SplitByte sep s <> [].
Proof.
  destruct s as [|c cs]; cbn [SplitByte]; [discriminate|].
  destruct (ascii_dec c sep); [discriminate|].
  destruct (SplitByte sep cs); discriminate.
Qed.

Lemma Join_cons_char c f fs sep :
  Join ((c :: f) :: fs) sep = c :: Join (f :: fs) sep.
Proof. destruct fs; reflexivity. Qed.

Lemma Join_SplitByte sep : forall s, Join (SplitByte sep s) [sep] = s.
Proof.
  induction s as [|c cs IH]; [reflexivity|].
  cbn [SplitByte]. revert IH. destruct (ascii_dec c sep) as [->|n]; intros IH.
  - pose proof (SplitByte_nonempty sep cs) as Hne. revert IH.
    destruct (SplitByte sep cs) as [|f fs] eqn:E; [contradiction|].
    intros IH.
    change (Join ([] :: f :: fs) [sep])
      with (sep :: Join (f :: fs) [sep]).
    exact (f_equal (cons sep) IH).
  - pose proof (SplitByte_nonempty sep cs) as Hne. revert IH.
    destruct (SplitByte sep cs) as [|f fs] eqn:E; [contradiction|].
    intros IH. rewrite Join_cons_char. exact (f_equal (cons c) IH).
Qed.

(** The last field of a string that ends with another byte than the
    separator is not empty. *)
Lemma SplitByte_snoc sep c : c <> sep -> forall s,
  exists front lst, SplitByte sep (s ++ [c]) = front ++ [lst ++ [c]].
Proof.
  intros Hc. induction s as [|d s (front & lst & IH)].
  - exists [], []. cbn. destruct (ascii_dec c sep); [contradiction|].
    reflexivity.
  - change ((d :: s) ++ [c]) with (d :: (s ++ [c])). cbn [SplitByte].
    rewrite IH. destruct (ascii_dec d sep).
    + exists ([] :: front), lst. reflexivity.
    + destruct front as [|f front].
      * exists [], (d :: lst). reflexivity.
      * exists ((d :: f) :: front), lst. reflexivity.
Qed.

Lemma captureRows_trimmed out :
  let s := TrimRight out Runner.isNewline in
  Join (captureRows s) [chr 10] = s.
Proof.
  cbv zeta. unfold TrimRight.
  pose proof (StringFacts.TrimLeftIn_starts Runner.isNewline (rev out)) as H.
  unfold TrimRightIn. destruct (TrimLeftIn Runner.isNewline (rev out))
    as [|c r] eqn:E; [reflexivity|].
  cbn [rev]. cbn [startsIn] in H.
  assert (Hc : c <> chr 10).
  { intros ->. vm_compute in H. discriminate. }
  destruct (SplitByte_snoc (chr 10) c Hc (rev r)) as (front & lst & Hs).
  unfold captureRows. rewrite Hs.
  rewrite rev_app_distr. cbn [rev app].
  assert (Hl : str_eqb (lst ++ [c]) [] = false).
  { apply str_eqb_neq. destruct lst; discriminate. }
  rewrite Hl. rewrite <- Hs.
  pose proof (SplitByte_nonempty (chr 10) (rev r ++ [c])) as Hne.
  destruct (SplitByte (chr 10) (rev r ++ [c])) eqn:E2; [contradiction|].
  rewrite <- E2. apply Join_SplitByte.
Qed.

End LineFacts.

(** X20.  When the pane's cursor is hidden (the reported flag is not
    [1], which includes every unreadable report) and the capture
    succeeds, [tmuxCapturePaneWithCursor] returns the captured text
    without its trailing newlines, whatever the overlay function is:
    splitting into rows and joining them again changes nothing. *)
Theorem capture_hidden_cursor_is_output
        (W : Type) (world : Sys.World W) (overlay : str -> Z -> str)
        (paneTarget : str) (lines : Z) (w w1 w2 : W)
        (meta cap : Sys.ProcResult) :
  let pm := Manager.paneMeta lines
              (Notions.outputOf (lit "tmux")
                 (Manager.displayArgs paneTarget) meta) in
  world _ (Notions.tmuxExec (Manager.displayArgs paneTarget)) w
    = (meta, w1) ->
  world _ (Notions.tmuxExec
             (Manager.captureArgs paneTarget
                (Manager.captureStart lines pm))) w1 = (cap, w2) ->
  Sys.pr_err cap = None ->
  Manager.cursorFlag pm <> lit "1" ->
  Traces.outcome
    (Sys.run world
       (Manager.tmuxCapturePaneWithCursor overlay paneTarget lines) w)
  = Ok (Strings.TrimRight (Sys.pr_out cap) Runner.isNewline).
Proof.
  intros pm Hd Hc Herr Hflag.
  pose proof (CaptureFacts.run_output world _ _ _ _ _ _ Hd) as H1.
  pose proof (CaptureFacts.run_output world _ _ _ _ _ _ Hc) as H2.
  unfold Notions.outputOf in H2 at 1. rewrite Herr in H2.
  assert (Hrun : Sys.run world
                   (Manager.tmuxCapturePaneWithCursor overlay paneTarget
                      lines) w
                 = (Ok (Manager.overlayRows overlay pm
                          (Manager.captureRows
                             (Strings.TrimRight (Sys.pr_out cap)
                                Runner.isNewline))),
                    w2,
                    [Sys.Ev (Notions.tmuxExec
                               (Manager.displayArgs paneTarget)) meta]
                      ++ [Sys.Ev (Notions.tmuxExec
                                    (Manager.captureArgs paneTarget
                                       (Manager.captureStart lines pm)))
                                 cap] ++ [])).
  { unfold Manager.tmuxCapturePaneWithCursor.
    apply (RunFacts.run_bind_eq world _ _ _ _ _ _ _ _ _ H1).
    apply (RunFacts.run_bind_eq world _ _ _ _ _ _ _ _ _ H2).
    reflexivity. }
  rewrite Hrun. unfold Traces.outcome. cbn [fst]. f_equal.
  unfold Manager.overlayRows. apply str_eqb_neq in Hflag.
  rewrite Hflag. cbn [negb].
  exact (LineFacts.captureRows_trimmed (Sys.pr_out cap)).
Qed.

Lemma capture_hidden_cursor_is_output_witness :
  Traces.outcome
    (Sys.run
       (Fake.world
          (fun _ _ args =>
             if Sim.starts args [lit "display-message"]
             then Fake.ok (lit "0 3 7 40" ++ [chr 10])
             else Fake.ok (lit "$ make" ++ [chr 10] ++ lit "ok"
                           ++ [chr 10; chr 10]))
          [])
       (Manager.tmuxCapturePaneWithCursor (fun row _ => lit "?")
          (lit "s:w.0") 20) tt)
  = Ok (lit "$ make" ++ [chr 10] ++ lit "ok").
Proof.
  eapply (capture_hidden_cursor_is_output unit
            (Fake.world
               (fun _ _ args =>
                  if Sim.starts args [lit "display-message"]
                  then Fake.ok (lit "0 3 7 40" ++ [chr 10])
                  else Fake.ok (lit "$ make" ++ [chr 10] ++ lit "ok"
                                ++ [chr 10; chr 10]))
               [])
            (fun row _ => lit "?") (lit "s:w.0") 20 tt tt tt
            (Fake.ok (lit "0 3 7 40" ++ [chr 10]))
            (Fake.ok (lit "$ make" ++ [chr 10] ++ lit "ok"
                      ++ [chr 10; chr 10]))).
  - reflexivity.
  - reflexivity.
  - reflexivity.
  - vm_compute. discriminate.
Defined.

(** ** What the list of working copies reports *)

Module YieldFacts.
Import Strings Lib Sys Runner Manager Traces Notions2 HoldFacts.

Lemma yields_bind {A B : Type} (R1 : A -> Prop) (R : B -> Prop)
      (p : Prog A) (f : A -> Prog B) :
  yields R1 p -> (forall a, R1 a -> yields R (f a)) ->
  yields R (pbind p f).
Proof.
  unfold yields. intros Hp Hf. apply holds_bind.
  apply (holds_conseq p (fun _ a => R1 a)); [|exact Hp].
  intros tr a Ha. apply (holds_conseq (f a) (fun _ b => R b)); [auto|].
  apply Hf, Ha.
Qed.

Lemma yields_any {A : Type} (p : Prog A) : yields (fun _ => True) p.
Proof.
  unfold yields. induction p as [a | X c k IH]; cbn [holds]; auto.
Qed.

Lemma yields_mapM {A B : Type} (R0 : A -> Prop) (R : B -> Prop)
      (f : A -> Prog B) (l : list A) :
  (forall x, R0 x -> yields R (f x)) -> Forall R0 l ->
  yields (Forall R) (mapM f l).
Proof.
  intros Hf. induction 1 as [|x l Hx Hl IH]; cbn [mapM];
    [constructor|].
  apply (yields_bind R); [apply Hf, Hx|]. intros y Hy.
  apply (yields_bind (Forall R)); [exact IH|]. intros ys Hys.
  unfold yields. cbn [holds]. constructor; assumption.
Qed.

Lemma Clean_nonempty path : filepath_Clean path <> [].
Proof.
  unfold filepath_Clean. destruct (str_eqb path []); [discriminate|].
  destruct (filepath_IsAbs path); [discriminate|].
  match goal with |- context [str_eqb ?b []] =>
    destruct (str_eqb b []) eqn:E end; [discriminate|].
  apply str_eqb_neq, E.
Qed.

Lemma absPath_nonempty path :
  path <> [] -> yields (fun p => p <> []) (absPath path).
Proof.
  intros Hp. unfold yields, absPath, filepath_Abs.
  destruct (filepath_IsAbs path); cbn [pbind ret holds].
  - apply Clean_nonempty.
  - intros [dir|e]; cbn [pbind ret holds]; [apply Clean_nonempty | exact Hp].
Qed.

Lemma parseWorktreeList_bare repoRoot :
  yields (fun r => forall items, r = Ok items -> Forall bare items)
         (parseWorktreeList repoRoot).
Proof.
  unfold yields, parseWorktreeList. apply holds_bind, holds_output.
  intros r.
  destruct (Notions.outputOf _ _ r) as [out|e]; cbn [holds ret].
  - intros items H. injection H as <-.
    apply ListFacts.flush_bare, ListFacts.fold_parseLine_bare. constructor.
  - discriminate.
Qed.

Lemma describeWorktree_states m repoRoot current hasTmux item :
  Path item <> [] ->
  yields (fun wt => Path wt <> [] /\ Branch wt = Branch item /\ stateOk wt)
         (describeWorktree m repoRoot current hasTmux item).
Proof.
  intros Hp. unfold describeWorktree.
  apply (yields_bind (fun p => p <> [])); [apply absPath_nonempty, Hp|].
  intros path Hpath.
  apply (yields_bind (fun _ => True)); [apply yields_any|]. intros dirty _.
  destruct hasTmux; cbn [negb Path Branch].
  - apply (yields_bind (fun _ => True)); [apply yields_any|].
    intros session _.
    apply (yields_bind (fun _ => True)); [apply yields_any|].
    intros [|] _.
    + apply (yields_bind (fun _ => True)); [apply yields_any|].
      intros agent _. unfold yields. cbn [holds ret]. split; [exact Hpath|].
      split; [reflexivity|]. right. right. cbn [TmuxState AgentState].
      split; [reflexivity|]. destruct agent; auto.
    + unfold yields. cbn [holds ret]. split; [exact Hpath|].
      split; [reflexivity|]. right. left. split; reflexivity.
  - unfold yields. cbn [holds ret]. split; [exact Hpath|].
    split; [reflexivity|]. left. split; reflexivity.
Qed.

End YieldFacts.

(** X21.  Every working copy that [ListWorktrees] returns has a
    non-empty path and one of four states: no multiplexer ([n/a], [n/a]),
    no session ([no], [no]), or a session without or with an agent
    ([yes], [no] or [yes]); an agent is never reported without a
    session.  The sort is only assumed to return elements of its
    input. *)
Theorem ListWorktrees_states
        (W : Type) (world : Sys.World W) (m : Manager.Manager)
        (sortSliceStable : (Manager.Worktree -> Manager.Worktree -> bool) ->
                           list Manager.Worktree -> list Manager.Worktree)
        (w : W) (items : list Manager.Worktree) :
  (forall less l x, In x (sortSliceStable less l) -> In x l) ->
  Traces.outcome (Sys.run world (Manager.ListWorktrees m sortSliceStable) w)
    = Ok items ->
  Forall (fun wt => Manager.Path wt <> [] /\ Notions2.stateOk wt) items.
Proof.
  intros Hsort.
  revert items.
  apply (HoldFacts.holds_run world _
           (fun _ r => forall items, r = Ok items ->
                         Forall (fun wt => Manager.Path wt <> []
                                           /\ Notions2.stateOk wt) items)).
  unfold Manager.ListWorktrees.
  apply (YieldFacts.yields_bind (fun _ => True));
    [apply YieldFacts.yields_any|].
  intros [repoRoot|e] _; [|cbn [Traces.holds Sys.ret]; discriminate].
  apply (YieldFacts.yields_bind
           (fun r => forall items, r = Ok items ->
                       Forall Notions2.bare items));
    [apply YieldFacts.parseWorktreeList_bare|].
  intros [parsed|e] Hparsed; [|cbn [Traces.holds Sys.ret]; discriminate].
  specialize (Hparsed parsed eq_refl).
  apply (YieldFacts.yields_bind (fun _ => True));
    [apply YieldFacts.yields_any|].
  intros current _.
  apply (YieldFacts.yields_bind (fun _ => True));
    [apply YieldFacts.yields_any|].
  intros hasTmux _.
  apply (YieldFacts.yields_bind
           (Forall (fun wt => Manager.Path wt <> []
                              /\ Notions2.stateOk wt))).
  - apply (YieldFacts.yields_mapM
             (fun item => Manager.Path item <> [])).
    + intros item Hitem.
      apply (HoldFacts.holds_conseq _ _ _
               (fun _ wt (H : Manager.Path wt <> []
                              /\ Manager.Branch wt = Manager.Branch item
                              /\ Notions2.stateOk wt) =>
                  conj (proj1 H) (proj2 (proj2 H)))).
      apply YieldFacts.describeWorktree_states, Hitem.
    + eapply Forall_impl; [|exact Hparsed]. intros wt H. apply H.
  - intros described Hd. cbn [Traces.holds Sys.ret].
    intros items H. injection H as <-.
    rewrite Forall_forall in *. intros wt Hin. apply Hd.
    apply (Hsort _ _ _ Hin).
Qed.

Lemma ListWorktrees_states_witness :
  exists items,
    Traces.outcome
      (Sys.run (Fake.world (Cases2.repo []) [lit "tmux"])
         (Manager.ListWorktrees Sim.manager (fun _ l => l)) tt) = Ok items
    /\ Forall (fun wt => Manager.Path wt <> [] /\ Notions2.stateOk wt) items.
Proof.
  eexists. split; [vm_compute; reflexivity|].
  eapply (ListWorktrees_states unit
            (Fake.world (Cases2.repo []) [lit "tmux"]) Sim.manager
            (fun _ l => l) tt).
  - intros less l x H. exact H.
  - vm_compute. reflexivity.
Defined.

(** ** The changed files of a working copy *)

Module DiffFacts.
Import Strings Sys Runner Diff Notions2.

Lemma diffLine_listed files line : listed files -> listed (diffLine files line).
Proof.
  intros [Hn Hf]. unfold diffLine.
  set (l := TrimRight line Manager.isCR).
  destruct (len l <? 3) eqn:L; [split; assumption|].
  destruct (str_eqb (TrimSpace (skipn 3 l)) []); [split; assumption|].
  set (file := match afterLast _ _ with Some _ => _ | None => _ end).
  destruct (str_eqb file []) eqn:E; [split; assumption|].
  destruct (existsb _ files) eqn:X; [split; assumption|].
  apply str_eqb_neq in E. split.
  - rewrite map_app. cbn [map df_Path].
    apply NoDup_app; [exact Hn | repeat constructor; intros [] |].
    intros p Hin [<-|[]]. apply in_map_iff in Hin as (f & Hp & Hin).
    assert (G : existsb (fun f => str_eqb file (df_Path f)) files = true).
    { apply existsb_exists. exists f. split; [exact Hin|].
      apply str_eqb_eq. symmetry. exact Hp. }
    rewrite G in X. discriminate.
  - apply Forall_app. split; [exact Hf|]. constructor; [|constructor].
    split; [exact E|]. cbn [df_Status]. unfold len, slice_to in *.
    rewrite length_firstn. apply Z.ltb_ge in L. lia.
Qed.

Lemma fold_diffLine_listed lines : forall files,
  listed files -> listed (fold_left diffLine lines files).
Proof.
  induction lines as [|l lines IH]; intros files H; [exact H|].
  cbn [fold_left]. apply IH, diffLine_listed, H.
Qed.

End DiffFacts.

(** X22.  The changed files that [WorktreeDiffFiles] returns have
    pairwise distinct, non-empty paths and statuses of two bytes: a path
    that [git status] reports twice is listed once. *)
Theorem WorktreeDiffFiles_distinct
        (W : Type) (world : Sys.World W) (path : str) (w : W)
        (files : list Diff.DiffFile) :
  Traces.outcome (Sys.run world (Diff.WorktreeDiffFiles path) w) = Ok files ->
  NoDup (map Diff.df_Path files) /\ Forall Notions2.entryOk files.
Proof.
  revert files.
  apply (HoldFacts.holds_run world _
           (fun _ r => forall files, r = Ok files -> Notions2.listed files)).
  unfold Diff.WorktreeDiffFiles.
  apply HoldFacts.holds_bind, HoldFacts.holds_output. intros r.
  destruct (Notions.outputOf _ _ r) as [out|e]; cbn [Traces.holds Sys.ret].
  - intros files H. injection H as <-.
    apply DiffFacts.fold_diffLine_listed. split; constructor.
  - discriminate.
Qed.

Lemma WorktreeDiffFiles_distinct_witness :
  let files := [{| Diff.df_Path := lit "a.go"; Diff.df_Status := lit " M" |};
                {| Diff.df_Path := lit "new.go";
                   Diff.df_Status := lit "R " |}] in
  NoDup (map Diff.df_Path files) /\ Forall Notions2.entryOk files.
Proof.
  intros files.
  apply (WorktreeDiffFiles_distinct unit
           (Fake.world
              (fun _ _ _ =>
                 Fake.ok (lit " M a.go" ++ [chr 13; chr 10]
                          ++ lit "R  old.go -> new.go" ++ [chr 10]
                          ++ lit "?? a.go" ++ [chr 10]
                          ++ lit "D" ++ [chr 10]))
              [])
           (lit "/r/wt") tt).
  vm_compute. reflexivity.
Defined.

(** ** The agent's command and pane *)

(** X23.  [agentCommand] never returns an empty command: a configured
    command is returned trimmed, without asking anything; otherwise it
    looks for [codex] on the [PATH] and returns [codex] when it is there,
    and when it is not it reads [SHELL] and returns its value, or [bash]
    when that is empty. *)
Theorem agentCommand_never_empty
        (W : Type) (world : Sys.World W) (configured : str) (w : W) :
  let r := Sys.run world (Session.agentCommand configured) w in
  Traces.outcome r <> []
  /\ (Strings.TrimSpace configured <> [] ->
      Traces.outcome r = Strings.TrimSpace configured
      /\ Traces.trace r = [])
  /\ (Strings.TrimSpace configured = [] ->
      exists codex,
        In (Sys.Ev (Sys.LookPath (lit "codex")) codex) (Traces.trace r)
        /\ (codex = true ->
            Traces.outcome r = lit "codex"
            /\ Traces.trace r = [Sys.Ev (Sys.LookPath (lit "codex")) true])
        /\ (codex = false ->
            exists shell,
              Traces.trace r
              = [Sys.Ev (Sys.LookPath (lit "codex")) false;
                 Sys.Ev (Sys.Getenv (lit "SHELL")) shell]
              /\ Traces.outcome r
                 = if str_eqb shell [] then lit "bash" else shell)).
Proof.
  cbv zeta. unfold Session.agentCommand, Runner.commandExists, Sys.call,
    Sys.ret, Traces.outcome, Traces.trace.
  destruct (str_eqb (Strings.TrimSpace configured) []) eqn:E; cbn [negb].
  - apply str_eqb_eq in E. cbn [Sys.pbind Sys.run].
    destruct (world _ _ w) as [codex w1].
    destruct codex; cbn [Sys.pbind Sys.run fst snd].
    + split; [discriminate|]. split; [congruence|]. intros _.
      exists true. split; [left; reflexivity|].
      split; [intros _; split; reflexivity | discriminate].
    + destruct (world _ _ w1) as [shell w2]. cbn [Sys.run fst snd].
      split.
      * destruct (str_eqb shell []) eqn:Es;
          [discriminate | apply str_eqb_neq, Es].
      * split; [congruence|]. intros _. exists false.
        split; [left; reflexivity|]. split; [discriminate|].
        intros _. exists shell. split; reflexivity.
  - apply str_eqb_neq in E. cbn [Sys.run fst snd].
    split; [exact E|]. split; [auto | congruence].
Qed.

Module SendFacts.
Import Sys Runner Manager Session Traces Notions2 TraceFacts HoldFacts.

Section Inspect.

Lemma findLite_inspects target targetAbs items :
  always inspecting (findLite target targetAbs items).
Proof.
  induction items as [|item rest IH]; cbn [findLite]; [exact I|].
  apply always_bind; [apply absPath_inspects | intros path].
  destruct (matchesTarget _ _ _); [exact I | exact IH].
Qed.

Lemma resolveWorktreeForTmux_inspects target :
  always inspecting (resolveWorktreeForTmux target).
Proof.
  unfold resolveWorktreeForTmux.
  apply always_bind; [apply RequireRepo_inspects | intros [repoRoot|e]];
    [|exact I].
  apply always_bind; [|intros [wt|e]; exact I].
  unfold findWorktreeLite.
  apply always_bind; [apply parseWorktreeList_inspects | intros [items|e]];
    [|exact I].
  apply always_bind; [apply always_call; intros; reflexivity | intros st].
  apply always_bind; [|intros; apply findLite_inspects].
  destruct st as [[|]| |]; try exact I. apply absPath_inspects.
Qed.

Lemma agentPaneTarget_inspects m repoRoot wt :
  always inspecting (agentPaneTarget m repoRoot wt).
Proof.
  unfold agentPaneTarget.
  apply always_bind; [apply sessionName_inspects | intros; exact I].
Qed.

End Inspect.

End SendFacts.

Module KeysFacts.
Import Sys Manager Session Traces.

(** [SendAgentKeys] inspects and then, at most, sends the keys; a blank
    command makes [SendAgentCommand] inspect and fail. *)
Lemma sends_last {W : Type} (world : World W) (m : Manager)
      (target command : str) (keys : list str) (w : W) :
  let sent := Sys.run world (Session.SendAgentKeys m target keys) w in
  let typed := Sys.run world (Session.SendAgentCommand m target command) w in
  (forall e, In e (Traces.trace sent) -> Traces.inspects e = false ->
     keys <> []
     /\ In (Sys.Ev (Sys.LookPath (lit "tmux")) true) (Traces.trace sent)
     /\ exists pre pane ans,
          e = Notions2.sendKeys pane keys ans
          /\ Traces.trace sent = pre ++ [e]
          /\ Forall (fun e => Traces.inspects e = true) pre)
  /\ (Strings.TrimSpace command = [] ->
      Forall (fun e => Traces.inspects e = true) (Traces.trace typed)
      /\ exists err, Traces.outcome typed = Err err).
Proof.
  cbv zeta. split.
  - set (Q := fun (tr : list Sys.Event) (res : result str) =>
                forall e, In e tr -> Traces.inspects e = false ->
                  keys <> []
                  /\ In (Sys.Ev (Sys.LookPath (lit "tmux")) true) tr
                  /\ exists pre pane ans,
                       e = Notions2.sendKeys pane keys ans
                       /\ tr = pre ++ [e]
                       /\ Forall (fun e => Traces.inspects e = true) pre).
    apply (HoldFacts.holds_run world _ Q).
    assert (Habs : forall t1 tr b,
               Forall (fun e => Traces.inspects e = true) t1 ->
               Q tr b -> Q (t1 ++ tr) b).
    { intros t1 tr b H1 H e Hin He.
      apply in_app_or in Hin as [Hin|Hin].
      - rewrite Forall_forall in H1. rewrite (H1 e Hin) in He. discriminate.
      - destruct (H e Hin He) as (Hk & Hl & pre & pane & ans & -> & -> & Hp).
        split; [exact Hk|]. split; [apply in_or_app; auto|].
        exists (t1 ++ pre), pane, ans. rewrite app_assoc.
        split; [reflexivity|]. split; [reflexivity|].
        apply Forall_app. auto. }
    assert (Hnone : Q [] (Err [])) by (intros e []).
    unfold Session.SendAgentKeys.
    apply (StopFacts.holds_absorb _ _ _ Q Habs
             (SendFacts.resolveWorktreeForTmux_inspects target)).
    intros [[repoRoot wt]|e]; [|exact Hnone].
    apply HoldFacts.holds_bind. unfold Session.sendAgentKeysForWorktree.
    apply HoldFacts.holds_bind, HoldFacts.holds_call.
    intros [|]; cbn [negb].
    2:{ cbn [Traces.holds Sys.ret]. intros e [<-|[]] He.
        vm_compute in He. discriminate. }
    set (lp := Sys.Ev (Sys.LookPath (lit "tmux")) true).
    apply HoldFacts.holds_bind.
    apply (HoldFacts.holds_conseq _
             (fun tr _ => Forall (fun e => Traces.inspects e = true) tr));
      [|apply HoldFacts.always_holds, SendFacts.agentPaneTarget_inspects].
    intros t1 pane H1. unfold Session.tmuxSendPaneKeys.
    assert (Hpre : Forall (fun e => Traces.inspects e = true)
                          ([lp] ++ t1)).
    { constructor; [reflexivity | exact H1]. }
    destruct keys as [|k ks].
    + cbn [Traces.holds Sys.ret]. rewrite !app_nil_r.
      intros e Hin He. rewrite Forall_forall in Hpre.
      rewrite (Hpre e Hin) in He. discriminate.
    + apply HoldFacts.holds_quiet. intros ans.
      match goal with
      | |- Traces.holds _ (match ?x with _ => _ end) =>
          assert (G : forall res : result str,
                     Q (([lp] ++ t1 ++ [Notions2.sendKeys pane (k :: ks) ans])
                          ++ []) res)
      end.
      { intros res e Hin He. rewrite app_nil_r in *.
        rewrite app_assoc in Hin. apply in_app_or in Hin as [Hin|Hin].
        - rewrite Forall_forall in Hpre. rewrite (Hpre e Hin) in He.
          discriminate.
        - destruct Hin as [<-|[]]. split; [discriminate|].
          split; [left; reflexivity|].
          exists ([lp] ++ t1), pane, ans. rewrite app_assoc. auto. }
      destruct (Notions.quietError _ _ _ ans); cbn [Traces.holds Sys.ret];
        apply G.
  - intros Hblank.
    set (Q := fun (tr : list Sys.Event) (res : result str) =>
                Forall (fun e => Traces.inspects e = true) tr
                /\ exists err, res = Err err).
    apply (HoldFacts.holds_run world _ Q).
    assert (Habs : forall t1 tr b,
               Forall (fun e => Traces.inspects e = true) t1 ->
               Q tr b -> Q (t1 ++ tr) b).
    { intros t1 tr b H1 [H2 H3]. split; [apply Forall_app; auto | exact H3]. }
    unfold Session.SendAgentCommand.
    apply (StopFacts.holds_absorb _ _ _ Q Habs
             (SendFacts.resolveWorktreeForTmux_inspects target)).
    intros [[repoRoot wt]|e].
    + apply (StopFacts.holds_absorb _ _ _ Q Habs
               (SendFacts.agentPaneTarget_inspects m repoRoot wt)).
      intros pane. unfold Session.tmuxSendPaneCommand. rewrite Hblank.
      cbn [str_eqb Sys.pbind Sys.ret Traces.holds].
      split; [constructor | eauto].
    + cbn [Traces.holds Sys.ret]. split; [constructor | eauto].
Qed.

End KeysFacts.

(** X24.  The log apart, [SendAgentKeys] inspects, and sends keys at
    most once and as its last action: it does so only when [tmux] was
    found on the [PATH] and there are keys to send.  [SendAgentCommand]
    with a blank command only inspects and returns an error. *)
Theorem agent_pane_sends
        (W : Type) (world : Sys.World W) (m : Manager.Manager)
        (target command : str) (keys : list str) (w : W) :
  let sent := Sys.run world (Session.SendAgentKeys m target keys) w in
  let typed := Sys.run world (Session.SendAgentCommand m target command) w in
  (forall e, In e (Traces.actions (Traces.trace sent)) ->
     Traces.inspects e = false ->
     keys <> []
     /\ In (Sys.Ev (Sys.LookPath (lit "tmux")) true)
           (Traces.actions (Traces.trace sent))
     /\ exists pre pane ans,
          e = Notions2.sendKeys pane keys ans
          /\ Traces.actions (Traces.trace sent) = pre ++ [e]
          /\ Forall (fun e => Traces.inspects e = true) pre)
  /\ (Strings.TrimSpace command = [] ->
      Forall (fun e => Traces.inspects e = true)
             (Traces.actions (Traces.trace typed))
      /\ exists err, Traces.outcome typed = Err err).
Proof.
  cbv zeta.
  destruct (KeysFacts.sends_last world m target command keys w)
    as [Hsent Htyped].
  split.
  - intros e Hin He. apply TraceFacts.In_actions in Hin as [Hin _].
    destruct (Hsent e Hin He) as (Hk & Hl & pre & pane & ans & E & Etr & Hp).
    split; [exact Hk|]. split.
    + apply TraceFacts.In_actions. split; [exact Hl | reflexivity].
    + exists pre, pane, ans. split; [exact E|]. split; [|exact Hp].
      rewrite Etr, TraceFacts.actions_app,
        (TraceFacts.actions_inspections pre Hp), E.
      reflexivity.
  - intros Hblank. destruct (Htyped Hblank) as [H1 H2].
    split; [|exact H2].
    apply (TraceFacts.Forall_actions _
             (fun e => Traces.inspects e = true));
      [intros e He _; exact He | exact H1].
Qed.

(** ** Versions *)

Module VersionFacts.
Import Update.

Lemma newer_irrefl v : newer v v = false.
Proof.
  destruct v as [[a b] c]. unfold newer.
  rewrite !Z.gtb_ltb, !Z.ltb_irrefl. reflexivity.
Qed.

Lemma newer_spec l c :
  newer l c = true <->
  let '(l0, l1, l2) := l in
  let '(c0, c1, c2) := c in
  c0 < l0 \/ (c0 = l0 /\ (c1 < l1 \/ (c1 = l1 /\ c2 < l2))).
Proof.
  destruct l as [[l0 l1] l2], c as [[c0 c1] c2]. unfold newer.
  rewrite !Z.gtb_ltb.
  destruct (Z.ltb_spec c0 l0), (Z.ltb_spec l0 c0),
    (Z.ltb_spec c1 l1), (Z.ltb_spec l1 c1),
    (Z.ltb_spec c2 l2), (Z.ltb_spec l2 c2);
    split; intros G; try reflexivity; try discriminate; lia.
Qed.

Lemma newer_asym a b : newer a b = true -> newer b a = false.
Proof.
  intros H. destruct (newer b a) eqn:E; [|reflexivity].
  apply newer_spec in H. apply newer_spec in E.
  destruct a as [[a0 a1] a2], b as [[b0 b1] b2]. lia.
Qed.

Lemma newer_trans a b c :
  newer a b = true -> newer b c = true -> newer a c = true.
Proof.
  intros H1 H2. apply newer_spec in H1. apply newer_spec in H2.
  apply newer_spec.
  destruct a as [[a0 a1] a2], b as [[b0 b1] b2], c as [[c0 c1] c2]. lia.
Qed.

End VersionFacts.

(** X25.  [isNewerVersion] is a strict order on version strings: no
    version is newer than itself, two versions are never each newer than
    the other, and newer-than is transitive.  It holds only between
    strings that both parse as versions. *)
Theorem isNewerVersion_strict_order (unicodeLower : str -> str)
        (a b c : str) :
  let newer := Update.isNewerVersion unicodeLower in
  newer a a = false
  /\ (newer a b = true -> newer b a = false)
  /\ (newer a b = true -> newer b c = true -> newer a c = true)
  /\ (newer a b = true ->
      exists va vb,
        Update.parseSemver unicodeLower a = Some va
        /\ Update.parseSemver unicodeLower b = Some vb
        /\ va <> vb).
Proof.
  cbv zeta. unfold Update.isNewerVersion.
  destruct (Update.parseSemver unicodeLower a) as [va|],
           (Update.parseSemver unicodeLower b) as [vb|],
           (Update.parseSemver unicodeLower c) as [vc|];
    repeat split; try discriminate; try reflexivity;
    try apply VersionFacts.newer_irrefl;
    try apply VersionFacts.newer_asym;
    try apply VersionFacts.newer_trans.
  all: intros H; exists va, vb; repeat split; intros ->;
    rewrite VersionFacts.newer_irrefl in H; discriminate.
Qed.

(** ** The dashboard's helpers *)

Module DashFacts.
Import Dashboard.

Lemma truncate_len s max : 0 <= max -> len (truncate s max) <= max.
Proof.
  intros Hm. unfold truncate.
  destruct (len s <=? max) eqn:L; [apply Z.leb_le, L|].
  apply Z.leb_gt in L.
  destruct (max <=? 0) eqn:Z0; [apply Z.leb_le in Z0; cbn; lia|].
  destruct (max <=? 3) eqn:Z3.
  - unfold len, slice_to in *. rewrite length_firstn. lia.
  - apply Z.leb_gt in Z3. unfold len, slice_to in *.
    rewrite length_app, length_firstn.
    change (length (lit "...")) with 3%nat. lia.
Qed.

Lemma shorten_len fuel path max : forall parts,
  0 <= max -> len (shorten fuel path max parts) <= max.
Proof.
  induction fuel as [|fuel IH]; intros parts Hm; cbn [shorten].
  - apply truncate_len, Hm.
  - destruct (2 <? length parts)%nat; [|apply truncate_len, Hm].
    match goal with |- context [len ?c <=? max] =>
      destruct (len c <=? max) eqn:L end.
    + apply Z.leb_le, L.
    + apply IH, Hm.
Qed.

End DashFacts.

(** X26.  For a width [max] that is not negative, [truncate] and
    [truncatePath] never return more than [max] bytes, and both return
    their argument unchanged when it fits. *)
Theorem truncation_fits (s : str) (max : Z) :
  0 <= max ->
  len (Dashboard.truncate s max) <= max
  /\ len (Dashboard.truncatePath s max) <= max
  /\ (len s <= max ->
      Dashboard.truncate s max = s /\ Dashboard.truncatePath s max = s).
Proof.
  intros Hm. split; [apply DashFacts.truncate_len, Hm|]. split.
  - unfold Dashboard.truncatePath.
    destruct (len s <=? max) eqn:L; [apply Z.leb_le, L|].
    destruct (length _ <=? 2)%nat.
    + apply DashFacts.truncate_len, Hm.
    + apply DashFacts.shorten_len, Hm.
  - intros Hfit. apply Z.leb_le in Hfit.
    unfold Dashboard.truncate, Dashboard.truncatePath. rewrite Hfit. auto.
Qed.

Lemma truncation_fits_witness :
  len (Dashboard.truncate (lit "/home/me/src/repo.worktrees/feat/login") 20)
    <= 20
  /\ len (Dashboard.truncatePath
            (lit "/home/me/src/repo.worktrees/feat/login") 20) <= 20.
Proof.
  destruct (truncation_fits (lit "/home/me/src/repo.worktrees/feat/login")
              20 ltac:(lia)) as (H1 & H2 & _).
  split; [exact H1 | exact H2].
Defined.

(** X27.  The detail view asks for between 20 and 60 lines of a pane,
    whatever the height [h] of its rectangle: [detailCaptureLineCount] is 60
    when the height is not positive, the height plus six kept within
    [20..60] when that sum is an [int], and 20 for the six heights at which
    the sum wraps around. *)
Theorem detailCaptureLineCount_range (h : Z) :
  let n := Dashboard.detailCaptureLineCount h in
  20 <= n <= Dashboard.detailCaptureLines
  /\ (h <= 0 -> n = 60)
  /\ (0 < h <= Dashboard.maxInt - 6 -> n = Z.max 20 (Z.min 60 (h + 6)))
  /\ (Dashboard.maxInt - 6 < h <= Dashboard.maxInt -> n = 20).
Proof.
  cbv zeta. unfold Dashboard.detailCaptureLineCount,
    Dashboard.detailCaptureLines, Dashboard.maxInt.
  destruct (h <=? 0) eqn:E0;
    [apply Z.leb_le in E0 | apply Z.leb_gt in E0].
  - lia.
  - rewrite Z.gtb_ltb.
    set (s := Dashboard.wrap (h + 6)).
    assert (Hs : (h <= 2 ^ 63 - 1 - 6 -> s = h + 6)
                 /\ (2 ^ 63 - 1 - 6 < h <= 2 ^ 63 - 1 -> s < 0)).
    { unfold s, Dashboard.wrap. split; intros Hh.
      - rewrite Z.mod_small; lia.
      - replace (h + 6 + 2 ^ 63) with (h + 6 - 2 ^ 63 + 1 * 2 ^ 64) by lia.
        rewrite Z.mod_add by lia. rewrite Z.mod_small; lia. }
    destruct Hs as [Hsmall Hwrap].
    destruct (60 <? s) eqn:E1;
      [apply Z.ltb_lt in E1 | apply Z.ltb_ge in E1].
    + change (60 <? 20) with false. cbv iota. lia.
    + destruct (s <? 20) eqn:E2;
        [apply Z.ltb_lt in E2 | apply Z.ltb_ge in E2]; lia.
Qed.

(** ** Window names of tools, and pane targets *)

Module TargetFacts.
Import Strings Naming Manager Windows Notions StringFacts SafeFacts.

Lemma safe_lead a :
  safeChar a = true ->
  asciiSpace a = false /\ isb 194 a = false /\ isb 225 a = false
  /\ isb 226 a = false /\ isb 227 a = false.
Proof. each_byte a; vm_compute; repeat split; congruence. Qed.

Lemma safe_trail a :
  safeChar a = true ->
  asciiSpace a = false /\ isb 133 a = false /\ isb 160 a = false
  /\ isb 128 a = false /\ between 128 138 a = false /\ isb 168 a = false
  /\ isb 169 a = false /\ isb 175 a = false /\ isb 159 a = false.
Proof. each_byte a; vm_compute; repeat split; congruence. Qed.

Lemma spaceAtHead_safe s : startsIn safeChar s = true -> spaceAtHead s = 0%nat.
Proof.
  destruct s as [|a t1]; [discriminate|]. cbn [startsIn]. intros Ha.
  destruct (safe_lead a Ha) as (H1 & H2 & H3 & H4 & H5).
  cbn [spaceAtHead]. rewrite H1. destruct t1 as [|b t2]; [reflexivity|].
  unfold space2. rewrite H2. cbn [andb].
  destruct t2 as [|c t3]; [reflexivity|].
  unfold space3. rewrite H3, H4, H5. reflexivity.
Qed.

Lemma spaceAtTail_safe r : startsIn safeChar r = true -> spaceAtTail r = 0%nat.
Proof.
  destruct r as [|a t1]; [discriminate|]. cbn [startsIn]. intros Ha.
  destruct (safe_trail a Ha)
    as (H1 & H2 & H3 & H4 & H5 & H6 & H7 & H8 & H9).
  cbn [spaceAtTail]. rewrite H1. destruct t1 as [|b t2]; [reflexivity|].
  unfold space2. rewrite H2, H3. cbn [orb]. rewrite andb_false_r.
  destruct t2 as [|c t3]; [reflexivity|].
  unfold space3. rewrite H4, H5, H6, H7, H8, H9. cbn [orb].
  rewrite !andb_false_r. reflexivity.
Qed.

Lemma dropSpaces_id (at_end : bool) (fuel : nat) (s : str) :
  (if at_end then spaceAtTail s else spaceAtHead s) = 0%nat ->
  dropSpaces at_end fuel s = s.
Proof.
  intros H. destruct fuel; cbn [dropSpaces]; [|rewrite H]; reflexivity.
Qed.

(** A string whose first and last bytes are of [[A-Za-z0-9._-]] has
    no white space to trim. *)
Lemma TrimSpace_safe s :
  s <> [] -> forallb safeChar s = true -> TrimSpace s = s.
Proof.
  intros Hne Hs. unfold TrimSpace.
  assert (Hh : startsIn safeChar s = true).
  { destruct s as [|a t]; [contradiction|]. cbn [forallb] in Hs.
    apply andb_true_iff in Hs as [Ha _]. exact Ha. }
  assert (Ht : startsIn safeChar (rev s) = true).
  { assert (Hr : forallb safeChar (rev s) = true).
    { apply forallb_forall. intros c Hin. apply in_rev in Hin.
      rewrite forallb_forall in Hs. auto. }
    destruct (rev s) as [|a t] eqn:E.
    - apply (f_equal (@rev ascii)) in E. rewrite rev_involutive in E.
      contradiction.
    - cbn [forallb] in Hr. apply andb_true_iff in Hr as [Ha _]. exact Ha. }
  rewrite (dropSpaces_id false _ s (spaceAtHead_safe s Hh)).
  rewrite (dropSpaces_id true _ (rev s) (spaceAtTail_safe _ Ht)).
  apply rev_involutive.
Qed.

Lemma safe_no_colon s : forallb safeChar s = true -> ~ In ":"%char s.
Proof.
  intros H Hin. rewrite forallb_forall in H.
  exact (safeChar_not_colon _ (H _ Hin) eq_refl).
Qed.

Lemma sessionFromBase_safe base branch path :
  forallb safeChar base = true ->
  forallb safeChar (tmuxWorktreeSessionNameFromBase base branch path) = true.
Proof.
  intros Hb. rewrite NameFacts.session_name_eq. unfold slice_to.
  apply forallb_firstn. rewrite !forallb_app, Hb. unfold safeToken.
  rewrite (proj1 (safeName_closed _)). reflexivity.
Qed.

Lemma sessionNameOf_safe prefix repo :
  forallb safeChar (tmuxSessionNameOf prefix repo) = true.
Proof.
  unfold tmuxSessionNameOf.
  pose proof (proj1 (safeName_closed prefix)) as Hp.
  pose proof (proj1 (safeName_closed repo)) as Hr.
  destruct (str_eqb (safeName prefix) []); [exact Hr|].
  rewrite !forallb_app, Hp, Hr. reflexivity.
Qed.

Lemma cut_safe n name :
  forallb safeChar name = true ->
  forallb safeChar (if len name >? n then slice_to n name else name) = true.
Proof.
  intros H. destruct (len name >? n); [|exact H].
  apply forallb_firstn, H.
Qed.

Lemma SplitByte_plain sep : forall s,
  ~ In sep s -> SplitByte sep s = [s].
Proof.
  induction s as [|c s IH]; intros H; [reflexivity|].
  cbn [SplitByte]. destruct (ascii_dec c sep) as [->|n].
  - exfalso. apply H. left. reflexivity.
  - rewrite IH; [reflexivity|]. intros Hin. apply H. right. exact Hin.
Qed.

Lemma SplitByte_app sep : forall a b,
  ~ In sep a -> SplitByte sep (a ++ sep :: b) = a :: SplitByte sep b.
Proof.
  induction a as [|c a IH]; intros b H.
  - cbn [app SplitByte]. destruct (ascii_dec sep sep); [reflexivity|].
    contradiction.
  - change ((c :: a) ++ sep :: b) with (c :: (a ++ sep :: b)).
    cbn [SplitByte]. destruct (ascii_dec c sep) as [->|n].
    + exfalso. apply H. left. reflexivity.
    + rewrite IH; [reflexivity|]. intros Hin. apply H. right. exact Hin.
Qed.

End TargetFacts.

(** X28.  The window name of a tool is [tool-] followed by the safe
    name of the command's executable, cut to 60 bytes: it starts with
    [tool-], has at most 60 bytes, all of [[A-Za-z0-9._-]], and
    [trimTmuxWindowName] never returns an empty name. *)
Theorem tool_window_names (command name : str) :
  let window := Windows.tmuxCustomWindowName command in
  window = slice_to 60 (lit "tool-"
                        ++ Naming.safeName
                             (Windows.commandExecutableName command))
  /\ Strings.HasPrefix window (lit "tool-") = true
  /\ len window <= 60
  /\ forallb Naming.safeChar window = true
  /\ Windows.trimTmuxWindowName name <> []
  /\ len (Windows.trimTmuxWindowName name) <= 60.
Proof.
  cbv zeta.
  set (exe := Naming.safeName (Windows.commandExecutableName command)).
  assert (Hexe : forallb Naming.safeChar exe = true)
    by apply (proj1 (SafeFacts.safeName_closed _)).
  assert (Hne : exe <> []) by apply NameFacts.safeName_nonempty.
  assert (Hw : Windows.tmuxCustomWindowName command
               = slice_to 60 (lit "tool-" ++ exe)).
  { unfold Windows.tmuxCustomWindowName. fold exe.
    destruct (str_eqb exe []) eqn:E; [apply str_eqb_eq in E; contradiction|].
    unfold Windows.trimTmuxWindowName.
    rewrite TargetFacts.TrimSpace_safe;
      [|discriminate | rewrite forallb_app, Hexe; reflexivity].
    cbn [str_eqb app lit].
    destruct (str_eqb (lit "tool-" ++ exe) []) eqn:E2;
      [apply str_eqb_eq in E2; discriminate|].
    destruct (len (lit "tool-" ++ exe) >? 60) eqn:L; [reflexivity|].
    rewrite Z.gtb_ltb in L. apply Z.ltb_ge in L.
    unfold slice_to, len in *. symmetry. apply firstn_all2. lia. }
  rewrite Hw. split; [reflexivity|]. split; [reflexivity|]. split.
  { unfold slice_to, len. rewrite length_firstn. lia. }
  split.
  { apply SafeFacts.forallb_firstn. rewrite forallb_app, Hexe. reflexivity. }
  unfold Windows.trimTmuxWindowName.
  destruct (str_eqb (Strings.TrimSpace name) []) eqn:E.
  - split; [discriminate | cbn; lia].
  - apply str_eqb_neq in E.
    destruct (len (Strings.TrimSpace name) >? 60) eqn:L.
    + unfold slice_to, len in *. rewrite Z.gtb_ltb in L.
      apply Z.ltb_lt in L. split; [|rewrite length_firstn; lia].
      destruct (Strings.TrimSpace name); [contradiction | discriminate].
    + rewrite Z.gtb_ltb in L. apply Z.ltb_ge in L. auto.
Qed.

(** X29.  The agent pane and the editor pane of a working copy are
    [session:window.0] in the same session.  Neither the session nor the
    window name contains a colon, so the target splits at its only colon
    into the session and the window with its pane index. *)
Theorem pane_targets_split
        (W : Type) (world : Sys.World W) (m : Manager.Manager)
        (repoRoot : str) (wt : Manager.Worktree) (w : W) :
  let branch := Manager.worktreeBranchOrName wt in
  let agent :=
    Traces.outcome
      (Sys.run world (Session.agentPaneTarget m repoRoot wt) w) in
  let editor :=
    Traces.outcome
      (Sys.run world (Session.editorPaneTarget m repoRoot wt) w) in
  exists session,
    session
    = Traces.outcome
        (Sys.run world (Manager.tmuxWorktreeSessionName m repoRoot wt) w)
    /\ ~ In ":"%char session
    /\ Strings.SplitByte ":"%char agent
       = [session; Manager.tmuxAgentWindowName branch ++ lit ".0"]
    /\ Strings.SplitByte ":"%char editor
       = [session; Windows.tmuxWindowName branch ++ lit ".0"].
Proof.
  cbv zeta.
  destruct (Sys.run world (Manager.tmuxWorktreeSessionName m repoRoot wt) w)
    as [[session w1] tr] eqn:Hs.
  exists session. split; [reflexivity|].
  assert (Hsafe : forallb Naming.safeChar session = true).
  { revert Hs.
    unfold Manager.tmuxWorktreeSessionName,
      Manager.tmuxWorktreeSessionNameFrom, Manager.tmuxSessionName.
    intros Hs.
    apply RunFacts.run_bind_inv in Hs as (base & wa & ta & tb & Hb & Hs & _).
    apply RunFacts.run_bind_inv in Hb as (repo & wb & tc & td & _ & Hb & _).
    cbn [Sys.run Sys.ret] in Hs, Hb. injection Hb as <- _ _.
    injection Hs as <- _ _.
    apply TargetFacts.sessionFromBase_safe, TargetFacts.sessionNameOf_safe. }
  assert (Hcolon : ~ In ":"%char session)
    by apply TargetFacts.safe_no_colon, Hsafe.
  split; [exact Hcolon|].
  assert (Hsplit : forall window,
             forallb Naming.safeChar window = true ->
             Strings.SplitByte ":"%char
               (session ++ lit ":" ++ window ++ lit ".0")
             = [session; window ++ lit ".0"]).
  { intros window Hwin.
    change (session ++ lit ":" ++ window ++ lit ".0")
      with (session ++ ":"%char :: (window ++ lit ".0")).
    rewrite TargetFacts.SplitByte_app by exact Hcolon.
    rewrite TargetFacts.SplitByte_plain; [reflexivity|].
    apply TargetFacts.safe_no_colon. rewrite forallb_app, Hwin.
    reflexivity. }
  split.
  - assert (Ha : Sys.run world (Session.agentPaneTarget m repoRoot wt) w
                 = (session ++ lit ":"
                    ++ Manager.tmuxAgentWindowName
                         (Manager.worktreeBranchOrName wt) ++ lit ".0",
                    w1, tr ++ [])).
    { unfold Session.agentPaneTarget.
      apply (RunFacts.run_bind_eq world _ _ _ _ _ _ _ _ _ Hs).
      reflexivity. }
    rewrite Ha. unfold Traces.outcome. cbn [fst]. apply Hsplit.
    unfold Manager.tmuxAgentWindowName. apply TargetFacts.cut_safe.
    rewrite forallb_app, (proj1 (SafeFacts.safeName_closed _)). reflexivity.
  - assert (He : Sys.run world (Session.editorPaneTarget m repoRoot wt) w
                 = (session ++ lit ":"
                    ++ Windows.tmuxWindowName
                         (Manager.worktreeBranchOrName wt) ++ lit ".0",
                    w1, tr ++ [])).
    { unfold Session.editorPaneTarget.
      apply (RunFacts.run_bind_eq world _ _ _ _ _ _ _ _ _ Hs).
      reflexivity. }
    rewrite He. unfold Traces.outcome. cbn [fst]. apply Hsplit.
    unfold Windows.tmuxWindowName. apply TargetFacts.cut_safe.
    apply (proj1 (SafeFacts.safeName_closed _)).
Qed.

(** ** Copying untracked files *)

Module CopyFacts.
Import Strings Lib Sys Runner Manager Traces Notions2 TraceFacts HoldFacts.

Lemma candidateOf_ok rec p :
  candidateOf rec = Some p ->
  p <> [] /\ p <> lit ".git" /\ HasPrefix p (lit ".git/") = false.
Proof.
  unfold candidateOf. intros Hc.
  destruct (len rec <? 3); [discriminate|].
  destruct (_ || _); [|discriminate].
  match type of Hc with context [str_eqb ?q []] =>
    set (path := q) in * end.
  destruct (str_eqb path []) eqn:E1; [discriminate|].
  destruct (str_eqb path (lit ".git")) eqn:E2; [discriminate|].
  destruct (HasPrefix path (lit ".git/")) eqn:E3; [discriminate|].
  cbn [orb] in Hc. injection Hc as <-.
  apply str_eqb_neq in E1. apply str_eqb_neq in E2. auto.
Qed.

Lemma candidatesOf_ok out p :
  In p (candidatesOf out) ->
  p <> [] /\ p <> lit ".git" /\ HasPrefix p (lit ".git/") = false.
Proof.
  unfold candidatesOf. intros H.
  apply (proj1 (proj2 (OrderFacts.sortedSet_spec _) p)) in H.
  apply in_flat_map in H as (rec & _ & Hp).
  destruct (candidateOf rec) as [q|] eqn:E; [|contradiction].
  destruct Hp as [<-|[]]. exact (candidateOf_ok rec q E).
Qed.

Lemma always_forErr_in {A : Type} (P : Event -> Prop)
      (f : A -> Prog (option str)) (l : list A) :
  (forall x, In x l -> always P (f x)) -> always P (forErr f l).
Proof.
  induction l as [|x l IH]; intros H; cbn [forErr]; [exact I|].
  apply always_bind; [apply H; left; reflexivity|].
  intros [e|]; [exact I|]. apply IH. intros y Hy. apply H. right. exact Hy.
Qed.

Lemma copyCandidate_copies sourceRoot targetRoot rel :
  rel <> [] -> rel <> lit ".git" -> HasPrefix rel (lit ".git/") = false ->
  always (fun e => acts e = true -> copies sourceRoot targetRoot e)
         (copyCandidate sourceRoot targetRoot rel).
Proof.
  intros H1 H2 H3.
  assert (Hl : forall info,
             copies sourceRoot targetRoot
               (Ev (Lstat (filepath_Join [sourceRoot; rel])) info)).
  { intros info. right. exists rel. repeat split; auto.
    left. exists info. reflexivity. }
  assert (Hc : forall e,
             copyOf e = Some (filepath_Join [sourceRoot; rel],
                              filepath_Join [targetRoot; rel]) ->
             copies sourceRoot targetRoot e).
  { intros e He. right. exists rel. repeat split; auto. }
  unfold copyCandidate. apply always_bind.
  { apply always_call. intros x _. apply Hl. }
  intros [kind perm|msg|msg]; try exact I.
  apply always_bind; [|intros [e|]; exact I].
  unfold copyPath. apply always_bind.
  { apply always_call. intros x _. apply Hl. }
  intros [[| |] perm'|msg|msg]; try exact I.
  - apply always_call. intros x _. apply Hc. reflexivity.
  - apply always_bind.
    + apply always_call. intros x H. discriminate H.
    + intros [e|]; [exact I|]. apply always_call. intros x _. apply Hc.
      reflexivity.
  - apply always_call. intros x _. apply Hc. reflexivity.
Qed.

End CopyFacts.

(** X30.  The log apart, the actions of [CopyUntrackedAndIgnored] are
    the [git status] of the source, and, for relative paths [rel] that are
    never empty, [.git] or under [.git/], the [os.Lstat] of the source
    root joined with [rel] and copies from there to the target root
    joined with [rel]: it copies to no other place. *)
Theorem CopyUntrackedAndIgnored_writes_target
        (W : Type) (world : Sys.World W) (sourceRoot targetRoot : str)
        (w : W) :
  Forall (Notions2.copies sourceRoot targetRoot)
         (Traces.actions
            (Traces.trace
               (Sys.run world
                  (Manager.CopyUntrackedAndIgnored sourceRoot targetRoot)
                  w))).
Proof.
  set (P := fun e => Traces.acts e = true ->
                     Notions2.copies sourceRoot targetRoot e).
  apply (TraceFacts.Forall_actions _ P); [intros e He Ha; exact (He Ha)|].
  apply (HoldFacts.holds_run world _ (fun tr _ => Forall P tr)).
  unfold Manager.CopyUntrackedAndIgnored, Manager.collectCopyCandidates,
    Runner.runCmdBytes, Runner.runCmdBytesWithTimeout, Sys.call, Sys.ret.
  cbn [Sys.pbind Traces.holds]. intros r.
  assert (Hstatus : P (Sys.Ev (Sys.Exec sourceRoot 0 (lit "git")
                                 [lit "status"; lit "--porcelain=v2";
                                  lit "-z"; lit "--untracked-files=all";
                                  lit "--ignored=matching"]) r)).
  { intros _. left. exists r. reflexivity. }
  destruct (Sys.pr_err r); cbn [Sys.pbind Traces.holds].
  - constructor; [exact Hstatus | constructor].
  - apply (HoldFacts.holds_conseq _ (fun tr _ => Forall P tr)).
    { intros tr _ H. constructor; assumption. }
    apply HoldFacts.always_holds, CopyFacts.always_forErr_in.
    intros rel Hin.
    destruct (CopyFacts.candidatesOf_ok _ _ Hin) as (H1 & H2 & H3).
    apply CopyFacts.copyCandidate_copies; assumption.
Qed.
